(** * Micro_LLMs: the native inference and transcription controllers

    A shallow embedding of the two JNI translation units of the Android
    application,

      - [android/app/src/main/cpp/llama_jni.cpp]   (text generation), and
      - [android/app/src/main/cpp/whisper_jni.cpp] (speech to text),

    followed by the properties of the decode loop, of the model life
    cycle, of the sampler chain and of the transcription entry points.

    Conventions.
      - A C++ [int32_t] / [jint] is a [Z]; every arithmetic operation of
        the source is written with its two's complement wrap-around
        ([add32], [sub32]).
      - A nullable pointer is an [option].
      - The process-wide globals of a translation unit are a record that
        is threaded through the entry points.
      - A call into llama.cpp / whisper.cpp is a call of a method of the
        interface class [llama_h] / [whisper_h]; the calls that matter for
        a property are also returned as a trace.
      - The JNI runtime is modelled in [Module jni]. *)

From Stdlib Require Import ZArith Lia String PrimFloat Uint63.
From Stdlib Require Import Strings.Byte.
From stdpp Require Import base option list.

Local Open Scope Z_scope.

(** ** 32-bit integers *)

Definition INT32_MIN : Z := - 2 ^ 31.
Definition INT32_MAX : Z := 2 ^ 31 - 1.

(** The value of a mathematical integer once stored in an [int32_t]. *)
Definition wrap32 (z : Z) : Z := (z + 2 ^ 31) mod 2 ^ 32 - 2 ^ 31.

Definition add32 (a b : Z) : Z := wrap32 (a + b).
Definition sub32 (a b : Z) : Z := wrap32 (a - b).

Definition in_int32 (z : Z) : Prop := INT32_MIN <= z <= INT32_MAX.

(** Reading [a[i]] from a C array; the model gives 0 outside the array,
    where the source would read foreign memory. *)
Definition array_get (a : list Z) (i : Z) : Z :=
  if i <? 0 then 0 else default 0 (a !! Z.to_nat i).

(** ** The JNI runtime *)

Module jni.

(** A JNI call either returns or makes the runtime abort the process. *)
Inductive outcome (A : Type) : Type :=
| Returned (a : A)
| Aborted.
Arguments Returned {A} a.
Arguments Aborted {A}.

Definition bind {A B : Type} (o : outcome A) (k : A -> outcome B) : outcome B :=
  match o with
  | Returned a => k a
  | Aborted => Aborted
  end.

(** A [java.lang.String] is its sequence of UTF-16 code units. *)
Abbreviation jchar := Z (only parsing).
Abbreviation jstring := (list jchar) (only parsing).

Definition REPLACEMENT_CHAR : jchar := 0xFFFD.

Definition byte_val (b : byte) : Z := Z.of_N (Byte.to_N b).

(** [10xxxxxx] *)
Definition is_continuation (v : Z) : bool := Z.land v 0xC0 =? 0x80.

Definition in_range (lo hi v : Z) : bool := (lo <=? v) && (v <=? hi).

(** *** [NewStringUTF]

    [NewStringUTF] takes a C string in Modified UTF-8: one-, two- and
    three-byte forms only, each giving one UTF-16 code unit.  On anything
    else the runtime aborts (llama_jni.cpp, lines 18-19: "JNI
    NewStringUTF() requires Modified UTF-8 and will hard-abort the process
    if invalid").  [mutf8_decode] is [None] on such input. *)
Fixpoint mutf8_decode (l : list byte) : option jstring :=
  match l with
  | [] => Some []
  | b1 :: l1 =>
      let v1 := byte_val b1 in
      if v1 <? 0x80 then cons v1 <$> mutf8_decode l1
      else if Z.land v1 0xE0 =? 0xC0 then
        match l1 with
        | b2 :: l2 =>
            let v2 := byte_val b2 in
            if is_continuation v2
            then cons (Z.lor (Z.shiftl (Z.land v1 0x1F) 6) (Z.land v2 0x3F))
                   <$> mutf8_decode l2
            else None
        | [] => None
        end
      else if Z.land v1 0xF0 =? 0xE0 then
        match l1 with
        | b2 :: b3 :: l3 =>
            let v2 := byte_val b2 in
            let v3 := byte_val b3 in
            if is_continuation v2 && is_continuation v3
            then cons (Z.lor (Z.shiftl (Z.land v1 0x0F) 12)
                         (Z.lor (Z.shiftl (Z.land v2 0x3F) 6) (Z.land v3 0x3F)))
                   <$> mutf8_decode l3
            else None
        | _ => None
        end
      else None
  end.

Definition NewStringUTF (utf : list byte) : outcome jstring :=
  match mutf8_decode utf with
  | Some s => Returned s
  | None => Aborted
  end.

(** *** [new String(byte[], StandardCharsets.UTF_8)]

    The constructor never fails: it decodes standard UTF-8 and puts
    U+FFFD in the place of every malformed run (llama_jni.cpp, lines
    20-21: "Constructing String(byte[], UTF_8) tolerates invalid sequences
    and replaces them (U+FFFD)").  The model follows the table of
    well-formed byte sequences of the Unicode standard and replaces each
    maximal ill-formed run by one U+FFFD. *)

(** For a lead byte of a multi-byte form: the range allowed for the
    second byte, and the number of bytes that follow the lead byte. *)
Definition utf8_lead (v1 : Z) : option (Z * Z * nat) :=
  if in_range 0xC2 0xDF v1 then Some (0x80, 0xBF, 1%nat)
  else if v1 =? 0xE0 then Some (0xA0, 0xBF, 2%nat)
  else if in_range 0xE1 0xEC v1 then Some (0x80, 0xBF, 2%nat)
  else if v1 =? 0xED then Some (0x80, 0x9F, 2%nat)
  else if in_range 0xEE 0xEF v1 then Some (0x80, 0xBF, 2%nat)
  else if v1 =? 0xF0 then Some (0x90, 0xBF, 3%nat)
  else if in_range 0xF1 0xF3 v1 then Some (0x80, 0xBF, 3%nat)
  else if v1 =? 0xF4 then Some (0x80, 0x8F, 3%nat)
  else None.

(** A code point as UTF-16: itself, or a surrogate pair. *)
Definition utf16_units (cp : Z) : jstring :=
  if cp <? 0x10000 then [cp]
  else [0xD800 + Z.shiftr (cp - 0x10000) 10; 0xDC00 + Z.land (cp - 0x10000) 0x3FF].

Definition cont_bits (v : Z) : Z := Z.land v 0x3F.

(** One decoding step at a lead byte [v1] followed by [tl]: the code
    units produced and the number of bytes of [tl] used up. *)
Definition utf8_step (v1 : Z) (tl : list Z) : jstring * nat :=
  if v1 <? 0x80 then ([v1], 0%nat)
  else
    match utf8_lead v1 with
    | None => ([REPLACEMENT_CHAR], 0%nat)
    | Some (lo, hi, n) =>
        match tl with
        | v2 :: tl2 =>
            if in_range lo hi v2 then
              match n with
              | 1%nat =>
                  (utf16_units (Z.lor (Z.shiftl (Z.land v1 0x1F) 6) (cont_bits v2)), 1%nat)
              | _ =>
                  match tl2 with
                  | v3 :: tl3 =>
                      if is_continuation v3 then
                        match n with
                        | 2%nat =>
                            (utf16_units
                               (Z.lor (Z.shiftl (Z.land v1 0x0F) 12)
                                  (Z.lor (Z.shiftl (cont_bits v2) 6) (cont_bits v3))),
                             2%nat)
                        | _ =>
                            match tl3 with
                            | v4 :: _ =>
                                if is_continuation v4 then
                                  (utf16_units
                                     (Z.lor (Z.shiftl (Z.land v1 0x07) 18)
                                        (Z.lor (Z.shiftl (cont_bits v2) 12)
                                           (Z.lor (Z.shiftl (cont_bits v3) 6) (cont_bits v4)))),
                                   3%nat)
                                else ([REPLACEMENT_CHAR], 2%nat)
                            | [] => ([REPLACEMENT_CHAR], 2%nat)
                            end
                        end
                      else ([REPLACEMENT_CHAR], 1%nat)
                  | [] => ([REPLACEMENT_CHAR], 1%nat)
                  end
              end
            else ([REPLACEMENT_CHAR], 0%nat)
        | [] => ([REPLACEMENT_CHAR], 0%nat)
        end
    end.

(** The decoding loop; [skip] counts the bytes still to pass over
    because the previous step used them. *)
Fixpoint utf8_decode_from (skip : nat) (l : list Z) : jstring :=
  match l with
  | [] => []
  | v1 :: tl =>
      match skip with
      | S k => utf8_decode_from k tl
      | O =>
          let '(units, used) := utf8_step v1 tl in
          units ++ utf8_decode_from used tl
      end
  end.

(** Well-formed UTF-8, after the same table: a sequence of well-formed
    forms and nothing else. *)
Fixpoint utf8_well_formed (l : list Z) : bool :=
  match l with
  | [] => true
  | v1 :: tl =>
      if v1 <? 0x80 then utf8_well_formed tl
      else
        match utf8_lead v1 with
        | None => false
        | Some (lo, hi, n) =>
            match tl with
            | v2 :: tl2 =>
                in_range lo hi v2 &&
                match n with
                | 1%nat => utf8_well_formed tl2
                | _ =>
                    match tl2 with
                    | v3 :: tl3 =>
                        is_continuation v3 &&
                        match n with
                        | 2%nat => utf8_well_formed tl3
                        | _ =>
                            match tl3 with
                            | v4 :: tl4 => is_continuation v4 && utf8_well_formed tl4
                            | [] => false
                            end
                        end
                    | [] => false
                    end
                end
            | [] => false
            end
        end
  end.

Definition String_new_UTF_8 (bytes : list byte) : jstring :=
  utf8_decode_from 0 (byte_val <$> bytes).

End jni.

(** ** llama_jni.cpp *)

Module llama_jni.
Import jni.

Abbreviation llama_token := Z (only parsing).

(** [struct llama_batch]: the arrays have one slot per token. *)
Record llama_batch : Type := mk_llama_batch {
  n_tokens : Z;
  token : list llama_token;
  pos : list Z;
  n_seq_id : list Z;
  seq_id : list (list Z);
  logits : list Z
}.

(** [llama_batch_init(n_tokens_alloc, 0, n_seq_max)] allocates the arrays;
    the slots hold no meaningful value yet (0 in the model). *)
Definition llama_batch_init (n_tokens_alloc embd n_seq_max : Z) : llama_batch :=
  let n := Z.to_nat n_tokens_alloc in
  mk_llama_batch 0 (replicate n 0) (replicate n 0) (replicate n 0)
    (replicate n (replicate (Z.to_nat n_seq_max) 0)) (replicate n 0).

Definition set_n_tokens (batch : llama_batch) (n : Z) : llama_batch :=
  mk_llama_batch n (token batch) (pos batch) (n_seq_id batch) (seq_id batch) (logits batch).

Definition set_logits (batch : llama_batch) (i : Z) (v : Z) : llama_batch :=
  mk_llama_batch (n_tokens batch) (token batch) (pos batch) (n_seq_id batch)
    (seq_id batch) (<[Z.to_nat i := v]> (logits batch)).

(** The fields of the parameter structs that loadModel sets. *)
Record llama_model_params : Type := {
  n_gpu_layers : Z;
  use_mmap : bool;
  use_mlock : bool
}.

Inductive llama_flash_attn_type : Type :=
| LLAMA_FLASH_ATTN_TYPE_AUTO
| LLAMA_FLASH_ATTN_TYPE_DISABLED
| LLAMA_FLASH_ATTN_TYPE_ENABLED.

Record llama_context_params : Type := {
  n_ctx : Z;
  n_batch : Z;
  n_ubatch : Z;
  n_threads : Z;
  n_threads_batch : Z;
  flash_attn_type : llama_flash_attn_type
}.

(** A sampler chain is the list of its stages, in the order they were
    added; a stage is named after the function that makes it. *)
Inductive llama_sampler_stage : Type :=
| llama_sampler_init_top_k (k : Z)
| llama_sampler_init_top_p (p : float) (min_keep : Z)
| llama_sampler_init_temp (t : float)
| llama_sampler_init_dist (seed : Z)
| llama_sampler_init_greedy.

Abbreviation llama_sampler := (list llama_sampler_stage) (only parsing).

Definition llama_sampler_chain_init : llama_sampler := [].

Definition llama_sampler_chain_add (chain : llama_sampler) (smpl : llama_sampler_stage)
  : llama_sampler := chain ++ [smpl].

(** The float literals of the source, as the binary32 values they denote
    (each is exactly a binary64 value; a [jfloat] argument is a [float]
    for the same reason, and [<] on the two formats agrees). *)
Definition f_0_9 : float := 0x1.ccccccp-1%float.
Definition f_0_7 : float := 0x1.666666p-1%float.
Definition f_1_0 : float := 1%float.
Definition f_0 : float := 0%float.

(** What the translation unit uses of llama.h. *)
Class llama_h : Type := {
  llama_model : Type;
  llama_context : Type;
  llama_model_load_from_file : string -> llama_model_params -> option llama_model;
  llama_init_from_model : llama_model -> llama_context_params -> option llama_context;
  (** [uint32_t llama_n_batch(ctx)], [uint32_t llama_n_ctx(ctx)] *)
  llama_n_batch : llama_context -> Z;
  llama_n_ctx : llama_context -> Z;
  (** evaluates a batch: the context afterwards and the status *)
  llama_decode : llama_context -> llama_batch -> llama_context * Z;
  (** [llama_memory_clear(llama_get_memory(ctx), true)]; [None] when
      [llama_get_memory] gives no memory *)
  llama_memory_clear : llama_context -> option llama_context;
  (** [llama_token_to_piece(vocab, token, buf, length, lstrip, special)]:
      the return value and the buffer afterwards *)
  llama_token_to_piece :
    llama_model -> llama_token -> list byte -> Z -> Z -> bool -> Z * list byte;
  llama_vocab_eos : llama_model -> llama_token
}.

(** The calls that release a handle, for the order of a teardown. *)
Inductive free_call `{llama_h} : Type :=
| llama_sampler_free (smpl : llama_sampler)
| llama_free (ctx : llama_context)
| llama_model_free (model : llama_model).

(** What new_string_from_utf8_bytes asks of the JNI environment: each
    field says whether that call gives a non-null result. *)
Record JNIEnv : Type := {
  NewByteArray_ok : bool;
  FindClass_StandardCharsets_ok : bool;
  GetStaticFieldID_UTF_8_ok : bool;
  GetStaticObjectField_UTF_8_ok : bool;
  FindClass_String_ok : bool;
  GetMethodID_String_init_ok : bool;
  NewObject_String_ok : bool;
  (** [ExceptionCheck()] after [NewObject] *)
  ExceptionCheck_pending : bool
}.

(** An environment in which every one of these calls succeeds and the
    constructor raises nothing. *)
Definition jni_healthy (env : JNIEnv) : Prop :=
  NewByteArray_ok env = true /\
  FindClass_StandardCharsets_ok env = true /\
  GetStaticFieldID_UTF_8_ok env = true /\
  GetStaticObjectField_UTF_8_ok env = true /\
  FindClass_String_ok env = true /\
  GetMethodID_String_init_ok env = true /\
  NewObject_String_ok env = true /\
  ExceptionCheck_pending env = false.

(** llama_jni.cpp, lines 22-85.  [bytes] is [None] for a null pointer. *)
Definition new_string_from_utf8_bytes (env : JNIEnv) (bytes : option (list byte)) (len : Z)
  : outcome jstring :=
  match bytes with
  | None => NewStringUTF []
  | Some data =>
      if len <=? 0 then NewStringUTF []
      else if negb (NewByteArray_ok env) then NewStringUTF []
      else
        (* SetByteArrayRegion(arr, 0, len, bytes) *)
        let arr := take (Z.to_nat len) data in
        if negb (FindClass_StandardCharsets_ok env) then NewStringUTF []
        else if negb (GetStaticFieldID_UTF_8_ok env) then NewStringUTF []
        else if negb (GetStaticObjectField_UTF_8_ok env) then NewStringUTF []
        else if negb (FindClass_String_ok env) then NewStringUTF []
        else if negb (GetMethodID_String_init_ok env) then NewStringUTF []
        else
          let out := if NewObject_String_ok env then Some (String_new_UTF_8 arr) else None in
          if ExceptionCheck_pending env then NewStringUTF []
          else
            match out with
            | Some s => Returned s
            | None => NewStringUTF []
            end
  end.

Section with_llama.
Context `{llama_h}.

(** The globals, lines 88-91. *)
Record globals : Type := mk_globals {
  g_model : option llama_model;
  g_ctx : option llama_context;
  g_sampler : option llama_sampler;
  g_n_past : Z
}.

Definition initial_globals : globals := mk_globals None None None 0.

Definition set_g_model (st : globals) (v : option llama_model) : globals :=
  mk_globals v (g_ctx st) (g_sampler st) (g_n_past st).
Definition set_g_ctx (st : globals) (v : option llama_context) : globals :=
  mk_globals (g_model st) v (g_sampler st) (g_n_past st).
Definition set_g_sampler (st : globals) (v : option llama_sampler) : globals :=
  mk_globals (g_model st) (g_ctx st) v (g_n_past st).
Definition set_g_n_past (st : globals) (v : Z) : globals :=
  mk_globals (g_model st) (g_ctx st) (g_sampler st) v.

(** One round of the [for] loop of lines 108-114. *)
Definition fill_slot (tokens : list llama_token) (g_n_past offset seq_id0 : Z)
    (batch : llama_batch) (i : Z) : llama_batch :=
  let k := Z.to_nat i in
  mk_llama_batch (n_tokens batch)
    (<[k := array_get tokens (add32 offset i)]> (token batch))
    (<[k := add32 g_n_past i]> (pos batch))
    (<[k := 1]> (n_seq_id batch))
    (<[k := <[0%nat := seq_id0]> (default [] (seq_id batch !! k))]> (seq_id batch))
    (<[k := 0]> (logits batch)).

(** The batch of one chunk as it is handed to [llama_decode], lines
    103-119. *)
Definition build_batch (tokens : list llama_token) (n_tokens g_n_past offset n_eval : Z)
  : llama_batch :=
  let seq_id0 := 0 in
  let batch := llama_batch_init n_eval 0 1 in
  let batch := set_n_tokens batch n_eval in
  let batch := fold_left (fill_slot tokens g_n_past offset seq_id0) (seqZ 0 n_eval) batch in
  if add32 offset n_eval =? n_tokens
  then set_logits batch (sub32 n_eval 1) 1
  else batch.

(** The [while] loop of lines 102-130.  The result is the status, the
    context, [g_n_past] and the chunks handed to [llama_decode], each
    with the status it came back with; [None] when [fuel] rounds were not
    enough to leave the loop. *)
Fixpoint decode_loop (fuel : nat) (tokens : list llama_token) (n_tokens n_batch : Z)
    (ctx : llama_context) (g_n_past offset : Z)
  : option (Z * llama_context * Z * list (llama_batch * Z)) :=
  if offset <? n_tokens then
    match fuel with
    | O => None
    | S fuel' =>
        let n_eval := Z.min n_batch (sub32 n_tokens offset) in
        let batch := build_batch tokens n_tokens g_n_past offset n_eval in
        let '(ctx', res) := llama_decode ctx batch in
        if negb (res =? 0) then Some (res, ctx', g_n_past, [(batch, res)])
        else
          match decode_loop fuel' tokens n_tokens n_batch ctx'
                  (add32 g_n_past n_eval) (add32 offset n_eval) with
          | Some (r, c, p, evs) => Some (r, c, p, (batch, res) :: evs)
          | None => None
          end
    end
  else Some (0, ctx, g_n_past, []).

(** Lines 93-133. *)
Definition decode_tokens_internal (fuel : nat) (st : globals)
    (tokens : list llama_token) (n_tokens : Z)
  : option (Z * globals * list (llama_batch * Z)) :=
  match g_ctx st with
  | None => Some (-1, st, [])
  | Some ctx =>
      let n_batch := wrap32 (llama_n_batch ctx) in
      match decode_loop fuel tokens n_tokens n_batch ctx (g_n_past st) 0 with
      | Some (res, ctx', n_past', evs) =>
          Some (res, set_g_n_past (set_g_ctx st (Some ctx')) n_past', evs)
      | None => None
      end
  end.

(** Lines 287-308.  [GetArrayLength] gives the length of the Java array,
    a [jsize]; the cast to [int32_t] changes nothing. *)
Definition Java_com_microllm_app_LlamaNative_decode (fuel : nat) (st : globals)
    (tokens : list llama_token)
  : option (Z * globals * list (llama_batch * Z)) :=
  match g_ctx st with
  | None => Some (-1, st, [])
  | Some _ =>
      let nTokens := Z.of_nat (length tokens) in
      decode_tokens_internal fuel st tokens nTokens
  end.

(** The teardown that loadModel and unloadModel share, lines 153-160 and
    229-236. *)
Definition free_sampler (st : globals) : globals * list free_call :=
  match g_sampler st with
  | Some smpl => (set_g_sampler st None, [llama_sampler_free smpl])
  | None => (st, [])
  end.

Definition free_ctx (st : globals) : globals * list free_call :=
  match g_ctx st with
  | Some ctx => (set_g_ctx st None, [llama_free ctx])
  | None => (st, [])
  end.

Definition to_uint32 (z : Z) : Z := z mod 2 ^ 32.

(** The default chain of lines 211-219. *)
Definition default_sampler_chain : llama_sampler :=
  let smpl := llama_sampler_chain_init in
  let smpl := llama_sampler_chain_add smpl (llama_sampler_init_top_k 40) in
  let smpl := llama_sampler_chain_add smpl (llama_sampler_init_top_p f_0_9 1) in
  let smpl := llama_sampler_chain_add smpl (llama_sampler_init_temp f_0_7) in
  llama_sampler_chain_add smpl (llama_sampler_init_dist 42).

(** Lines 143-223: the result, the globals afterwards and the handles
    released, in order. *)
Definition Java_com_microllm_app_LlamaNative_loadModel (st : globals)
    (modelPath : string) (contextSize threads : Z)
  : bool * globals * list free_call :=
  let '(st, frees) :=
    match g_model st with
    | Some model =>
        let '(st, f1) := free_sampler st in
        let '(st, f2) := free_ctx st in
        let st := set_g_model st None in
        let st := set_g_n_past st 0 in
        (st, f1 ++ f2 ++ [llama_model_free model])
    | None => (st, [])
    end in
  let model_params := {| n_gpu_layers := 0; use_mmap := true; use_mlock := false |} in
  let st := set_g_model st (llama_model_load_from_file modelPath model_params) in
  match g_model st with
  | None => (false, st, frees)
  | Some model =>
      let ctx_params :=
        {| n_ctx := to_uint32 contextSize; n_batch := 512; n_ubatch := 512;
           n_threads := threads; n_threads_batch := threads;
           flash_attn_type := LLAMA_FLASH_ATTN_TYPE_DISABLED |} in
      let st := set_g_ctx st (llama_init_from_model model ctx_params) in
      match g_ctx st with
      | None =>
          let st := set_g_model st None in
          (false, st, frees ++ [llama_model_free model])
      | Some _ =>
          let st := set_g_n_past st 0 in
          let st := set_g_sampler st (Some default_sampler_chain) in
          (true, st, frees)
      end
  end.

(** Lines 225-244. *)
Definition Java_com_microllm_app_LlamaNative_unloadModel (st : globals)
  : globals * list free_call :=
  let '(st, f1) := free_sampler st in
  let '(st, f2) := free_ctx st in
  let '(st, f3) :=
    match g_model st with
    | Some model => (set_g_model st None, [llama_model_free model])
    | None => (st, [])
    end in
  (set_g_n_past st 0, f1 ++ f2 ++ f3).

(** Lines 246-249. *)
Definition Java_com_microllm_app_LlamaNative_isLoaded (st : globals) : bool :=
  match g_model st, g_ctx st with
  | Some _, Some _ => true
  | _, _ => false
  end.

(** Lines 323-346. *)
Definition Java_com_microllm_app_LlamaNative_tokenToString (env : JNIEnv) (st : globals)
    (token : Z) : outcome jstring :=
  match g_model st with
  | None => NewStringUTF []
  | Some model =>
      let buf := replicate 4096 Byte.x00 in
      let '(len, buf) := llama_token_to_piece model token buf 4096 0 true in
      if len <? 0 then NewStringUTF []
      else new_string_from_utf8_bytes env (Some buf) len
  end.

(** Lines 357-363. *)
Definition Java_com_microllm_app_LlamaNative_getContextSize (st : globals) : Z :=
  match g_ctx st with
  | None => 0
  | Some ctx => wrap32 (llama_n_ctx ctx)
  end.

(** Lines 365-392. *)
Definition Java_com_microllm_app_LlamaNative_resetSampler (st : globals)
    (temperature topP : float) (topK : Z)
  : globals * list free_call :=
  let frees :=
    match g_sampler st with
    | Some smpl => [llama_sampler_free smpl]
    | None => []
    end in
  let smpl := llama_sampler_chain_init in
  let smpl :=
    if 0 <? topK
    then llama_sampler_chain_add smpl (llama_sampler_init_top_k topK)
    else smpl in
  let smpl :=
    if PrimFloat.ltb topP f_1_0
    then llama_sampler_chain_add smpl (llama_sampler_init_top_p topP 1)
    else smpl in
  let smpl :=
    if PrimFloat.ltb f_0 temperature
    then llama_sampler_chain_add
           (llama_sampler_chain_add smpl (llama_sampler_init_temp temperature))
           (llama_sampler_init_dist 42)
    else llama_sampler_chain_add smpl llama_sampler_init_greedy in
  (set_g_sampler st (Some smpl), frees).

(** Lines 394-403. *)
Definition Java_com_microllm_app_LlamaNative_clearContext (st : globals) : globals :=
  let st :=
    match g_ctx st with
    | Some ctx =>
        match llama_memory_clear ctx with
        | Some ctx' => set_g_ctx st (Some ctx')
        | None => st
        end
    | None => st
    end in
  set_g_n_past st 0.

End with_llama.

End llama_jni.

(** ** whisper_jni.cpp *)

Module whisper_jni.
Import jni.

(** [(float) x] for an integer [x] of 16 bits: exact. *)
Definition float_of_int (z : Z) : float :=
  if z <? 0 then PrimFloat.opp (PrimFloat.of_uint63 (Uint63.of_Z (- z)))
  else PrimFloat.of_uint63 (Uint63.of_Z z).

(** Lines 32-38; [k] is [1.0f / 32768.0f]. *)
Definition pcm16_to_f32 (pcm : list Z) (n : Z) : list float :=
  let k : float := 0x1p-15%float in
  (fun i => PrimFloat.mul (float_of_int (array_get pcm i)) k) <$> seqZ 0 n.

(** The text of a segment, a [const char *]: [None] for a null pointer. *)
Abbreviation segment_text := (option (list byte)) (only parsing).

(** The fields of [whisper_full_params] that the entry points set; the
    new-segment callback and its user data are passed beside them. *)
Record whisper_full_params : Type := {
  n_threads : Z;
  translate : bool;
  print_progress : bool;
  print_realtime : bool;
  print_timestamps : bool;
  language : string
}.

(** What the translation unit uses of whisper.h.  A run of
    [whisper_full] over the samples is given by the steps it takes and
    its status: at each step the engine appends the segments of the step
    to its results and then invokes the new-segment callback, if one is
    registered, with the count [n_new] it reports for the step. *)
Class whisper_h : Type := {
  whisper_model : Type;
  whisper_init_from_file : string -> option whisper_model;
  whisper_full_steps :
    whisper_model -> whisper_full_params -> list float -> list (list segment_text * Z) * Z
}.

(** The sink of a streaming call: a Java object, with or without a
    method [onPartial(String)]. *)
Record jobject : Type := { has_onPartial : bool }.

(** The JNI method id of [onPartial]. *)
Inductive jmethodID : Type := mid_onPartial_of (obj : jobject).

Definition GetMethodID_onPartial (obj : jobject) : option jmethodID :=
  if has_onPartial obj then Some (mid_onPartial_of obj) else None.

(** Lines 41-46; [env] is [true] for a non-null pointer. *)
Record stream_callback_ctx : Type := mk_stream_callback_ctx {
  env : bool;
  callback_obj : option jobject;
  mid_onPartial : option jmethodID;
  accumulated : list byte
}.

Section with_whisper.
Context `{whisper_h}.

(** [HAS_WHISPER], lines 17-22: whether whisper.h was there at build
    time. *)
Variable HAS_WHISPER : bool.

(** A [whisper_context]: the loaded model and the segments of the last
    run. *)
Record whisper_context : Type := mk_whisper_context {
  model : whisper_model;
  result_all : list segment_text
}.

Definition whisper_full_n_segments (ctx : whisper_context) : Z :=
  wrap32 (Z.of_nat (length (result_all ctx))).

Definition whisper_full_get_segment_text (ctx : whisper_context) (i : Z) : segment_text :=
  if i <? 0 then None else mjoin (result_all ctx !! Z.to_nat i).

(** Lines 25-30. *)
Record globals : Type := mk_globals {
  g_wctx : option whisper_context;
  g_threads : Z
}.

Definition initial_globals : globals := mk_globals None 4.

(** [out.append(text)] guarded by [if (text)], for the segments
    [start .. n_segments - 1]. *)
Definition append_segments (ctx : whisper_context) (start n_segments : Z) (out : list byte)
  : list byte :=
  fold_left
    (fun out i =>
       match whisper_full_get_segment_text ctx i with
       | Some text => out ++ text
       | None => out
       end)
    (seqZ start (n_segments - start)) out.

(** Lines 48-64: the callback context afterwards and the strings handed
    to [onPartial]. *)
Definition on_new_segment_cb (ctx : whisper_context) (n_new : Z)
    (user_data : option stream_callback_ctx)
  : outcome (option stream_callback_ctx * list jstring) :=
  match user_data with
  | None => Returned (user_data, [])
  | Some cb =>
      match env cb, callback_obj cb, mid_onPartial cb with
      | true, Some _, Some _ =>
          let n_segments := whisper_full_n_segments ctx in
          let start := Z.max 0 (sub32 n_segments n_new) in
          let acc := append_segments ctx start n_segments (accumulated cb) in
          let cb := mk_stream_callback_ctx (env cb) (callback_obj cb) (mid_onPartial cb) acc in
          bind (NewStringUTF acc) (fun jtxt => Returned (Some cb, [jtxt]))
      | _, _, _ => Returned (user_data, [])
      end
  end.

(** The steps of a run of [whisper_full] with the callback
    [new_segment_callback] ([true] when it is registered) and its user
    data. *)
Fixpoint run_steps (steps : list (list segment_text * Z)) (ctx : whisper_context)
    (new_segment_callback : bool) (user_data : option stream_callback_ctx)
  : outcome (whisper_context * option stream_callback_ctx * list jstring) :=
  match steps with
  | [] => Returned (ctx, user_data, [])
  | (segments, n_new) :: steps' =>
      let ctx := mk_whisper_context (model ctx) (result_all ctx ++ segments) in
      bind (if new_segment_callback
            then on_new_segment_cb ctx n_new user_data
            else Returned (user_data, []))
        (fun '(user_data, calls) =>
           bind (run_steps steps' ctx new_segment_callback user_data)
             (fun '(ctx, user_data, calls') => Returned (ctx, user_data, calls ++ calls')))
  end.

(** [whisper_full(ctx, params, samples, n_samples)]: the results of the
    run before are dropped first. *)
Definition whisper_full (ctx : whisper_context) (params : whisper_full_params)
    (new_segment_callback : bool) (user_data : option stream_callback_ctx)
    (samples : list float)
  : outcome (whisper_context * Z * list jstring) :=
  let '(steps, res) := whisper_full_steps (model ctx) params samples in
  let ctx := mk_whisper_context (model ctx) [] in
  bind (run_steps steps ctx new_segment_callback user_data)
    (fun '(ctx, _, calls) => Returned (ctx, res, calls)).

(** What an entry point did: its return value ([None] for [nullptr]),
    the globals afterwards, the calls of [whisper_full] it made (with
    the parameters and samples given) and the strings handed to the
    sink, in order. *)
Record effect : Type := mk_effect {
  ret : outcome (option jstring);
  globals_after : globals;
  engine_calls : list (whisper_full_params * list float);
  sink_calls : list jstring
}.

(** Lines 78-108. *)
Definition Java_com_microllm_app_WhisperNative_loadModel (st : globals)
    (modelPath : string) (threads : Z) : bool * globals :=
  if negb HAS_WHISPER then (false, st)
  else
    let st := mk_globals None (g_threads st) in
    let st := mk_globals (g_wctx st) threads in
    match whisper_init_from_file modelPath with
    | Some m => (true, mk_globals (Some (mk_whisper_context m [])) (g_threads st))
    | None => (false, mk_globals None (g_threads st))
    end.

(** Lines 110-120. *)
Definition Java_com_microllm_app_WhisperNative_unloadModel (st : globals) : globals :=
  mk_globals None (g_threads st).

(** Lines 122-125. *)
Definition Java_com_microllm_app_WhisperNative_isLoaded (st : globals) : bool :=
  match g_wctx st with
  | Some _ => true
  | None => false
  end.

(** Lines 168-175 and 235-240: [lang] is what [GetStringUTFChars] gave. *)
Definition language_of_tag (lang : option string) : string :=
  let langStr := match lang with Some s => s | None => "en"%string end in
  match String.index 0 "-" langStr with
  | Some dash => String.substring 0 dash langStr
  | None => langStr
  end.

(** Lines 161-166 and 228-233. *)
Definition full_params (st : globals) (translateToEnglish : bool) (lang : option string)
  : whisper_full_params :=
  {| n_threads := g_threads st;
     translate := translateToEnglish;
     print_progress := false;
     print_realtime := false;
     print_timestamps := false;
     language := language_of_tag lang |}.

(** Lines 183-191 and 262-270. *)
Definition aggregate_segments (ctx : whisper_context) : outcome (option jstring) :=
  let n_segments := whisper_full_n_segments ctx in
  let out := append_segments ctx 0 n_segments [] in
  bind (NewStringUTF out) (fun s => Returned (Some s)).

(** Lines 127-193.  [n] is a [jsize] and [sampleRate] a [jint]: the casts
    to [int] change nothing. *)
Definition Java_com_microllm_app_WhisperNative_transcribePcm16 (st : globals)
    (pcm16 : list Z) (sampleRate : Z) (languageTag : option string)
    (translateToEnglish : bool) : effect :=
  if negb HAS_WHISPER then mk_effect (Returned None) st [] []
  else
    match g_wctx st with
    | None => mk_effect (Returned None) st [] []
    | Some wctx =>
        let n := Z.of_nat (length pcm16) in
        if n <=? 0 then mk_effect (bind (NewStringUTF []) (fun s => Returned (Some s))) st [] []
        else
          let audio := pcm16_to_f32 pcm16 n in
          if negb (sampleRate =? 16000) then mk_effect (Returned None) st [] []
          else
            let params := full_params st translateToEnglish languageTag in
            match whisper_full wctx params false None audio with
            | Aborted => mk_effect Aborted st [(params, audio)] []
            | Returned (wctx, res, calls) =>
                let st := mk_globals (Some wctx) (g_threads st) in
                if negb (res =? 0) then mk_effect (Returned None) st [(params, audio)] calls
                else mk_effect (aggregate_segments wctx) st [(params, audio)] calls
            end
    end.

(** Lines 195-272; [callbackObj] is [None] for a null reference. *)
Definition Java_com_microllm_app_WhisperNative_transcribePcm16Streaming (st : globals)
    (pcm16 : list Z) (sampleRate : Z) (languageTag : option string)
    (translateToEnglish : bool) (callbackObj : option jobject) : effect :=
  if negb HAS_WHISPER then mk_effect (Returned None) st [] []
  else
    match g_wctx st with
    | None => mk_effect (Returned None) st [] []
    | Some wctx =>
        let n := Z.of_nat (length pcm16) in
        if n <=? 0 then mk_effect (bind (NewStringUTF []) (fun s => Returned (Some s))) st [] []
        else
          let audio := pcm16_to_f32 pcm16 n in
          if negb (sampleRate =? 16000) then mk_effect (Returned None) st [] []
          else
            let params := full_params st translateToEnglish languageTag in
            let cb := mk_stream_callback_ctx false None None [] in
            let '(cb, new_segment_callback, user_data) :=
              match callbackObj with
              | Some obj =>
                  let mid := GetMethodID_onPartial obj in
                  let cb := mk_stream_callback_ctx true (Some obj) mid (accumulated cb) in
                  (cb, true, Some cb)
              | None => (cb, false, None)
              end in
            match whisper_full wctx params new_segment_callback user_data audio with
            | Aborted => mk_effect Aborted st [(params, audio)] []
            | Returned (wctx, res, calls) =>
                let st := mk_globals (Some wctx) (g_threads st) in
                if negb (res =? 0) then mk_effect (Returned None) st [(params, audio)] calls
                else mk_effect (aggregate_segments wctx) st [(params, audio)] calls
            end
    end.

End with_whisper.

End whisper_jni.

(** ** The vocabulary of the statements about the life cycle *)

Module lifecycle_spec.
Import llama_jni.

Section with_llama.
Context `{llama_h}.

(** Without a model there is no context and no sampler, and the cache
    position is 0. *)
Definition no_model_no_state (st : globals) : Prop :=
  g_model st = None -> g_ctx st = None /\ g_sampler st = None /\ g_n_past st = 0.

End with_llama.

End lifecycle_spec.

(** ** The vocabulary of the statements about transcription *)

Module transcribe_spec.
Import whisper_jni.

(** The texts of a list of segments, one after the other; a segment
    without text adds nothing. *)
Definition segments_text (segs : list segment_text) : list byte :=
  concat (omap id segs).

(** The concatenation of the texts of all segments of the given steps
    of a run. *)
Definition cumulative_text (steps : list (list segment_text * Z)) : list byte :=
  segments_text (concat (fst <$> steps)).

(** What whisper.h promises of a run: the count handed to the
    new-segment callback is the number of segments that are new, and the
    number of segments is an [int]. *)
Definition engine_contract (steps : list (list segment_text * Z)) : Prop :=
  Forall (fun step => step.2 = Z.of_nat (length step.1)) steps /\
  Z.of_nat (length (concat (fst <$> steps))) <= INT32_MAX.

End transcribe_spec.

(** ** Scripted engines

    Small instances of the two interfaces, to run the entry points on
    concrete inputs. *)

Module scripted.
Import jni.

(** A context with a batch width and the statuses that its next
    evaluations report (0 once the script is used up). *)
Record context : Type := mk_context {
  c_n_ctx : Z;
  c_n_batch : Z;
  c_script : list Z
}.

(** A model is its path and the statuses its context will report; the
    empty path cannot be loaded, and no context can be made for a
    context size of 0. *)
Definition llama (script : list Z) (piece : Z -> Z * list byte) : llama_jni.llama_h := {|
  llama_jni.llama_model := string;
  llama_jni.llama_context := context;
  llama_jni.llama_model_load_from_file path _ :=
    if String.eqb path "" then None else Some path;
  llama_jni.llama_init_from_model _ params :=
    if llama_jni.n_ctx params =? 0 then None
    else Some (mk_context (llama_jni.n_ctx params) (llama_jni.n_batch params) script);
  llama_jni.llama_n_batch := c_n_batch;
  llama_jni.llama_n_ctx := c_n_ctx;
  llama_jni.llama_decode c _ :=
    match c_script c with
    | [] => (c, 0)
    | r :: rs => (mk_context (c_n_ctx c) (c_n_batch c) rs, r)
    end;
  llama_jni.llama_memory_clear c := Some c;
  llama_jni.llama_token_to_piece _ tok buf _ _ _ :=
    let '(len, bytes) := piece tok in
    (len, bytes ++ drop (length bytes) buf);
  llama_jni.llama_vocab_eos _ := 2
|}.

(** A vocabulary without pieces. *)
Definition no_piece (tok : Z) : Z * list byte := (-1, []).

(** The globals with a model and a context of batch width [B] loaded,
    the context reporting the statuses [script], and with the cache
    position [n_past]. *)
Definition loaded (B : Z) (script : list Z) (n_past : Z)
  : @llama_jni.globals (llama [] no_piece) :=
  llama_jni.mk_globals (H := llama [] no_piece)
    (Some "model.gguf"%string)
    (Some (mk_context 2048 B script))
    (Some llama_jni.default_sampler_chain)
    n_past.

(** An engine whose run takes the given steps and ends with the given
    status, whatever the samples. *)
Definition whisper (steps : list (list whisper_jni.segment_text * Z)) (res : Z)
  : whisper_jni.whisper_h := {|
  whisper_jni.whisper_model := string;
  whisper_jni.whisper_init_from_file path :=
    if String.eqb path "" then None else Some path;
  whisper_jni.whisper_full_steps _ _ _ := (steps, res)
|}.

(** An environment in which every JNI call succeeds. *)
Definition healthy_env : llama_jni.JNIEnv :=
  {| llama_jni.NewByteArray_ok := true;
     llama_jni.FindClass_StandardCharsets_ok := true;
     llama_jni.GetStaticFieldID_UTF_8_ok := true;
     llama_jni.GetStaticObjectField_UTF_8_ok := true;
     llama_jni.FindClass_String_ok := true;
     llama_jni.GetMethodID_String_init_ok := true;
     llama_jni.NewObject_String_ok := true;
     llama_jni.ExceptionCheck_pending := false |}.

(** A vocabulary whose token 1 is the first two bytes of a character of
    three bytes, and whose other tokens have no piece. *)
Definition fragment_piece (tok : Z) : Z * list byte :=
  if tok =? 1 then (2, [Byte.xe4; Byte.xb8]) else (-1, []).

(** The globals with a model of that vocabulary loaded. *)
Definition loaded_fragment : @llama_jni.globals (llama [] fragment_piece) :=
  llama_jni.mk_globals (H := llama [] fragment_piece)
    (Some "model.gguf"%string) (Some (mk_context 2048 512 [])) None 0.

(** The segments of a run in two steps: [Hel], then [lo] and a segment
    without text. *)
Definition hello_steps : list (list whisper_jni.segment_text * Z) :=
  [([Some [Byte.x48; Byte.x65; Byte.x6c]], 1);
   ([Some [Byte.x6c; Byte.x6f]; None], 2)].

(** The globals of whisper_jni.cpp with a model loaded. *)
Definition listening (steps : list (list whisper_jni.segment_text * Z)) (res : Z)
  : @whisper_jni.globals (whisper steps res) :=
  whisper_jni.mk_globals (H := whisper steps res)
    (Some (whisper_jni.mk_whisper_context (H := whisper steps res) "ggml-base.bin"%string []))
    4.

End scripted.

(** ** The vocabulary of the statements about decode *)

Module decode_spec.
Import llama_jni.

(** [ceil(n / B)] for a positive [B]. *)
Definition ceil_div (n B : Z) : Z := (n + B - 1) / B.

(** The chunk that starts at [offset] of [tokens], for the batch width
    [B] and the cache position [cache_position] of its first token, as
    the specification words it: at most [B] consecutive tokens, each at
    the cache position of the first plus its offset within the chunk,
    all in sequence 0, and logits asked for the last token only, and
    only when the chunk ends the sequence. *)
Definition spec_chunk (tokens : list llama_token) (B cache_position offset : Z)
  : llama_batch :=
  let n := Z.of_nat (length tokens) in
  let len := Z.min B (n - offset) in
  mk_llama_batch len
    (take (Z.to_nat len) (drop (Z.to_nat offset) tokens))
    (seqZ cache_position len)
    (replicate (Z.to_nat len) 1)
    (replicate (Z.to_nat len) [0])
    (if offset + len =? n
     then replicate (Z.to_nat len - 1) 0 ++ [1]
     else replicate (Z.to_nat len) 0).

(** The number of positions of a batch whose logits flag is set. *)
Definition logits_requested (batch : llama_batch) : nat :=
  length (filter (fun v => v <> 0) (logits batch)).

(** The same over the chunks handed to [llama_decode] by one call. *)
Definition total_logits_requested (evs : list (llama_batch * Z)) : nat :=
  sum_list ((fun ev => logits_requested ev.1) <$> evs).

(** The number of tokens of the chunks that were evaluated with status
    0. *)
Definition tokens_evaluated (evs : list (llama_batch * Z)) : Z :=
  foldr (fun ev acc => if ev.2 =? 0 then n_tokens ev.1 + acc else acc) 0 evs.

End decode_spec.

(** ** llama_jni.cpp: sampling, the end-of-sequence token, sessions *)

Module llama_session.
Import jni llama_jni.

(** What [sample] uses of llama.h.  The stages of a chain keep a state
    of their own (a random generator, what was accepted so far); it is
    [sampler_state] here, beside the list of stages. *)
Class llama_sampling_h `{llama_h} : Type := {
  sampler_state : Type;
  (** [llama_sampler_sample(smpl, ctx, idx)] *)
  llama_sampler_sample :
    sampler_state -> llama_sampler -> llama_context -> Z -> llama_token * sampler_state;
  (** [llama_sampler_accept(smpl, token)] *)
  llama_sampler_accept : sampler_state -> llama_sampler -> llama_token -> sampler_state
}.

(** The calls that [sample] makes. *)
Inductive sampler_call : Type :=
| sampler_sample (idx : Z) (token : llama_token)
| sampler_accept (token : llama_token).

Section with_llama.
Context `{llama_sampling_h}.

(** Lines 310-321: the token, the state of the sampler afterwards and
    the calls made. *)
Definition Java_com_microllm_app_LlamaNative_sample (rng : sampler_state) (st : globals)
  : Z * sampler_state * list sampler_call :=
  match g_ctx st, g_sampler st with
  | Some ctx, Some smpl =>
      let '(token, rng) := llama_sampler_sample rng smpl ctx (-1) in
      let rng := llama_sampler_accept rng smpl token in
      (token, rng, [sampler_sample (-1) token; sampler_accept token])
  | _, _ => (-1, rng, [])
  end.

(** Lines 348-355. *)
Definition Java_com_microllm_app_LlamaNative_getEosToken (st : globals) : Z :=
  match g_model st with
  | None => 2
  | Some model => llama_vocab_eos model
  end.

(** A call of an entry point that changes the globals. *)
Inductive call : Type :=
| call_loadModel (modelPath : string) (contextSize threads : Z)
| call_unloadModel
| call_decode (fuel : nat) (tokens : list llama_token)
| call_resetSampler (temperature topP : float) (topK : Z)
| call_clearContext.

(** The globals after a call; [None] when decode does not return
    within its rounds. *)
Definition after_call (st : globals) (c : call) : option globals :=
  match c with
  | call_loadModel modelPath contextSize threads =>
      Some (Java_com_microllm_app_LlamaNative_loadModel st modelPath contextSize threads).1.2
  | call_unloadModel =>
      Some (Java_com_microllm_app_LlamaNative_unloadModel st).1
  | call_decode fuel tokens =>
      match Java_com_microllm_app_LlamaNative_decode fuel st tokens with
      | Some (_, st', _) => Some st'
      | None => None
      end
  | call_resetSampler temperature topP topK =>
      Some (Java_com_microllm_app_LlamaNative_resetSampler st temperature topP topK).1
  | call_clearContext =>
      Some (Java_com_microllm_app_LlamaNative_clearContext st)
  end.

(** A stage that picks the token, against one that filters or rescales
    the candidates. *)
Definition is_selection (stage : llama_sampler_stage) : bool :=
  match stage with
  | llama_sampler_init_dist _ | llama_sampler_init_greedy => true
  | _ => false
  end.

(** The globals after a sequence of calls. *)
Fixpoint after_calls (st : globals) (cs : list call) : option globals :=
  match cs with
  | [] => Some st
  | c :: cs' =>
      match after_call st c with
      | Some st' => after_calls st' cs'
      | None => None
      end
  end.

End with_llama.

End llama_session.

(** ** whisper_jni.cpp: availability *)

Module whisper_session.
Import jni whisper_jni.

(** Lines 69-76. *)
Definition Java_com_microllm_app_WhisperNative_isAvailable (HAS_WHISPER : bool) : bool :=
  if HAS_WHISPER then true else false.

(** The calls of a session that can change the globals of
    whisper_jni.cpp. *)
Inductive call : Type :=
| call_loadModel (modelPath : string) (threads : Z)
| call_unloadModel
| call_transcribePcm16 (pcm16 : list Z) (sampleRate : Z) (languageTag : option string)
    (translateToEnglish : bool)
| call_transcribePcm16Streaming (pcm16 : list Z) (sampleRate : Z)
    (languageTag : option string) (translateToEnglish : bool) (callbackObj : option jobject).

Section with_whisper.
Context `{whisper_h}.
Variable HAS_WHISPER : bool.

(** The globals after one call. *)
Definition after_call (st : globals) (c : call) : globals :=
  match c with
  | call_loadModel modelPath threads =>
      (Java_com_microllm_app_WhisperNative_loadModel HAS_WHISPER st modelPath threads).2
  | call_unloadModel => Java_com_microllm_app_WhisperNative_unloadModel st
  | call_transcribePcm16 pcm16 sampleRate languageTag translateToEnglish =>
      globals_after
        (Java_com_microllm_app_WhisperNative_transcribePcm16 HAS_WHISPER st pcm16
           sampleRate languageTag translateToEnglish)
  | call_transcribePcm16Streaming pcm16 sampleRate languageTag translateToEnglish
      callbackObj =>
      globals_after
        (Java_com_microllm_app_WhisperNative_transcribePcm16Streaming HAS_WHISPER st pcm16
           sampleRate languageTag translateToEnglish callbackObj)
  end.

(** The globals after a sequence of calls. *)
Definition after_calls (st : globals) (cs : list call) : globals :=
  fold_left after_call cs st.

End with_whisper.

End whisper_session.

(** ** Vocabulary of the statements about samples *)

Module pcm16_spec.
Import whisper_jni.

(** A sample of 16 bits. *)
Definition is_int16 (v : Z) : Prop := -32768 <= v <= 32767.

(** What holds of the float [x] made of the sample [v]: it lies in
    [-1, 1), multiplied by 32768 it is the sample again, and it is
    negative, zero or positive as the sample is. *)
Definition sample_scaled (v : Z) (x : float) : bool :=
  PrimFloat.leb (-1)%float x && PrimFloat.ltb x 1%float &&
  PrimFloat.eqb (PrimFloat.mul x 32768%float) (float_of_int v) &&
  Bool.eqb (PrimFloat.ltb x 0%float) (v <? 0) &&
  Bool.eqb (PrimFloat.eqb x 0%float) (v =? 0).

(** [f] holds of the [k] integers from [v] on. *)
Fixpoint holds_from (k : nat) (v : Z) (f : Z -> bool) : bool :=
  match k with
  | O => true
  | S k' => f v && holds_from k' (v + 1) f
  end.

End pcm16_spec.

(** ** Scripted sampler and vocabulary *)

Module scripted_sampler.

(** A sampler that draws the tokens 0, 1, 2, ... in turn and takes no
    note of what is accepted. *)
Definition counting (script : list Z) (piece : Z -> Z * list byte)
  : @llama_session.llama_sampling_h (scripted.llama script piece) := {|
  llama_session.sampler_state := Z;
  llama_session.llama_sampler_sample k _ _ _ := (k, k + 1);
  llama_session.llama_sampler_accept k _ _ := k
|}.

(** A vocabulary whose token 1 is [Hi] and whose other tokens have no
    piece. *)
Definition hi_piece (tok : Z) : Z * list byte :=
  if tok =? 1 then (2, [Byte.x48; Byte.x69]) else (-1, []).

(** The globals with a model of that vocabulary loaded. *)
Definition loaded_hi : @llama_jni.globals (scripted.llama [] hi_piece) :=
  llama_jni.mk_globals (H := scripted.llama [] hi_piece)
    (Some "model.gguf"%string) (Some (scripted.mk_context 2048 512 [])) None 0.

(** An environment in which an exception is pending after the
    constructor of the string. *)
Definition exception_env : llama_jni.JNIEnv :=
  {| llama_jni.NewByteArray_ok := true;
     llama_jni.FindClass_StandardCharsets_ok := true;
     llama_jni.GetStaticFieldID_UTF_8_ok := true;
     llama_jni.GetStaticObjectField_UTF_8_ok := true;
     llama_jni.FindClass_String_ok := true;
     llama_jni.GetMethodID_String_init_ok := true;
     llama_jni.NewObject_String_ok := true;
     llama_jni.ExceptionCheck_pending := true |}.

End scripted_sampler.
(** * Properties *)

(** ** 32-bit integers and arrays *)

(** Linear arithmetic with the bounds of [int32_t] in view. *)
Ltac int32_lia := unfold in_int32, INT32_MIN, INT32_MAX in *; lia.

Lemma wrap32_id z : in_int32 z -> wrap32 z = z.
Proof.
  unfold in_int32, wrap32, INT32_MIN, INT32_MAX. intros Hz.
  rewrite Z.mod_small; lia.
Qed.

Lemma wrap32_in_int32 z : in_int32 (wrap32 z).
Proof.
  unfold in_int32, wrap32, INT32_MIN, INT32_MAX.
  pose proof (Z.mod_pos_bound (z + 2 ^ 31) (2 ^ 32)). lia.
Qed.

Lemma add32_id a b : in_int32 (a + b) -> add32 a b = a + b.
Proof. apply wrap32_id. Qed.

Lemma sub32_id a b : in_int32 (a - b) -> sub32 a b = a - b.
Proof. apply wrap32_id. Qed.

Lemma array_get_lookup (a : list Z) (i : nat) (x : Z) :
  a !! i = Some x -> array_get a (Z.of_nat i) = x.
Proof.
  intros Hx. unfold array_get.
  destruct (Z.ltb_spec (Z.of_nat i) 0) as [?|_]; [lia|].
  by rewrite Nat2Z.id, Hx.
Qed.

Section write_loops.
Context {A : Type}.

(** A loop [for (i = 0; i < n; i++) a[i] = g i a[i]] over an array of [N]
    slots that all hold [d]. *)
Lemma fold_write_seq (g : Z -> option A -> A) (d : A) (N n : nat) :
  (n <= N)%nat ->
  fold_left (fun a i => <[Z.to_nat i := g i (a !! Z.to_nat i)]> a)
    (seqZ 0 (Z.of_nat n)) (replicate N d)
  = ((fun i => g i (Some d)) <$> seqZ 0 (Z.of_nat n)) ++ replicate (N - n) d.
Proof.
  induction n as [|n IH]; intros Hn.
  - simpl. by rewrite Nat.sub_0_r.
  - rewrite seqZ_S.
    rewrite fold_left_app, IH by lia. simpl.
    rewrite Z.add_0_l, Nat2Z.id.
    set (pre := (fun i => g i (Some d)) <$> seqZ 0 (Z.of_nat n)).
    assert (Hpre : length pre = n).
    { unfold pre. rewrite length_fmap, length_seqZ. lia. }
    replace (N - n)%nat with (S (N - S n)) by lia. simpl.
    rewrite lookup_app_r, Hpre, Nat.sub_diag by lia. simpl.
    rewrite fmap_app. simpl. rewrite <- (assoc_L (++)). simpl.
    replace n with (length pre + 0)%nat at 1 by lia.
    by rewrite insert_app_r.
Qed.

Lemma fold_write_all (g : Z -> option A -> A) (d : A) (n : Z) :
  fold_left (fun a i => <[Z.to_nat i := g i (a !! Z.to_nat i)]> a)
    (seqZ 0 n) (replicate (Z.to_nat n) d)
  = (fun i => g i (Some d)) <$> seqZ 0 n.
Proof.
  destruct (Z.le_gt_cases 0 n) as [Hn|Hn].
  - rewrite <- (Z2Nat.id n) at 1 3 by done.
    rewrite fold_write_seq by done.
    by rewrite Nat.sub_diag, app_nil_r.
  - rewrite !seqZ_nil by lia. simpl.
    by replace (Z.to_nat n) with 0%nat by lia.
Qed.

End write_loops.

Section batch_facts.
Import llama_jni.
Context `{llama_h}.

Lemma fold_fill_slot tokens g_n_past offset s (idx : list Z) (b : llama_batch) :
  fold_left (fill_slot tokens g_n_past offset s) idx b
  = mk_llama_batch (n_tokens b)
      (fold_left (fun a i => <[Z.to_nat i := (fun i _ => array_get tokens (add32 offset i)) i (a !! Z.to_nat i)]> a) idx (token b))
      (fold_left (fun a i => <[Z.to_nat i := (fun i _ => add32 g_n_past i) i (a !! Z.to_nat i)]> a) idx (pos b))
      (fold_left (fun a i => <[Z.to_nat i := (fun _ _ => 1) i (a !! Z.to_nat i)]> a) idx (n_seq_id b))
      (fold_left (fun a i => <[Z.to_nat i := (fun _ o => <[0%nat := s]> (default [] o)) i (a !! Z.to_nat i)]> a) idx (seq_id b))
      (fold_left (fun a i => <[Z.to_nat i := (fun _ _ => 0) i (a !! Z.to_nat i)]> a) idx (logits b)).
Proof.
  revert b. induction idx as [|i idx IH]; intros b; simpl.
  - by destruct b.
  - by rewrite IH.
Qed.

Lemma fmap_const_seqZ {A} (x : A) (m n : Z) :
  (fun _ => x) <$> seqZ m n = replicate (Z.to_nat n) x.
Proof.
  apply list_eq. intros i.
  rewrite list_lookup_fmap.
  destruct (decide (Z.of_nat i < n)) as [Hi|Hi].
  - rewrite lookup_seqZ_lt by done. simpl.
    symmetry. apply lookup_replicate_2. lia.
  - rewrite lookup_seqZ_ge by lia. simpl.
    symmetry. apply lookup_replicate_None. lia.
Qed.

Lemma fmap_array_get_seqZ (tokens : list Z) (offset n : Z) :
  0 <= offset -> 0 <= n -> offset + n <= Z.of_nat (length tokens) ->
  (fun i => array_get tokens (offset + i)) <$> seqZ 0 n
  = take (Z.to_nat n) (drop (Z.to_nat offset) tokens).
Proof.
  intros Ho Hn Hlen. apply list_eq. intros i.
  rewrite list_lookup_fmap.
  destruct (decide (Z.of_nat i < n)) as [Hi|Hi].
  - rewrite lookup_seqZ_lt by done. simpl.
    rewrite lookup_take_lt, lookup_drop by lia.
    destruct (lookup_lt_is_Some_2 tokens (Z.to_nat offset + i)) as [x Hx]; [lia|].
    rewrite Hx. f_equal.
    replace (offset + (0 + Z.of_nat i)) with (Z.of_nat (Z.to_nat offset + i)) by lia.
    by apply array_get_lookup.
  - rewrite lookup_seqZ_ge by lia. simpl.
    symmetry. apply lookup_take_ge. lia.
Qed.


(** The batch of a chunk, field by field; only the positions depend on
    [g_n_past]. *)
Lemma build_batch_eq (tokens : list Z) (g_n_past offset n_eval : Z) :
  0 <= offset -> 0 < n_eval ->
  offset + n_eval <= Z.of_nat (length tokens) ->
  Z.of_nat (length tokens) <= INT32_MAX ->
  build_batch tokens (Z.of_nat (length tokens)) g_n_past offset n_eval
  = mk_llama_batch n_eval
      (take (Z.to_nat n_eval) (drop (Z.to_nat offset) tokens))
      ((fun i => add32 g_n_past i) <$> seqZ 0 n_eval)
      (replicate (Z.to_nat n_eval) 1)
      (replicate (Z.to_nat n_eval) [0])
      (if offset + n_eval =? Z.of_nat (length tokens)
       then replicate (Z.to_nat n_eval - 1) 0 ++ [1]
       else replicate (Z.to_nat n_eval) 0).
Proof.
  intros Ho Hn Hlen Hmax.
  unfold build_batch.
  rewrite fold_fill_slot. unfold llama_batch_init, set_n_tokens. simpl.
  rewrite (fold_write_all (fun i _ => array_get tokens (add32 offset i))).
  rewrite (fold_write_all (fun i _ => add32 g_n_past i)).
  rewrite (fold_write_all (fun _ _ => 1)).
  rewrite (fold_write_all (fun _ o => <[0%nat := 0]> (default [] o))).
  rewrite (fold_write_all (fun _ _ => 0)).
  rewrite add32_id by int32_lia.
  rewrite sub32_id by int32_lia.
  assert (Htok : (fun i => array_get tokens (add32 offset i)) <$> seqZ 0 n_eval
                 = take (Z.to_nat n_eval) (drop (Z.to_nat offset) tokens)).
  { rewrite <- fmap_array_get_seqZ by lia.
    apply list_fmap_ext. intros i x [-> Hi]%lookup_seqZ.
    rewrite add32_id; [done|]. int32_lia. }
  rewrite Htok, !fmap_const_seqZ.
  change (<[0%nat:=0]> (default [] (Some (replicate (Z.to_nat 1) 0)))) with [0].
  destruct (Z.eqb_spec (offset + n_eval) (Z.of_nat (length tokens))) as [Heq|Hne];
    [|done].
  unfold set_logits. simpl. f_equal.
  replace (Z.to_nat n_eval) with (S (Z.to_nat n_eval - 1)) at 1 by lia.
  rewrite replicate_S_end.
  rewrite insert_app_r_alt by (rewrite length_replicate; lia).
  rewrite length_replicate.
  by replace (Z.to_nat (n_eval - 1) - (Z.to_nat n_eval - 1))%nat with 0%nat by lia.
Qed.

Lemma fmap_add32_seqZ (g_n_past n_eval : Z) :
  in_int32 g_n_past -> g_n_past + n_eval <= INT32_MAX ->
  (fun i => add32 g_n_past i) <$> seqZ 0 n_eval = seqZ g_n_past n_eval.
Proof.
  intros Hp Hpn.
  replace (seqZ g_n_past n_eval) with (seqZ (g_n_past + 0) n_eval) by (f_equal; lia).
  rewrite <- fmap_add_seqZ.
  apply list_fmap_ext. intros i x [-> Hi]%lookup_seqZ.
  rewrite add32_id; [done|]. int32_lia.
Qed.

End batch_facts.

Section decode_loop_facts.
Import llama_jni decode_spec.
Context `{llama_h}.
Variable tokens : list llama_token.
Variable B : Z.
Hypothesis B_pos : 0 < B.
Hypothesis tokens_jsize : Z.of_nat (length tokens) <= INT32_MAX.

Local Abbreviation n := (Z.of_nat (length tokens)).
Local Abbreviation chunk_len off := (Z.min B (n - off)).

(** The batch of the code against the chunk of the specification. *)
Lemma build_batch_spec_chunk (P off : Z) :
  0 <= off < n -> in_int32 P -> P + (n - off) <= INT32_MAX ->
  build_batch tokens n P off (chunk_len off) = spec_chunk tokens B P off.
Proof.
  intros Ho HP HPn. unfold spec_chunk.
  rewrite build_batch_eq by lia.
  by rewrite fmap_add32_seqZ by (done || lia).
Qed.

Lemma build_batch_logits (P off : Z) :
  0 <= off < n ->
  logits (build_batch tokens n P off (chunk_len off))
  = if off + chunk_len off =? n
    then replicate (Z.to_nat (chunk_len off) - 1) 0 ++ [1]
    else replicate (Z.to_nat (chunk_len off)) 0.
Proof. intros Ho. by rewrite build_batch_eq by lia. Qed.

Lemma build_batch_n_tokens (P off : Z) :
  0 <= off < n -> n_tokens (build_batch tokens n P off (chunk_len off)) = chunk_len off.
Proof. intros Ho. by rewrite build_batch_eq by lia. Qed.

(** One round of the loop, the arithmetic on [offset] without
    wrap-around. *)
Lemma decode_loop_unfold (fuel : nat) (ctx : llama_context) (P off : Z) :
  0 <= off < n ->
  decode_loop (S fuel) tokens n B ctx P off
  = let batch := build_batch tokens n P off (chunk_len off) in
    let '(ctx', res) := llama_decode ctx batch in
    if negb (res =? 0) then Some (res, ctx', P, [(batch, res)])
    else
      match decode_loop fuel tokens n B ctx' (add32 P (chunk_len off))
              (off + chunk_len off) with
      | Some (r, c, p, evs) => Some (r, c, p, (batch, res) :: evs)
      | None => None
      end.
Proof.
  intros Ho.
  cbn [decode_loop].
  destruct (Z.ltb_spec off n) as [_|?]; [|lia].
  rewrite sub32_id by int32_lia.
  rewrite (add32_id off) by int32_lia.
  done.
Qed.

Lemma decode_loop_done (fuel : nat) (ctx : llama_context) (P off : Z) :
  n <= off -> decode_loop fuel tokens n B ctx P off = Some (0, ctx, P, []).
Proof.
  intros Ho. destruct fuel; cbn [decode_loop];
    by destruct (Z.ltb_spec off n) as [?|_]; [lia|].
Qed.

(** The loop is left within [n - off] rounds. *)
Lemma decode_loop_total (fuel : nat) (ctx : llama_context) (P off : Z) :
  0 <= off <= n -> n - off <= Z.of_nat fuel ->
  is_Some (decode_loop fuel tokens n B ctx P off).
Proof.
  revert ctx P off. induction fuel as [|fuel IH]; intros ctx P off Ho Hfuel.
  - rewrite decode_loop_done by lia. done.
  - destruct (decide (off < n)) as [Hlt|Hge].
    + rewrite decode_loop_unfold by lia. cbn zeta.
      destruct (llama_decode ctx _) as [ctx' res].
      destruct (negb (res =? 0)); [done|].
      destruct (IH ctx' (add32 P (chunk_len off)) (off + chunk_len off))
        as [[[[r c] p] evs] ->]; [lia | lia |].
      done.
    + rewrite decode_loop_done by lia. done.
Qed.

(** Induction over the rounds of a run of the loop: a run is over at
    once, or its first chunk fails, or its first chunk is evaluated and
    a run from the next offset follows. *)
Lemma decode_loop_run_ind (Q : Z -> Z -> Z -> Z -> list (llama_batch * Z) -> Prop) :
  (forall P, Q P n 0 P []) ->
  (forall P off r,
      0 <= off < n -> r <> 0 ->
      Q P off r P [(build_batch tokens n P off (chunk_len off), r)]) ->
  (forall P off res P' evs,
      0 <= off < n ->
      Q (add32 P (chunk_len off)) (off + chunk_len off) res P' evs ->
      Q P off res P' ((build_batch tokens n P off (chunk_len off), 0) :: evs)) ->
  forall fuel ctx P off res ctx' P' evs,
    0 <= off <= n ->
    decode_loop fuel tokens n B ctx P off = Some (res, ctx', P', evs) ->
    Q P off res P' evs.
Proof.
  intros Hdone Hfail Hnext fuel.
  induction fuel as [|fuel IH]; intros ctx P off res ctx' P' evs Ho Hrun.
  - destruct (decide (off < n)) as [Hlt|Hge].
    + cbn [decode_loop] in Hrun.
      destruct (Z.ltb_spec off n) as [_|?]; [done|lia].
    + rewrite decode_loop_done in Hrun by lia.
      simplify_eq. replace off with n by lia. apply Hdone.
  - destruct (decide (off < n)) as [Hlt|Hge].
    + rewrite decode_loop_unfold in Hrun by lia. cbn zeta in Hrun.
      destruct (llama_decode ctx _) as [c1 r1].
      destruct (Z.eqb_spec r1 0) as [Hr1|Hr1]; cbn [negb] in Hrun; [subst r1|].
      * destruct (decode_loop fuel _ _ _ _ _ _) as [[[[r c] p] evs']|] eqn:Hrec;
          [|done].
        simplify_eq.
        apply Hnext; [lia|].
        eapply IH; [|exact Hrec]. lia.
      * simplify_eq. apply Hfail; (done || lia).
    + rewrite decode_loop_done in Hrun by lia.
      simplify_eq. replace off with n by lia. apply Hdone.
Qed.

Lemma ceil_div_0 : ceil_div 0 B = 0.
Proof. unfold ceil_div. apply Z.div_small. lia. Qed.

Lemma ceil_div_step (m : Z) : 0 < m -> ceil_div m B = 1 + ceil_div (m - Z.min B m) B.
Proof.
  intros Hm. unfold ceil_div.
  destruct (Z.min_spec B m) as [[Hlt ->]|[Hle ->]].
  - replace (m + B - 1) with (1 * B + (m - B + B - 1)) by lia.
    rewrite Z.div_add_l by lia. done.
  - replace (m - m + B - 1) with (B - 1) by lia.
    rewrite (Z.div_small (B - 1)) by lia.
    replace (m + B - 1) with (1 * B + (m - 1)) by lia.
    rewrite Z.div_add_l by lia. rewrite Z.div_small by lia. done.
Qed.

Lemma ceil_div_pos (m : Z) : 0 < m -> 0 < ceil_div m B.
Proof.
  intros Hm. unfold ceil_div.
  apply Z.div_str_pos. lia.
Qed.

Lemma ceil_div_1 (m : Z) : 0 < m -> (ceil_div m B = 1 <-> m <= B).
Proof.
  intros Hm. rewrite ceil_div_step by done.
  destruct (Z.min_spec B m) as [[Hlt ->]|[Hle ->]].
  - pose proof (ceil_div_pos (m - B)). lia.
  - rewrite Z.sub_diag, ceil_div_0. lia.
Qed.

(** A run in which every chunk is evaluated with status 0. *)
Lemma decode_loop_success fuel ctx P off res ctx' P' evs :
  0 <= off <= n -> in_int32 P -> P + (n - off) <= INT32_MAX ->
  decode_loop fuel tokens n B ctx P off = Some (res, ctx', P', evs) ->
  Forall (fun ev => ev.2 = 0) evs ->
  res = 0 /\ P' = P + (n - off) /\
  Z.of_nat (length evs) = ceil_div (n - off) B /\
  concat ((fun ev => token ev.1) <$> evs) = drop (Z.to_nat off) tokens /\
  concat ((fun ev => pos ev.1) <$> evs) = seqZ P (n - off).
Proof.
  intros Ho HP HPn Hrun. revert HP HPn.
  pattern P, off, res, P', evs.
  eapply decode_loop_run_ind; [| | |exact Ho|exact Hrun]; clear - B_pos tokens_jsize.
  - intros P HP HPn _. rewrite Z.sub_diag, ceil_div_0, Nat2Z.id, drop_all.
    repeat split; (done || lia).
  - intros P off r Ho Hr HP HPn Hall.
    apply Forall_cons in Hall as [Hall _]. done.
  - intros P off res P' evs Ho IH HP HPn Hall.
    apply Forall_cons in Hall as [_ Hall].
    rewrite add32_id in IH by int32_lia.
    destruct IH as (-> & -> & Hlen & Htok & Hpos);
      [int32_lia | lia | done |].
    rewrite build_batch_spec_chunk by (done || lia).
    repeat split; [lia| | |].
    + rewrite (ceil_div_step (n - off)) by lia. cbn [length].
      replace (n - (off + chunk_len off)) with (n - off - chunk_len off) in Hlen by lia.
      lia.
    + cbn [fmap list_fmap concat spec_chunk token fst]. rewrite Htok.
      rewrite Z2Nat.inj_add by lia. rewrite <- drop_drop.
      apply take_drop.
    + cbn [fmap list_fmap concat spec_chunk pos fst]. rewrite Hpos.
      rewrite <- seqZ_app by lia. f_equal. lia.
Qed.

(** The chunks of a run, whatever their statuses: chunk [j] is the chunk
    of the specification at offset [off + j * B]. *)
Lemma decode_loop_chunks fuel ctx P off res ctx' P' evs :
  0 <= off <= n -> in_int32 P -> P + (n - off) <= INT32_MAX ->
  decode_loop fuel tokens n B ctx P off = Some (res, ctx', P', evs) ->
  forall (j : nat) b r,
    evs !! j = Some (b, r) ->
    off + Z.of_nat j * B < n /\
    b = spec_chunk tokens B (P + Z.of_nat j * B) (off + Z.of_nat j * B).
Proof.
  intros Ho HP HPn Hrun. revert HP HPn.
  pattern P, off, res, P', evs.
  eapply decode_loop_run_ind; [| | |exact Ho|exact Hrun]; clear - B_pos tokens_jsize.
  - intros P _ _ j b r Hj. done.
  - intros P off r Ho Hr HP HPn [|j] b r' Hj; [|done].
    injection Hj as <- <-. rewrite Z.mul_0_l, !Z.add_0_r.
    split; [lia|]. by apply build_batch_spec_chunk.
  - intros P off res P' evs Ho IH HP HPn [|j] b r' Hj.
    + injection Hj as <- <-. rewrite Z.mul_0_l, !Z.add_0_r.
      split; [lia|]. by apply build_batch_spec_chunk.
    + rewrite add32_id in IH by int32_lia.
      destruct (IH ltac:(int32_lia) ltac:(lia) j b r' Hj) as [Hlt ->].
      assert (Hfull : chunk_len off = B) by nia.
      rewrite Hfull in *.
      split; [lia|]. f_equal; lia.
Qed.

(** Statuses and the cache position of a run: a status other than 0
    ends the run and is its result, and [g_n_past] has advanced by the
    tokens of the chunks evaluated with status 0. *)
Lemma decode_loop_status fuel ctx P off res ctx' P' evs :
  0 <= off <= n -> in_int32 P -> P + (n - off) <= INT32_MAX ->
  decode_loop fuel tokens n B ctx P off = Some (res, ctx', P', evs) ->
  (forall (j : nat) b r, evs !! j = Some (b, r) -> r <> 0 ->
     res = r /\ length evs = S j /\ tokens_evaluated evs = Z.of_nat j * B) /\
  (evs <> [] -> off < n) /\
  P' = P + tokens_evaluated evs /\
  0 <= tokens_evaluated evs <= n - off.
Proof.
  intros Ho HP HPn Hrun. revert HP HPn.
  pattern P, off, res, P', evs.
  eapply decode_loop_run_ind; [| | |exact Ho|exact Hrun]; clear - B_pos tokens_jsize.
  - intros P _ _. cbn. repeat split; (done || lia).
  - intros P off r Ho Hr HP HPn. cbn.
    destruct (Z.eqb_spec r 0) as [?|_]; [done|].
    split; [|lia].
    intros [|j] b r' Hj Hr'; [|done].
    injection Hj as _ <-. repeat split; lia.
  - intros P off res P' evs Ho IH HP HPn.
    rewrite add32_id in IH by int32_lia.
    destruct IH as (Hfail & Hne & -> & Hbound); [int32_lia | lia |].
    cbn [tokens_evaluated foldr snd fst]. fold (tokens_evaluated evs).
    rewrite build_batch_n_tokens by lia. cbn [Z.eqb].
    split; [|lia].
    intros [|j] b r Hj Hr'; [by injection Hj as _ <-|].
    destruct (Hfail j b r Hj Hr') as (-> & Hlen & Hev).
    assert (evs <> []) as Hlt%Hne by (by destruct evs).
    cbn [length]. repeat split; lia.
Qed.

Lemma filter_nonzero_replicate (k : nat) :
  filter (fun v : Z => v <> 0) (replicate k 0) = [].
Proof.
  induction k as [|k IH]; [done|].
  change (replicate (S k) 0) with (0 :: replicate k 0).
  by rewrite filter_cons_False by lia.
Qed.

Lemma build_batch_logits_requested (P off : Z) :
  0 <= off < n ->
  logits_requested (build_batch tokens n P off (chunk_len off))
  = if off + chunk_len off =? n then 1%nat else 0%nat.
Proof.
  intros Ho. unfold logits_requested. rewrite build_batch_logits by done.
  destruct (off + chunk_len off =? n).
  - rewrite filter_app, filter_nonzero_replicate. done.
  - by rewrite filter_nonzero_replicate.
Qed.

Lemma build_batch_logits_lookup (P off : Z) (i : nat) (v : Z) :
  0 <= off < n ->
  logits (build_batch tokens n P off (chunk_len off)) !! i = Some v ->
  (v = 0 \/ v = 1) /\
  (v = 1 <-> off + chunk_len off = n /\ Z.of_nat i = chunk_len off - 1).
Proof.
  intros Ho. rewrite build_batch_logits by done.
  destruct (Z.eqb_spec (off + chunk_len off) n) as [Heq|Hne].
  - intros Hi.
    apply lookup_app_Some in Hi as [Hi|[Hlen Hi]].
    + apply lookup_replicate in Hi as [-> Hi]. split; [by left|]. lia.
    + rewrite length_replicate in Hlen, Hi.
      apply list_lookup_singleton_Some in Hi as [Hi <-].
      split; [by right|]. lia.
  - intros [-> Hi]%lookup_replicate. split; [by left|]. lia.
Qed.

(** How far a run gets and where it asks for logits. *)
Lemma decode_loop_logits fuel ctx P off res ctx' P' evs :
  0 <= off <= n ->
  decode_loop fuel tokens n B ctx P off = Some (res, ctx', P', evs) ->
  Z.of_nat (length evs) <= ceil_div (n - off) B /\
  (Z.of_nat (length evs) = ceil_div (n - off) B \/
   exists b r, last evs = Some (b, r) /\ r <> 0) /\
  total_logits_requested evs
  = (if decide (off < n /\ Z.of_nat (length evs) = ceil_div (n - off) B)
     then 1%nat else 0%nat) /\
  forall (j : nat) b r (i : nat) v,
    evs !! j = Some (b, r) -> logits b !! i = Some v ->
    (v = 0 \/ v = 1) /\
    (v = 1 <-> Z.of_nat j = ceil_div (n - off) B - 1 /\ Z.of_nat i = n_tokens b - 1).
Proof.
  intros Ho Hrun.
  pattern P, off, res, P', evs.
  eapply decode_loop_run_ind; [| | |exact Ho|exact Hrun]; clear - B_pos tokens_jsize.
  - intros P. rewrite Z.sub_diag, ceil_div_0.
    split; [done|]. split; [by left|].
    split; [by rewrite decide_False by lia|]. done.
  - intros P off r Ho Hr.
    pose proof (ceil_div_pos (n - off) ltac:(lia)) as Hpos.
    pose proof (ceil_div_1 (n - off) ltac:(lia)) as H1.
    split; [cbn; lia|]. split; [right; by eauto|]. split.
    + unfold total_logits_requested. cbn.
      rewrite build_batch_logits_requested by done.
      destruct (Z.eqb_spec (off + chunk_len off) n) as [Heq|Hne].
      * rewrite decide_True; [done|]. lia.
      * rewrite decide_False; [done|]. lia.
    + intros [|j] b r' i v Hj Hi; [|done]. injection Hj as <- <-.
      rewrite build_batch_n_tokens by done.
      apply build_batch_logits_lookup in Hi as [Hv Hi]; [|done].
      split; [done|]. rewrite Hi. lia.
  - intros P off res P' evs Ho (Hle & Hend & Htot & Hlook).
    pose proof (ceil_div_step (n - off) ltac:(lia)) as Hstep.
    replace (n - off - chunk_len off) with (n - (off + chunk_len off)) in Hstep by lia.
    pose proof (ceil_div_1 (n - off) ltac:(lia)) as H1.
    split; [cbn [length]; lia|]. split; [|split].
    + destruct Hend as [Hend|(b & r & Hlast & Hr)].
      * left. cbn [length]. lia.
      * right. exists b, r. split; [|done].
        destruct evs; [done|]. done.
    + unfold total_logits_requested in *. cbn [fmap list_fmap sum_list fst].
      rewrite build_batch_logits_requested, Htot by done.
      destruct (Z.eqb_spec (off + chunk_len off) n) as [Heq|Hne].
      * rewrite decide_False by lia.
        rewrite Heq, Z.sub_diag, ceil_div_0 in Hle, Hstep.
        rewrite decide_True; [done|]. cbn [length]. lia.
      * destruct (decide (off + chunk_len off < n /\ _)) as [[? ?]|Hn].
        -- rewrite decide_True; [done|]. cbn [length]. lia.
        -- rewrite decide_False; [done|]. cbn [length]. lia.
    + intros [|j] b r i v Hj Hi.
      * injection Hj as <- <-.
        rewrite build_batch_n_tokens by done.
        apply build_batch_logits_lookup in Hi as [Hv Hi]; [|done].
        split; [done|]. rewrite Hi. 
        pose proof (ceil_div_pos (n - (off + chunk_len off))). lia.
      * destruct (Hlook j b r i v Hj Hi) as [Hv Hiff].
        split; [done|]. rewrite Hiff. lia.
Qed.

End decode_loop_facts.

Section decode_properties.
Import llama_jni decode_spec.
Context `{llama_h}.

Lemma decode_run (fuel : nat) (st : globals) (ctx : llama_context)
    (tokens : list llama_token) :
  g_ctx st = Some ctx ->
  Java_com_microllm_app_LlamaNative_decode fuel st tokens
  = match decode_loop fuel tokens (Z.of_nat (length tokens))
            (wrap32 (llama_n_batch ctx)) ctx (g_n_past st) 0 with
    | Some (res, ctx', n_past', evs) =>
        Some (res, set_g_n_past (set_g_ctx st (Some ctx')) n_past', evs)
    | None => None
    end.
Proof.
  intros Hctx.
  unfold Java_com_microllm_app_LlamaNative_decode, decode_tokens_internal.
  by rewrite Hctx.
Qed.

(** C1.  With a context of batch width [B > 0] loaded, and [g_n_past + n]
    within [int32_t], decode of [n] tokens returns; and when every chunk
    it hands to the engine is evaluated with status 0, it returns 0, has
    handed over [ceil(n / B)] chunks, chunk [j] being the tokens from
    offset [j * B] on, at most [B] of them, at the cache positions
    [g_n_past + j * B + i], the chunks together are the sequence and
    their positions are [g_n_past, ..., g_n_past + n - 1], and
    [g_n_past] has advanced by [n]. *)
Theorem decode_chunks_and_cache_position
    (fuel : nat) (st : globals) (ctx : llama_context) (tokens : list llama_token) :
  let n := Z.of_nat (length tokens) in
  let B := wrap32 (llama_n_batch ctx) in
  g_ctx st = Some ctx ->
  0 < B ->
  n <= INT32_MAX ->
  in_int32 (g_n_past st) ->
  g_n_past st + n <= INT32_MAX ->
  n <= Z.of_nat fuel ->
  exists res st' evs,
    Java_com_microllm_app_LlamaNative_decode fuel st tokens = Some (res, st', evs) /\
    (Forall (fun ev => ev.2 = 0) evs ->
     res = 0 /\
     g_n_past st' = g_n_past st + n /\
     Z.of_nat (length evs) = ceil_div n B /\
     (forall (j : nat) b r,
         evs !! j = Some (b, r) ->
         b = spec_chunk tokens B (g_n_past st + Z.of_nat j * B) (Z.of_nat j * B)) /\
     Forall (fun ev => 0 < n_tokens ev.1 <= B) evs /\
     concat ((fun ev => token ev.1) <$> evs) = tokens /\
     concat ((fun ev => pos ev.1) <$> evs) = seqZ (g_n_past st) n).
Proof.
  cbv zeta. intros Hctx HB Hn HP HPn Hfuel.
  rewrite (decode_run _ _ _ _ Hctx).
  destruct (decode_loop_total tokens _ HB Hn fuel ctx (g_n_past st) 0)
    as [[[[res ctx'] P'] evs] Hrun]; [lia | lia |].
  rewrite Hrun. exists res, (set_g_n_past (set_g_ctx st (Some ctx')) P'), evs.
  split; [done|]. intros Hall.
  pose proof (decode_loop_chunks tokens _ HB Hn fuel ctx (g_n_past st) 0 res ctx' P' evs
                ltac:(lia) HP ltac:(lia) Hrun) as Hchunks.
  destruct (decode_loop_success tokens _ HB Hn fuel ctx (g_n_past st) 0 res ctx' P' evs
              ltac:(lia) HP ltac:(lia) Hrun Hall)
    as (-> & -> & Hlen & Htok & Hpos).
  rewrite Z.sub_0_r in *. cbn [g_n_past set_g_n_past].
  repeat split; try done.
  - intros j b r Hj. destruct (Hchunks j b r Hj) as [_ ->]. f_equal; lia.
  - apply Forall_lookup. intros j [b r] Hj.
    destruct (Hchunks j b r Hj) as [Hlt ->]. cbn. lia.
Qed.

(** C3.  Without a context decode returns -1 and changes nothing.  With
    one, of batch width [B > 0] and with [g_n_past + n] within
    [int32_t], [g_n_past] advances by the tokens of the chunks evaluated
    with status 0; and a chunk [j] that comes back with a status other
    than 0 is the last one handed over, its status is the result, the
    [j] chunks before it were evaluated with status 0, and [g_n_past]
    has advanced by their [j * B] tokens only. *)
Theorem decode_failure_status_and_cache_position
    (fuel : nat) (st : globals) (tokens : list llama_token) :
  (g_ctx st = None ->
   Java_com_microllm_app_LlamaNative_decode fuel st tokens = Some (-1, st, []) /\
   decode_tokens_internal fuel st tokens (Z.of_nat (length tokens)) = Some (-1, st, [])) /\
  (forall ctx : llama_context,
      let n := Z.of_nat (length tokens) in
      let B := wrap32 (llama_n_batch ctx) in
      g_ctx st = Some ctx ->
      0 < B ->
      n <= INT32_MAX ->
      in_int32 (g_n_past st) ->
      g_n_past st + n <= INT32_MAX ->
      n <= Z.of_nat fuel ->
      exists res st' evs,
        Java_com_microllm_app_LlamaNative_decode fuel st tokens = Some (res, st', evs) /\
        g_n_past st' = g_n_past st + tokens_evaluated evs /\
        forall (j : nat) b r,
          evs !! j = Some (b, r) -> r <> 0 ->
          res = r /\
          length evs = S j /\
          Forall (fun ev => ev.2 = 0) (take j evs) /\
          tokens_evaluated evs = Z.of_nat j * B /\
          g_n_past st' = g_n_past st + Z.of_nat j * B).
Proof.
  split.
  - intros Hctx.
    unfold Java_com_microllm_app_LlamaNative_decode, decode_tokens_internal.
    by rewrite Hctx.
  - cbv zeta. intros ctx Hctx HB Hn HP HPn Hfuel.
    rewrite (decode_run _ _ _ _ Hctx).
    destruct (decode_loop_total tokens _ HB Hn fuel ctx (g_n_past st) 0)
      as [[[[res ctx'] P'] evs] Hrun]; [lia | lia |].
    rewrite Hrun. exists res, (set_g_n_past (set_g_ctx st (Some ctx')) P'), evs.
    destruct (decode_loop_status tokens _ HB Hn fuel ctx (g_n_past st) 0 res ctx' P' evs
                ltac:(lia) HP ltac:(lia) Hrun)
      as (Hfail & _ & -> & _).
    cbn [g_n_past set_g_n_past].
    split; [done|]. split; [done|].
    intros j b r Hj Hr.
    destruct (Hfail j b r Hj Hr) as (-> & Hlen & Hev).
    repeat split; try (done || lia).
    apply Forall_lookup. intros i [b' r'] Hi.
    apply lookup_take_Some in Hi as [Hi Hlt].
    destruct (decide (r' = 0)) as [?|Hr']; [done|].
    destruct (Hfail i b' r' Hi Hr') as (_ & Hlen' & _). lia.
Qed.

(** C2, as the code has it.  With a context of batch width [B] loaded,
    decode of a sequence that is not empty sets the logits flag of no
    position but the last token of the final chunk (chunk
    [ceil(n / B) - 1]): one position when the final chunk is handed to
    the engine, which is so when no chunk before it comes back with a
    status other than 0, and none when the call ended before. *)
Theorem decode_logits_last_token_of_final_chunk
    (fuel : nat) (st : globals) (ctx : llama_context) (tokens : list llama_token) :
  let n := Z.of_nat (length tokens) in
  let B := wrap32 (llama_n_batch ctx) in
  g_ctx st = Some ctx ->
  0 < B ->
  tokens <> [] ->
  n <= INT32_MAX ->
  n <= Z.of_nat fuel ->
  exists res st' evs,
    Java_com_microllm_app_LlamaNative_decode fuel st tokens = Some (res, st', evs) /\
    (forall (j : nat) b r (i : nat) v,
        evs !! j = Some (b, r) -> logits b !! i = Some v ->
        (v = 0 \/ v = 1) /\
        (v = 1 <-> Z.of_nat j = ceil_div n B - 1 /\ Z.of_nat i = n_tokens b - 1)) /\
    total_logits_requested evs
    = (if decide (Z.of_nat (length evs) = ceil_div n B) then 1%nat else 0%nat) /\
    ((forall (j : nat) b r,
         evs !! j = Some (b, r) -> Z.of_nat j < ceil_div n B - 1 -> r = 0) ->
     total_logits_requested evs = 1%nat).
Proof.
  cbv zeta. intros Hctx HB Hne Hn Hfuel.
  assert (0 < Z.of_nat (length tokens)) by (destruct tokens; [done|]; cbn [length]; lia).
  rewrite (decode_run _ _ _ _ Hctx).
  destruct (decode_loop_total tokens _ HB Hn fuel ctx (g_n_past st) 0)
    as [[[[res ctx'] P'] evs] Hrun]; [lia | lia |].
  rewrite Hrun. exists res, (set_g_n_past (set_g_ctx st (Some ctx')) P'), evs.
  destruct (decode_loop_logits tokens _ HB Hn fuel ctx (g_n_past st) 0 res ctx' P' evs ltac:(lia) Hrun)
    as (Hle & Hend & Htot & Hlook).
  rewrite Z.sub_0_r in *.
  set (n := Z.of_nat (length tokens)) in *.
  set (B := wrap32 (llama_n_batch ctx)) in *.
  assert (Htot' : total_logits_requested evs
                  = if decide (Z.of_nat (length evs) = ceil_div n B) then 1%nat else 0%nat).
  { rewrite Htot. destruct (decide (Z.of_nat (length evs) = ceil_div n B)).
    - by rewrite decide_True.
    - rewrite decide_False; [done|]. tauto. }
  split; [done|]. split; [done|]. split; [done|].
  intros Hzero. rewrite Htot'.
  rewrite decide_True; [done|].
  destruct Hend as [Hend|(b & r & Hlast & Hr)]; [done|].
  rewrite last_lookup in Hlast.
  destruct (decide (Z.of_nat (Nat.pred (length evs)) < ceil_div n B - 1)) as [Hlt|Hge].
  - by specialize (Hzero _ _ _ Hlast Hlt).
  - apply lookup_lt_Some in Hlast. lia.
Qed.

End decode_properties.

(** Five tokens in chunks of two from cache position 10: three chunks,
    all evaluated, and the cache position is 15. *)
Lemma decode_chunks_witness :
  exists st' evs,
    llama_jni.Java_com_microllm_app_LlamaNative_decode 5 (scripted.loaded 2 [] 10)
      [11; 12; 13; 14; 15] = Some (0, st', evs) /\
    llama_jni.g_n_past st' = 15 /\
    length evs = 3%nat /\
    concat ((fun ev => llama_jni.pos ev.1) <$> evs) = [10; 11; 12; 13; 14].
Proof.
  destruct (decode_chunks_and_cache_position 5 (scripted.loaded 2 [] 10)
              (scripted.mk_context 2048 2 []) [11; 12; 13; 14; 15])
    as (res & st' & evs & Hrun & Hok).
  - reflexivity.
  - reflexivity.
  - vm_compute. discriminate.
  - split; vm_compute; discriminate.
  - vm_compute. discriminate.
  - vm_compute. discriminate.
  - assert (Hall : Forall (fun ev => ev.2 = 0) evs).
    { vm_compute in Hrun. injection Hrun as _ _ <-. repeat constructor. }
    destruct (Hok Hall) as (-> & Hp & Hlen & _ & _ & _ & Hpos).
    exists st', evs. split; [exact Hrun|]. split; [exact Hp|].
    split; [|exact Hpos].
    apply Nat2Z.inj. exact Hlen.
Defined.

(** loadModel, then decode of 513 tokens, the first chunk (of 512)
    coming back with status 1: the call ends there with 1, and no
    position of a chunk handed to the engine had its logits flag set. *)
Lemma decode_logits_counterexample :
  exists st st' evs,
    llama_jni.Java_com_microllm_app_LlamaNative_loadModel
      (H := scripted.llama [1] scripted.no_piece)
      llama_jni.initial_globals "model.gguf" 2048 4 = (true, st, []) /\
    llama_jni.Java_com_microllm_app_LlamaNative_decode 513 st (replicate 513 7)
    = Some (1, st', evs) /\
    length evs = 1%nat /\
    decode_spec.total_logits_requested evs = 0%nat.
Proof. eexists _, _, _. repeat split; vm_compute; reflexivity. Qed.

(** Three tokens in chunks of two, all evaluated: one flag. *)
Lemma decode_logits_witness :
  exists res st' evs,
    llama_jni.Java_com_microllm_app_LlamaNative_decode 3 (scripted.loaded 2 [] 0)
      [11; 12; 13] = Some (res, st', evs) /\
    decode_spec.total_logits_requested evs = 1%nat.
Proof.
  destruct (decode_logits_last_token_of_final_chunk 3 (scripted.loaded 2 [] 0)
              (scripted.mk_context 2048 2 []) [11; 12; 13])
    as (res & st' & evs & Hrun & _ & _ & Hone).
  - reflexivity.
  - reflexivity.
  - discriminate.
  - vm_compute. discriminate.
  - vm_compute. discriminate.
  - exists res, st', evs. split; [exact Hrun|].
    apply Hone. intros j b r Hj _.
    vm_compute in Hrun. injection Hrun as _ _ <-.
    destruct j as [|[|[|j]]]; simpl in Hj; congruence.
Defined.

(** Without a context: -1.  Five tokens in chunks of two from cache
    position 10, the second chunk coming back with status 7: the result
    is 7 and the cache position is 12. *)
Lemma decode_failure_witness :
  llama_jni.Java_com_microllm_app_LlamaNative_decode (H := scripted.llama [] scripted.no_piece)
    5 llama_jni.initial_globals [11] = Some (-1, llama_jni.initial_globals, []) /\
  exists st' evs,
    llama_jni.Java_com_microllm_app_LlamaNative_decode 5 (scripted.loaded 2 [0; 7] 10)
      [11; 12; 13; 14; 15] = Some (7, st', evs) /\
    llama_jni.g_n_past st' = 12 /\
    length evs = 2%nat.
Proof.
  split.
  - apply (decode_failure_status_and_cache_position (H := scripted.llama [] scripted.no_piece)
             5 llama_jni.initial_globals [11]).
    reflexivity.
  - destruct (decode_failure_status_and_cache_position 5 (scripted.loaded 2 [0; 7] 10)
                [11; 12; 13; 14; 15]) as [_ Hloaded].
    destruct (Hloaded (scripted.mk_context 2048 2 [0; 7]))
      as (res & st' & evs & Hrun & _ & Hfail).
    + reflexivity.
    + reflexivity.
    + vm_compute. discriminate.
    + split; vm_compute; discriminate.
    + vm_compute. discriminate.
    + vm_compute. discriminate.
    + assert (Hev : exists b, evs !! 1%nat = Some (b, 7)).
      { vm_compute in Hrun. injection Hrun as _ _ <-. eexists. reflexivity. }
      destruct Hev as [b Hb].
      destruct (Hfail 1%nat b 7 Hb ltac:(discriminate)) as (-> & Hlen & _ & _ & Hp).
      exists st', evs. split; [exact Hrun|]. split; [exact Hp|exact Hlen].
Defined.

Section lifecycle_properties.
Import llama_jni lifecycle_spec.
Context `{llama_h}.

(** What the globals look like when nothing is loaded. *)
Lemma free_sampler_spec (st : globals) :
  free_sampler st
  = (set_g_sampler st None,
     match g_sampler st with Some smpl => [llama_sampler_free smpl] | None => [] end).
Proof. unfold free_sampler. destruct st as [m c [s|] p]; reflexivity. Qed.

Lemma free_ctx_spec (st : globals) :
  free_ctx st
  = (set_g_ctx st None,
     match g_ctx st with Some ctx => [llama_free ctx] | None => [] end).
Proof. unfold free_ctx. destruct st as [m [c|] s p]; reflexivity. Qed.

(** C6.  When loadModel returns success, the model is the one loaded
    from the path with the CPU-only parameters, the context is the one
    made for it with batch widths of 512, the sampler is the default
    chain top-k(40), top-p(0.9, 1), temperature(0.7), draw(42), in that
    order, and the cache position is 0: all three handles are there. *)
Theorem loadModel_success_state
    (st : globals) (modelPath : string) (contextSize threads : Z)
    (st' : globals) (frees : list free_call) :
  Java_com_microllm_app_LlamaNative_loadModel st modelPath contextSize threads
  = (true, st', frees) ->
  g_n_past st' = 0 /\
  g_sampler st'
  = Some [llama_sampler_init_top_k 40; llama_sampler_init_top_p f_0_9 1;
          llama_sampler_init_temp f_0_7; llama_sampler_init_dist 42] /\
  (exists model ctx,
      llama_model_load_from_file modelPath
        {| n_gpu_layers := 0; use_mmap := true; use_mlock := false |} = Some model /\
      llama_init_from_model model
        {| n_ctx := to_uint32 contextSize; n_batch := 512; n_ubatch := 512;
           n_threads := threads; n_threads_batch := threads;
           flash_attn_type := LLAMA_FLASH_ATTN_TYPE_DISABLED |} = Some ctx /\
      g_model st' = Some model /\ g_ctx st' = Some ctx) /\
  Java_com_microllm_app_LlamaNative_isLoaded st' = true.
Proof.
  unfold Java_com_microllm_app_LlamaNative_loadModel.
  destruct (g_model st) as [old|];
    rewrite ?free_sampler_spec, ?free_ctx_spec; cbn -[to_uint32];
    (destruct (llama_model_load_from_file _ _) as [model|] eqn:Hload; cbn -[to_uint32];
     [destruct (llama_init_from_model _ _) as [ctx|] eqn:Hinit; cbn -[to_uint32]|]);
    intros Heq; simplify_eq; cbn;
    (split; [done|]; split; [done|]; split; [|done]);
    by exists model, ctx.
Qed.

(** C7.  resetSampler leaves a chain that is there, made of top-k iff
    [topK > 0], then top-p iff [topP < 1.0], then temperature and draw
    with seed 42 if [temperature > 0] and greedy otherwise; the model,
    the context and the cache position are as before, and the chain
    that was there before is the one handle released. *)
Theorem resetSampler_chain
    (st : globals) (temperature topP : float) (topK : Z) :
  let '(st', frees) :=
    Java_com_microllm_app_LlamaNative_resetSampler st temperature topP topK in
  g_sampler st'
  = Some ((if 0 <? topK then [llama_sampler_init_top_k topK] else []) ++
          (if PrimFloat.ltb topP f_1_0 then [llama_sampler_init_top_p topP 1] else []) ++
          (if PrimFloat.ltb f_0 temperature
           then [llama_sampler_init_temp temperature; llama_sampler_init_dist 42]
           else [llama_sampler_init_greedy])) /\
  g_ctx st' = g_ctx st /\
  g_n_past st' = g_n_past st /\
  g_model st' = g_model st /\
  frees = match g_sampler st with Some smpl => [llama_sampler_free smpl] | None => [] end.
Proof.
  unfold Java_com_microllm_app_LlamaNative_resetSampler,
    llama_sampler_chain_add, llama_sampler_chain_init.
  cbn [g_sampler g_ctx g_n_past g_model set_g_sampler].
  repeat split.
  by destruct (0 <? topK), (PrimFloat.ltb topP f_1_0), (PrimFloat.ltb f_0 temperature).
Qed.

(** resetSampler(0, 1.0, 0): greedy alone.  resetSampler(0.75, 1.0, 0):
    temperature and draw, no filter.  resetSampler(0.75, 0.5, 50): all
    four stages.  A temperature or a top-p that is not a number compares
    false: greedy, and no top-p stage. *)
Example resetSampler_examples :
  g_sampler (Java_com_microllm_app_LlamaNative_resetSampler initial_globals 0 1 0).1
  = Some [llama_sampler_init_greedy] /\
  g_sampler (Java_com_microllm_app_LlamaNative_resetSampler initial_globals 0.75 1 0).1
  = Some [llama_sampler_init_temp 0.75; llama_sampler_init_dist 42] /\
  g_sampler (Java_com_microllm_app_LlamaNative_resetSampler initial_globals 0.75 0.5 50).1
  = Some [llama_sampler_init_top_k 50; llama_sampler_init_top_p 0.5 1;
          llama_sampler_init_temp 0.75; llama_sampler_init_dist 42] /\
  g_sampler
    (Java_com_microllm_app_LlamaNative_resetSampler initial_globals PrimFloat.nan
       PrimFloat.nan (-1)).1
  = Some [llama_sampler_init_greedy].
Proof. repeat split; vm_compute; reflexivity. Qed.

(** [no_model_no_state] holds of the initial globals and is kept by
    every entry point that changes the globals, resetSampler apart,
    which keeps it while a model is loaded. *)
Lemma no_model_no_state_initial : no_model_no_state initial_globals.
Proof. done. Qed.

Lemma no_model_no_state_loadModel (st : globals) modelPath contextSize threads :
  no_model_no_state st ->
  no_model_no_state
    (Java_com_microllm_app_LlamaNative_loadModel st modelPath contextSize threads).1.2.
Proof.
  unfold no_model_no_state, Java_com_microllm_app_LlamaNative_loadModel.
  destruct st as [[old|] c s p]; cbn [g_model];
    rewrite ?free_sampler_spec, ?free_ctx_spec; cbn -[to_uint32];
    (destruct (llama_model_load_from_file _ _) as [model|]; cbn -[to_uint32];
     [destruct (llama_init_from_model _ _) as [ctx|]; cbn -[to_uint32]|]);
    intros Hinv; try done; intros _; by destruct Hinv as (? & ? & ?).
Qed.

Lemma no_model_no_state_unloadModel (st : globals) :
  no_model_no_state (Java_com_microllm_app_LlamaNative_unloadModel st).1.
Proof.
  unfold no_model_no_state, Java_com_microllm_app_LlamaNative_unloadModel.
  rewrite free_sampler_spec. cbn. rewrite free_ctx_spec. cbn.
  by destruct (g_model st).
Qed.

Lemma no_model_no_state_clearContext (st : globals) :
  no_model_no_state st ->
  no_model_no_state (Java_com_microllm_app_LlamaNative_clearContext st).
Proof.
  unfold no_model_no_state, Java_com_microllm_app_LlamaNative_clearContext.
  destruct st as [m [c|] s p]; cbn.
  - destruct (llama_memory_clear c); cbn; intros Hinv Hm; by destruct (Hinv Hm).
  - intros Hinv Hm. destruct (Hinv Hm) as (? & ? & ?). done.
Qed.

Lemma no_model_no_state_decode (st : globals) fuel tokens res st' evs :
  no_model_no_state st ->
  Java_com_microllm_app_LlamaNative_decode fuel st tokens = Some (res, st', evs) ->
  no_model_no_state st'.
Proof.
  unfold no_model_no_state, Java_com_microllm_app_LlamaNative_decode,
    decode_tokens_internal.
  destruct st as [m [c|] s p]; cbn [g_ctx g_model g_n_past].
  - destruct (decode_loop _ _ _ _ _ _ _) as [[[[r c'] p'] e]|]; [|done].
    intros Hinv [= <- <- <-] Hm. cbn in Hm. by destruct (Hinv Hm).
  - intros Hinv [= <- <- <-] Hm. by apply Hinv.
Qed.

Lemma no_model_no_state_resetSampler (st : globals) temperature topP topK :
  g_model st <> None ->
  no_model_no_state
    (Java_com_microllm_app_LlamaNative_resetSampler st temperature topP topK).1.
Proof. intros Hm Hnone. cbn in Hnone. done. Qed.

(** X1.  A loadModel that fails from globals in which [no_model_no_state]
    holds leaves nothing behind. *)
Lemma loadModel_failure_all_null
    (st : globals) (modelPath : string) (contextSize threads : Z)
    (st' : globals) (frees : list free_call) :
  no_model_no_state st ->
  Java_com_microllm_app_LlamaNative_loadModel st modelPath contextSize threads
  = (false, st', frees) ->
  st' = initial_globals.
Proof.
  intros Hinv.
  unfold Java_com_microllm_app_LlamaNative_loadModel.
  destruct st as [[old|] c s p]; cbn [g_model];
    rewrite ?free_sampler_spec, ?free_ctx_spec; cbn -[to_uint32].
  - destruct (llama_model_load_from_file _ _) as [model|]; cbn -[to_uint32];
      [destruct (llama_init_from_model _ _) as [ctx|]; cbn -[to_uint32]|];
      intros Heq; by simplify_eq.
  - destruct Hinv as (Hc & Hs & Hp); [done|]. cbn in Hc, Hs, Hp. subst.
    destruct (llama_model_load_from_file _ _) as [model|]; cbn -[to_uint32];
      [destruct (llama_init_from_model _ _) as [ctx|]; cbn -[to_uint32]|];
      intros Heq; by simplify_eq.
Qed.


End lifecycle_properties.

(** A model at [model.gguf] and a context size of 2048: loaded. *)
Lemma loadModel_success_witness :
  llama_jni.g_n_past
    (llama_jni.Java_com_microllm_app_LlamaNative_loadModel
       (H := scripted.llama [] scripted.no_piece)
       llama_jni.initial_globals "model.gguf" 2048 4).1.2 = 0 /\
  llama_jni.Java_com_microllm_app_LlamaNative_isLoaded
    (llama_jni.Java_com_microllm_app_LlamaNative_loadModel
       (H := scripted.llama [] scripted.no_piece)
       llama_jni.initial_globals "model.gguf" 2048 4).1.2 = true.
Proof.
  destruct (loadModel_success_state (H := scripted.llama [] scripted.no_piece)
              llama_jni.initial_globals "model.gguf" 2048 4
              (llama_jni.mk_globals (H := scripted.llama [] scripted.no_piece)
                 (Some "model.gguf"%string)
                 (Some (scripted.mk_context 2048 512 []))
                 (Some llama_jni.default_sampler_chain) 0) [])
    as (Hp & _ & _ & Hloaded).
  - reflexivity.
  - split; [exact Hp|exact Hloaded].
Defined.

(** A model is loaded and the next path cannot be loaded: nothing is
    left. *)
Lemma loadModel_failure_all_null_witness :
  (llama_jni.Java_com_microllm_app_LlamaNative_loadModel
     (scripted.loaded 512 [] 7) "" 2048 4).1.2
  = llama_jni.initial_globals.
Proof.
  apply (loadModel_failure_all_null (H := scripted.llama [] scripted.no_piece)
           (scripted.loaded 512 [] 7) "" 2048 4 _
           (llama_jni.Java_com_microllm_app_LlamaNative_loadModel
              (scripted.loaded 512 [] 7) "" 2048 4).2).
  - discriminate.
  - reflexivity.
Defined.


(** C5, where the code departs from it.  resetSampler while nothing is
    loaded, then loadModel of a path that cannot be loaded: loadModel
    returns failure, releases nothing, and the sampler chain is still
    there. *)
Lemma loadModel_failure_keeps_sampler :
  let st :=
    (llama_jni.Java_com_microllm_app_LlamaNative_resetSampler
       (H := scripted.llama [] scripted.no_piece)
       llama_jni.initial_globals llama_jni.f_0_7 llama_jni.f_0_9 40).1 in
  llama_jni.Java_com_microllm_app_LlamaNative_loadModel st "" 2048 4 = (false, st, []) /\
  llama_jni.g_model st = None /\
  llama_jni.g_sampler st
  = Some [llama_jni.llama_sampler_init_top_k 40;
          llama_jni.llama_sampler_init_top_p llama_jni.f_0_9 1;
          llama_jni.llama_sampler_init_temp llama_jni.f_0_7;
          llama_jni.llama_sampler_init_dist 42].
Proof. vm_compute. repeat split. Qed.

(** In the same globals a loadModel that succeeds puts the default
    chain in the place of the chain that was there and releases
    nothing: the old chain is lost, where resetSampler and unloadModel
    release it. *)
Example loadModel_success_drops_sampler :
  let st :=
    (llama_jni.Java_com_microllm_app_LlamaNative_resetSampler
       (H := scripted.llama [] scripted.no_piece)
       llama_jni.initial_globals llama_jni.f_0 llama_jni.f_1_0 0).1 in
  llama_jni.g_sampler st = Some [llama_jni.llama_sampler_init_greedy] /\
  (llama_jni.Java_com_microllm_app_LlamaNative_loadModel st "model.gguf" 2048 4).2 = [] /\
  llama_jni.g_sampler
    (llama_jni.Java_com_microllm_app_LlamaNative_loadModel st "model.gguf" 2048 4).1.2
  = Some llama_jni.default_sampler_chain /\
  (llama_jni.Java_com_microllm_app_LlamaNative_unloadModel st).2
  = [llama_jni.llama_sampler_free [llama_jni.llama_sampler_init_greedy]].
Proof. vm_compute. repeat split. Qed.

(** ** Modified UTF-8 *)

Section mutf8_facts.
Import jni.

(** Decoding goes through a concatenation when the first part is
    complete. *)
Lemma mutf8_decode_app (a b : list byte) (x : list Z) :
  mutf8_decode a = Some x ->
  mutf8_decode (a ++ b) = (fun y => x ++ y) <$> mutf8_decode b.
Proof.
  remember (length a) as m eqn:Hm. revert a x Hm.
  induction m as [m IHm] using lt_wf_ind. intros a x ->.
  assert (IH : forall a', (length a' < length a)%nat -> forall x',
             mutf8_decode a' = Some x' ->
             mutf8_decode (a' ++ b) = (fun y => x' ++ y) <$> mutf8_decode b)
    by (intros a' Hlt x'; by apply (IHm (length a') Hlt)).
  clear IHm.
  destruct a as [|b1 a1]; [cbn; intros [= <-]; by destruct (mutf8_decode b)|].
  cbn [mutf8_decode app].
  destruct (byte_val b1 <? 128).
  { destruct (mutf8_decode a1) as [x1|] eqn:H1; [|done].
    intros [= <-]. rewrite (IH a1 ltac:(cbn; lia) x1 H1).
    by destruct (mutf8_decode b). }
  destruct (Z.land (byte_val b1) 224 =? 192).
  { destruct a1 as [|b2 a2]; [done|]. cbn [app].
    destruct (is_continuation (byte_val b2)); [|done].
    destruct (mutf8_decode a2) as [x2|] eqn:H2; [|done].
    intros [= <-]. rewrite (IH a2 ltac:(cbn; lia) x2 H2).
    by destruct (mutf8_decode b). }
  destruct (Z.land (byte_val b1) 240 =? 224); [|done].
  destruct a1 as [|b2 [|b3 a3]]; [done|done|]. cbn [app].
  destruct (is_continuation (byte_val b2) && is_continuation (byte_val b3)); [|done].
  destruct (mutf8_decode a3) as [x3|] eqn:H3; [|done].
  intros [= <-]. rewrite (IH a3 ltac:(cbn; lia) x3 H3).
  by destruct (mutf8_decode b).
Qed.

Lemma NewStringUTF_prefix (a b : list byte) (x y : list Z) :
  NewStringUTF a = Returned x -> NewStringUTF (a ++ b) = Returned y -> x `prefix_of` y.
Proof.
  unfold NewStringUTF.
  destruct (mutf8_decode a) as [x'|] eqn:Ha; [|done]. intros [= <-].
  rewrite (mutf8_decode_app a b x' Ha).
  destruct (mutf8_decode b) as [z|]; [|done]. intros [= <-].
  by exists z.
Qed.

Lemma NewStringUTF_nil : NewStringUTF [] = Returned [].
Proof. reflexivity. Qed.

End mutf8_facts.

(** ** whisper_jni.cpp *)

Section transcribe_properties.
Import jni whisper_jni transcribe_spec.
Context `{whisper_h}.

Lemma segments_text_cons (x : segment_text) (l : list segment_text) :
  segments_text (x :: l)
  = match x with Some text => text ++ segments_text l | None => segments_text l end.
Proof. unfold segments_text. by destruct x. Qed.

Lemma segments_text_app (l k : list segment_text) :
  segments_text (l ++ k) = segments_text l ++ segments_text k.
Proof.
  induction l as [|x l IH]; [done|].
  rewrite <- app_comm_cons, !segments_text_cons, IH. destruct x; [|done].
  by rewrite (assoc_L (++)).
Qed.

Lemma cumulative_text_app (s1 s2 : list (list segment_text * Z)) :
  cumulative_text (s1 ++ s2) = cumulative_text s1 ++ cumulative_text s2.
Proof. unfold cumulative_text. by rewrite fmap_app, concat_app, segments_text_app. Qed.

(** The loop that appends the texts of the segments from [start] on. *)
Lemma append_segments_spec (ctx : whisper_context) (pre l : list segment_text)
    (out : list byte) :
  result_all ctx = pre ++ l ->
  append_segments ctx (Z.of_nat (length pre)) (Z.of_nat (length (pre ++ l))) out
  = out ++ segments_text l.
Proof.
  unfold append_segments. rewrite length_app.
  replace (Z.of_nat (length pre + length l) - Z.of_nat (length pre))
    with (Z.of_nat (length l)) by lia.
  revert pre out. induction l as [|x l IH]; intros pre out Hres.
  - cbn. by rewrite app_nil_r.
  - rewrite seqZ_cons by (cbn [length]; lia). cbn [fold_left].
    replace (Z.pred (Z.of_nat (length (x :: l)))) with (Z.of_nat (length l))
      by (cbn [length]; lia).
    replace (Z.succ (Z.of_nat (length pre))) with (Z.of_nat (length (pre ++ [x])))
      by (rewrite length_app; cbn [length]; lia).
    rewrite IH by (by rewrite <- (assoc_L (++))).
    unfold whisper_full_get_segment_text.
    destruct (Z.ltb_spec (Z.of_nat (length pre)) 0) as [?|_]; [lia|].
    rewrite Nat2Z.id, Hres, lookup_app_r, Nat.sub_diag by lia. cbn [lookup list_lookup mjoin option_join].
    rewrite segments_text_cons. destruct x as [text|]; [|done].
    by rewrite (assoc_L (++)).
Qed.

(** The callback with a sink that has [onPartial], when the engine
    reports the number of new segments. *)
Lemma on_new_segment_cb_spec (ctx : whisper_context) (old segs : list segment_text)
    (obj : jobject) (mid : jmethodID) (acc : list byte) :
  result_all ctx = old ++ segs ->
  Z.of_nat (length (old ++ segs)) <= INT32_MAX ->
  on_new_segment_cb ctx (Z.of_nat (length segs))
    (Some (mk_stream_callback_ctx true (Some obj) (Some mid) acc))
  = bind (NewStringUTF (acc ++ segments_text segs))
      (fun jtxt =>
         Returned (Some (mk_stream_callback_ctx true (Some obj) (Some mid)
                           (acc ++ segments_text segs)), [jtxt])).
Proof.
  intros Hres Hmax.
  unfold on_new_segment_cb, whisper_full_n_segments. cbn [env callback_obj mid_onPartial accumulated].
  rewrite Hres. rewrite length_app in Hmax.
  rewrite (wrap32_id (Z.of_nat (length (old ++ segs))))
    by (rewrite length_app; int32_lia).
  rewrite sub32_id by (rewrite length_app; int32_lia).
  replace (Z.max 0 (Z.of_nat (length (old ++ segs)) - Z.of_nat (length segs)))
    with (Z.of_nat (length old)) by (rewrite length_app; lia).
  by rewrite append_segments_spec.
Qed.

(** A run whose callback hands every step to the sink. *)
Lemma run_steps_sink (steps : list (list segment_text * Z)) :
  forall (ctx : whisper_context) (obj : jobject) (mid : jmethodID) (acc : list byte)
         (ctx' : whisper_context) (ud : option stream_callback_ctx) (calls : list (list Z)),
    Forall (fun step => step.2 = Z.of_nat (length step.1)) steps ->
    Z.of_nat (length (result_all ctx ++ concat (fst <$> steps))) <= INT32_MAX ->
    run_steps steps ctx true (Some (mk_stream_callback_ctx true (Some obj) (Some mid) acc))
    = Returned (ctx', ud, calls) ->
    result_all ctx' = result_all ctx ++ concat (fst <$> steps) /\
    length calls = length steps /\
    forall (k : nat) jtxt,
      calls !! k = Some jtxt ->
      NewStringUTF (acc ++ cumulative_text (take (S k) steps)) = Returned jtxt.
Proof.
  induction steps as [|[segs n_new] steps IH];
    intros ctx obj mid acc ctx' ud calls Hn Hmax Hrun.
  - cbn in Hrun. injection Hrun as <- _ <-. cbn. by rewrite app_nil_r.
  - apply Forall_cons in Hn as [Hn1 Hn]. cbn [snd fst] in Hn1. subst n_new.
    cbn [fmap list_fmap concat fst] in Hmax. rewrite (assoc_L (++)) in Hmax.
    cbn [run_steps] in Hrun.
    rewrite (on_new_segment_cb_spec _ (result_all ctx) segs) in Hrun;
      [|done|rewrite !length_app in *; lia].
    destruct (NewStringUTF (acc ++ segments_text segs)) as [jtxt|] eqn:Hj; [|done].
    cbn [bind] in Hrun.
    destruct (run_steps steps _ true _) as [[[ctx1 ud1] calls1]|] eqn:Hrec; [|done].
    cbn [bind] in Hrun. injection Hrun as <- <- <-.
    apply IH in Hrec as (Hres & Hlen & Hcalls); [|done|done].
    cbn [result_all] in Hres.
    split; [by rewrite Hres; cbn; rewrite (assoc_L (++))|].
    split; [cbn; by rewrite Hlen|].
    intros [|k] j Hk.
    + injection Hk as <-. cbn [take]. unfold cumulative_text. cbn. by rewrite app_nil_r.
    + cbn in Hk. specialize (Hcalls k j Hk).
      change (take (S (S k)) ((segs, Z.of_nat (length segs)) :: steps))
        with ([(segs, Z.of_nat (length segs))] ++ take (S k) steps).
      rewrite cumulative_text_app, (assoc_L (++)).
      unfold cumulative_text at 1. cbn. by rewrite app_nil_r.
Qed.

(** A run whose callback, if any, never reaches the sink. *)
Lemma run_steps_silent (steps : list (list segment_text * Z)) :
  forall (ctx : whisper_context) (cb : bool) (ud : option stream_callback_ctx),
    (forall ctx n_new,
        (if cb then on_new_segment_cb ctx n_new ud else Returned (ud, []))
        = Returned (ud, [])) ->
    run_steps steps ctx cb ud
    = Returned (mk_whisper_context (model ctx) (result_all ctx ++ concat (fst <$> steps)),
                ud, []).
Proof.
  induction steps as [|[segs n_new] steps IH]; intros ctx cb ud Hsilent.
  - cbn. rewrite app_nil_r. by destruct ctx.
  - cbn [run_steps]. rewrite Hsilent. cbn [bind].
    rewrite IH by done. cbn. by rewrite (assoc_L (++)).
Qed.

(** In a build without whisper.h no model is ever loaded: a loaded
    model means [HAS_WHISPER]. *)
Lemma stub_loadModel (st : globals) (modelPath : string) (threads : Z) :
  Java_com_microllm_app_WhisperNative_loadModel false st modelPath threads = (false, st).
Proof. reflexivity. Qed.

(** C10.  With a model loaded and no samples, transcribe and
    transcribeStreaming return the empty string, whatever the sample
    rate, the language, the flag and the sink, without a call of the
    engine, without a call of the sink and without a change of the
    globals. *)
Theorem transcribe_empty_samples
    (st : globals) (wctx : whisper_context) (pcm16 : list Z) (sampleRate : Z)
    (languageTag : option string) (translateToEnglish : bool)
    (callbackObj : option jobject) :
  g_wctx st = Some wctx ->
  Z.of_nat (length pcm16) <= 0 ->
  Java_com_microllm_app_WhisperNative_transcribePcm16 true st pcm16 sampleRate
    languageTag translateToEnglish
  = mk_effect (Returned (Some [])) st [] [] /\
  Java_com_microllm_app_WhisperNative_transcribePcm16Streaming true st pcm16 sampleRate
    languageTag translateToEnglish callbackObj
  = mk_effect (Returned (Some [])) st [] [].
Proof.
  intros Hctx Hn.
  unfold Java_com_microllm_app_WhisperNative_transcribePcm16,
    Java_com_microllm_app_WhisperNative_transcribePcm16Streaming.
  rewrite Hctx. cbn [negb].
  destruct (Z.leb_spec (Z.of_nat (length pcm16)) 0) as [_|?]; [|lia].
  done.
Qed.

(** C8, as the code has it.  With a model loaded and at least one
    sample, transcribe at a sample rate other than 16000 returns failure
    without a call of the engine; and whenever transcribe calls the
    engine, the sample rate is 16000 and there is at least one sample. *)
Theorem transcribe_rejects_other_sample_rates
    (HAS_WHISPER : bool) (st : globals) (wctx : whisper_context) (pcm16 : list Z)
    (sampleRate : Z) (languageTag : option string) (translateToEnglish : bool) :
  (g_wctx st = Some wctx -> pcm16 <> [] -> sampleRate <> 16000 ->
   Java_com_microllm_app_WhisperNative_transcribePcm16 true st pcm16 sampleRate
     languageTag translateToEnglish
   = mk_effect (Returned None) st [] []) /\
  (engine_calls
     (Java_com_microllm_app_WhisperNative_transcribePcm16 HAS_WHISPER st pcm16 sampleRate
        languageTag translateToEnglish) <> [] ->
   sampleRate = 16000 /\ pcm16 <> [] /\ HAS_WHISPER = true /\ is_Some (g_wctx st)).
Proof.
  unfold Java_com_microllm_app_WhisperNative_transcribePcm16. split.
  - intros Hctx Hne Hrate. rewrite Hctx. cbn [negb].
    destruct (Z.leb_spec (Z.of_nat (length pcm16)) 0) as [Hle|_].
    { destruct pcm16; [done|]. cbn [length] in Hle. lia. }
    destruct (Z.eqb_spec sampleRate 16000) as [?|_]; done.
  - destruct HAS_WHISPER; [|done]. cbn [negb].
    destruct (g_wctx st) as [w|]; [|done].
    destruct (Z.leb_spec (Z.of_nat (length pcm16)) 0) as [Hle|Hgt]; [done|].
    destruct (Z.eqb_spec sampleRate 16000) as [->|_]; [|done].
    intros _. repeat split; [|done].
    intros ->. cbn in Hgt. lia.
Qed.

(** The streaming entry point on its main path. *)
Lemma streaming_main_path
    (st : globals) (wctx : whisper_context) (pcm16 : list Z)
    (languageTag : option string) (translateToEnglish : bool) (obj : jobject) :
  g_wctx st = Some wctx -> pcm16 <> [] ->
  let params := full_params st translateToEnglish languageTag in
  let audio := pcm16_to_f32 pcm16 (Z.of_nat (length pcm16)) in
  Java_com_microllm_app_WhisperNative_transcribePcm16Streaming true st pcm16 16000
    languageTag translateToEnglish (Some obj)
  = match run_steps (whisper_full_steps (model wctx) params audio).1
            (mk_whisper_context (model wctx) []) true
            (Some (mk_stream_callback_ctx true (Some obj) (GetMethodID_onPartial obj) []))
    with
    | Aborted => mk_effect Aborted st [(params, audio)] []
    | Returned (wctx', _, calls) =>
        let st' := mk_globals (Some wctx') (g_threads st) in
        if negb ((whisper_full_steps (model wctx) params audio).2 =? 0)
        then mk_effect (Returned None) st' [(params, audio)] calls
        else mk_effect (aggregate_segments wctx') st' [(params, audio)] calls
    end.
Proof.
  intros Hctx Hne params audio.
  unfold Java_com_microllm_app_WhisperNative_transcribePcm16Streaming.
  rewrite Hctx. cbn [negb Z.eqb Pos.eqb].
  destruct (Z.leb_spec (Z.of_nat (length pcm16)) 0) as [Hle|_].
  { destruct pcm16; [done|]. cbn [length] in Hle. lia. }
  fold params audio. unfold whisper_full. cbn [accumulated].
  destruct (whisper_full_steps (model wctx) params audio) as [steps res]. cbn [fst snd].
  destruct (run_steps steps _ true _) as [[[w u] c]|]; done.
Qed.

(** C9.  A call of transcribeStreaming with a sink that returns a
    string, the engine keeping to its contract: invocation [k] of the
    sink receives the Java string of the texts of all segments of the
    steps up to step [k]; each string handed to the sink is a prefix of
    the ones handed to it later; the last one is the string returned;
    with samples and [onPartial] there is one invocation for each step.
    And without a sink transcribeStreaming does what transcribe does. *)
Theorem streaming_sink_receives_cumulative_text
    (HAS_WHISPER : bool) (st : globals) (wctx : whisper_context) (pcm16 : list Z)
    (sampleRate : Z) (languageTag : option string) (translateToEnglish : bool)
    (obj : jobject) (s : list Z) :
  let eff :=
    Java_com_microllm_app_WhisperNative_transcribePcm16Streaming HAS_WHISPER st pcm16
      sampleRate languageTag translateToEnglish (Some obj) in
  let steps :=
    (whisper_full_steps (model wctx) (full_params st translateToEnglish languageTag)
       (pcm16_to_f32 pcm16 (Z.of_nat (length pcm16)))).1 in
  g_wctx st = Some wctx ->
  engine_contract steps ->
  ret eff = Returned (Some s) ->
  (forall (k : nat) jtxt,
      sink_calls eff !! k = Some jtxt ->
      NewStringUTF (cumulative_text (take (S k) steps)) = Returned jtxt) /\
  (forall (k k' : nat) a b,
      (k <= k')%nat -> sink_calls eff !! k = Some a -> sink_calls eff !! k' = Some b ->
      a `prefix_of` b) /\
  (forall jtxt, last (sink_calls eff) = Some jtxt -> jtxt = s) /\
  (pcm16 <> [] -> has_onPartial obj = true ->
   length (sink_calls eff) = length steps /\
   NewStringUTF (cumulative_text steps) = Returned s) /\
  Java_com_microllm_app_WhisperNative_transcribePcm16Streaming HAS_WHISPER st pcm16
    sampleRate languageTag translateToEnglish None
  = Java_com_microllm_app_WhisperNative_transcribePcm16 HAS_WHISPER st pcm16
      sampleRate languageTag translateToEnglish.
Proof.
  cbv zeta. intros Hctx [Hnew Hmax] Hret.
  assert (Hnone :
    Java_com_microllm_app_WhisperNative_transcribePcm16Streaming HAS_WHISPER st pcm16
      sampleRate languageTag translateToEnglish None
    = Java_com_microllm_app_WhisperNative_transcribePcm16 HAS_WHISPER st pcm16
        sampleRate languageTag translateToEnglish) by reflexivity.
  destruct HAS_WHISPER; [|done].
  destruct pcm16 as [|x pcm] eqn:Hpcm.
  { unfold Java_com_microllm_app_WhisperNative_transcribePcm16Streaming in *.
    rewrite Hctx in *. cbn in Hret |- *. repeat split; done. }
  rewrite <- Hpcm in *.
  assert (Hne : pcm16 <> []) by (by subst).
  destruct (Z.eqb_spec sampleRate 16000) as [->|Hrate].
  2: { revert Hret.
       unfold Java_com_microllm_app_WhisperNative_transcribePcm16Streaming.
       rewrite Hctx. cbn [negb].
       destruct (Z.leb_spec (Z.of_nat (length pcm16)) 0) as [Hle|_];
         [subst; cbn [length] in Hle; lia|].
       destruct (Z.eqb_spec sampleRate 16000) as [?|_]; done. }
  rewrite (streaming_main_path st wctx pcm16 languageTag translateToEnglish obj Hctx Hne) in *.
  cbv zeta in *.
  set (params := full_params st translateToEnglish languageTag) in *.
  set (audio := pcm16_to_f32 pcm16 (Z.of_nat (length pcm16))) in *.
  destruct (whisper_full_steps (model wctx) params audio) as [steps res].
  cbn [fst snd] in *.
  unfold GetMethodID_onPartial in *.
  destruct (has_onPartial obj) eqn:Hmid.
  - (* the sink has onPartial *)
    destruct (run_steps steps _ true _) as [[[w u] calls]|] eqn:Hrun; [|done].
    apply run_steps_sink in Hrun as (Hres & Hlen & Hcalls); [|done|done].
    cbn [result_all app] in Hres.
    destruct (negb (res =? 0)); [done|].
    cbn [ret sink_calls] in *.
    unfold aggregate_segments, whisper_full_n_segments in Hret.
    assert (Hout : NewStringUTF (cumulative_text steps) = Returned s).
    { rewrite wrap32_id in Hret by (rewrite Hres; cbn in Hmax; int32_lia).
      pose proof (append_segments_spec w [] (result_all w) [] eq_refl) as Happ.
      cbn [length app] in Happ. change (Z.of_nat 0) with 0 in Happ.
      rewrite Happ, Hres in Hret. cbn [app] in Hret.
      fold (cumulative_text steps) in Hret.
      by destruct (NewStringUTF (cumulative_text steps)); simplify_eq/=. }
    cbn [app] in Hcalls.
    split; [done|]. split; [|split; [|split; [done|done]]].
    + intros k k' a b Hk Ha Hb.
      pose proof (Hcalls k a Ha) as Ha'. pose proof (Hcalls k' b Hb) as Hb'.
      assert (Hsplit : take (S k') steps
                       = take (S k) steps ++ drop (S k) (take (S k') steps)).
      { rewrite <- (take_drop (S k) (take (S k') steps)) at 1.
        rewrite take_take. by replace (S k `min` S k')%nat with (S k) by lia. }
      rewrite Hsplit, cumulative_text_app in Hb'.
      by eapply NewStringUTF_prefix.
    + intros jtxt Hlast. rewrite last_lookup in Hlast.
      pose proof (lookup_lt_Some _ _ _ Hlast) as Hlt.
      apply Hcalls in Hlast.
      rewrite take_ge in Hlast by lia. congruence.
  - (* the sink has no onPartial: it is never invoked *)
    rewrite run_steps_silent in * by reflexivity.
    destruct (negb (res =? 0)); [done|]. cbn [sink_calls ret] in *.
    repeat split; done.
Qed.

End transcribe_properties.

(** No samples at 44100 Hz, with a sink: the empty string. *)
Lemma transcribe_empty_samples_witness :
  whisper_jni.Java_com_microllm_app_WhisperNative_transcribePcm16 true
    (scripted.listening scripted.hello_steps 0) [] 44100 (Some "es-ES"%string) false
  = whisper_jni.mk_effect (jni.Returned (Some []))
      (scripted.listening scripted.hello_steps 0) [] [] /\
  whisper_jni.Java_com_microllm_app_WhisperNative_transcribePcm16Streaming true
    (scripted.listening scripted.hello_steps 0) [] 44100 (Some "es-ES"%string) false
    (Some {| whisper_jni.has_onPartial := true |})
  = whisper_jni.mk_effect (jni.Returned (Some []))
      (scripted.listening scripted.hello_steps 0) [] [].
Proof.
  apply (transcribe_empty_samples (H := scripted.whisper scripted.hello_steps 0)
           (scripted.listening scripted.hello_steps 0)
           (whisper_jni.mk_whisper_context
              (H := scripted.whisper scripted.hello_steps 0) "ggml-base.bin"%string [])).
  - reflexivity.
  - vm_compute. discriminate.
Defined.

(** loadModel, then transcribe of no samples at 44100 Hz: the empty
    string, which is not a failure. *)
Lemma transcribe_sample_rate_counterexample :
  exists st,
    whisper_jni.Java_com_microllm_app_WhisperNative_loadModel
      (H := scripted.whisper scripted.hello_steps 0) true
      whisper_jni.initial_globals "ggml-base.bin" 4 = (true, st) /\
    whisper_jni.ret
      (whisper_jni.Java_com_microllm_app_WhisperNative_transcribePcm16 true st
         [] 44100 None false)
    = jni.Returned (Some []) /\
    whisper_jni.ret
      (whisper_jni.Java_com_microllm_app_WhisperNative_transcribePcm16 true st
         [] 44100 None false)
    <> jni.Returned None.
Proof. eexists. split; [reflexivity|]. split; [reflexivity|discriminate]. Qed.

(** Two samples at 44100 Hz: failure, and the engine is not called. *)
Lemma transcribe_sample_rate_witness :
  whisper_jni.Java_com_microllm_app_WhisperNative_transcribePcm16 true
    (scripted.listening scripted.hello_steps 0) [0; 100] 44100 None false
  = whisper_jni.mk_effect (jni.Returned None)
      (scripted.listening scripted.hello_steps 0) [] [].
Proof.
  apply (transcribe_rejects_other_sample_rates (H := scripted.whisper scripted.hello_steps 0)
           true (scripted.listening scripted.hello_steps 0)
           (whisper_jni.mk_whisper_context
              (H := scripted.whisper scripted.hello_steps 0) "ggml-base.bin"%string [])
           [0; 100] 44100 None false).
  - reflexivity.
  - discriminate.
  - discriminate.
Defined.

(** A run in two steps with a sink: the sink receives [Hel] and then
    [Hello], and [Hello] is returned. *)
Lemma streaming_sink_witness :
  let eff :=
    whisper_jni.Java_com_microllm_app_WhisperNative_transcribePcm16Streaming true
      (scripted.listening scripted.hello_steps 0) [0; 100] 16000 (Some "en-US"%string) false
      (Some {| whisper_jni.has_onPartial := true |}) in
  whisper_jni.ret eff = jni.Returned (Some [72; 101; 108; 108; 111]) /\
  whisper_jni.sink_calls eff = [[72; 101; 108]; [72; 101; 108; 108; 111]] /\
  (forall jtxt, last (whisper_jni.sink_calls eff) = Some jtxt ->
                jtxt = [72; 101; 108; 108; 111]).
Proof.
  cbv zeta.
  destruct (streaming_sink_receives_cumulative_text
              (H := scripted.whisper scripted.hello_steps 0)
              true (scripted.listening scripted.hello_steps 0)
              (whisper_jni.mk_whisper_context
                 (H := scripted.whisper scripted.hello_steps 0) "ggml-base.bin"%string [])
              [0; 100] 16000 (Some "en-US"%string) false
              {| whisper_jni.has_onPartial := true |} [72; 101; 108; 108; 111])
    as (_ & _ & Hlast & _).
  - reflexivity.
  - split; [repeat constructor|vm_compute; discriminate].
  - vm_compute. reflexivity.
  - split; [vm_compute; reflexivity|]. split; [vm_compute; reflexivity|]. exact Hlast.
Defined.

(** ** Strings from token pieces *)

Section utf8_facts.
Import jni.

Lemma utf8_decode_from_skip (k : nat) (l : list Z) :
  utf8_decode_from k l = utf8_decode_from 0 (drop k l).
Proof.
  revert k. induction l as [|v tl IH]; intros [|k]; try done.
  cbn [utf8_decode_from drop]. apply IH.
Qed.

(** Bytes that are not well-formed UTF-8 leave a U+FFFD in the string. *)
Lemma utf8_malformed_replaced (l : list Z) :
  utf8_well_formed l = false -> REPLACEMENT_CHAR ∈ utf8_decode_from 0 l.
Proof.
  remember (length l) as m eqn:Hm. revert l Hm.
  induction m as [m IHm] using lt_wf_ind. intros l ->.
  assert (IH : forall l', (length l' < length l)%nat ->
             utf8_well_formed l' = false -> REPLACEMENT_CHAR ∈ utf8_decode_from 0 l')
    by (intros l' Hlt; by apply (IHm (length l') Hlt)).
  clear IHm.
  destruct l as [|v1 tl]; [done|].
  cbn [utf8_well_formed utf8_decode_from]. unfold utf8_step.
  destruct (v1 <? 128).
  { intros Hwf. rewrite elem_of_app. right. apply IH; [cbn; lia|done]. }
  destruct (utf8_lead v1) as [[[lo hi] n]|]; [|intros _; apply list_elem_of_here].
  destruct tl as [|v2 tl2]; [intros _; apply list_elem_of_here|].
  destruct (in_range lo hi v2); [|intros _; apply list_elem_of_here].
  cbn [andb].
  destruct n as [|[|n]].
  - (* no lead byte gives this count; the code treats it as the longer forms *)
    destruct tl2 as [|v3 tl3]; [intros _; apply list_elem_of_here|].
    destruct (is_continuation v3); [|intros _; apply list_elem_of_here]. cbn [andb].
    destruct tl3 as [|v4 tl4]; [intros _; apply list_elem_of_here|].
    destruct (is_continuation v4); [|intros _; apply list_elem_of_here]. cbn [andb].
    intros Hwf. rewrite elem_of_app. right.
    rewrite utf8_decode_from_skip. cbn [drop]. rewrite ?drop_0.
      apply IH; [cbn; lia|done].
  - intros Hwf. rewrite elem_of_app. right.
    rewrite utf8_decode_from_skip. cbn [drop]. rewrite ?drop_0.
      apply IH; [cbn; lia|done].
  - destruct tl2 as [|v3 tl3]; [intros _; apply list_elem_of_here|].
    destruct (is_continuation v3); [|intros _; apply list_elem_of_here]. cbn [andb].
    destruct n as [|n].
    + intros Hwf. rewrite elem_of_app. right.
      rewrite utf8_decode_from_skip. cbn [drop]. rewrite ?drop_0.
      apply IH; [cbn; lia|done].
    + destruct tl3 as [|v4 tl4]; [intros _; apply list_elem_of_here|].
      destruct (is_continuation v4); [|intros _; apply list_elem_of_here]. cbn [andb].
      intros Hwf. rewrite elem_of_app. right.
      rewrite utf8_decode_from_skip. cbn [drop]. rewrite ?drop_0.
      apply IH; [cbn; lia|done].
Qed.

(** Bytes below 0x80 are their own code units. *)
Lemma utf8_decode_ascii (l : list Z) :
  Forall (fun v => v < 128) l -> utf8_decode_from 0 l = l.
Proof.
  induction 1 as [|v l Hv _ IH]; [done|].
  cbn [utf8_decode_from]. unfold utf8_step.
  destruct (Z.ltb_spec v 128) as [_|?]; [|lia].
  cbn. by rewrite IH.
Qed.

(** The first two bytes of a character of three bytes: one U+FFFD. *)
Example String_new_UTF_8_fragment :
  String_new_UTF_8 [Byte.xe4; Byte.xb8] = [REPLACEMENT_CHAR].
Proof. reflexivity. Qed.

(** The same fragment before a letter: U+FFFD, then the letter. *)
Example String_new_UTF_8_fragment_then_ascii :
  String_new_UTF_8 [Byte.xe4; Byte.xb8; Byte.x41] = [REPLACEMENT_CHAR; 0x41].
Proof. reflexivity. Qed.

(** A character of four bytes is a surrogate pair for the constructor,
    and an abort for [NewStringUTF]. *)
Example String_new_UTF_8_supplementary :
  String_new_UTF_8 [Byte.xf0; Byte.x9f; Byte.x98; Byte.x80] = [0xD83D; 0xDE00] /\
  NewStringUTF [Byte.xf0; Byte.x9f; Byte.x98; Byte.x80] = Aborted.
Proof. split; reflexivity. Qed.

End utf8_facts.

Section token_text_properties.
Import jni llama_jni.
Context `{llama_h}.

Lemma new_string_from_utf8_bytes_returns (env : JNIEnv) (data : list byte) (len : Z) :
  exists s,
    new_string_from_utf8_bytes env (Some data) len = Returned s /\
    (s = [] \/ 0 < len /\ s = String_new_UTF_8 (take (Z.to_nat len) data)) /\
    (0 <= len -> jni_healthy env -> s = String_new_UTF_8 (take (Z.to_nat len) data)).
Proof.
  unfold new_string_from_utf8_bytes.
  destruct (Z.leb_spec len 0) as [Hle|Hgt].
  { exists []. split; [done|]. split; [by left|].
    intros Hge _. by replace len with 0 by lia. }
  destruct env as [[] [] [] [] [] [] [] []]; cbn;
    eexists; (split; [reflexivity|]); (split; [by (left + (right; split; [lia|]))|]);
    intros _ (? & ? & ? & ? & ? & ? & ? & ?); by simplify_eq/=.
Qed.

(** C4.  With a model loaded tokenToString returns a string, for every
    token and whatever bytes the piece lookup leaves in the buffer: the
    empty string when the lookup reports a negative length; otherwise,
    the JNI calls succeeding, the string that the UTF-8 constructor
    makes of the bytes, which holds U+FFFD when the bytes are not
    well-formed UTF-8.  The call never aborts. *)
Theorem tokenToString_tolerates_any_bytes
    (env : JNIEnv) (st : globals) (model : llama_model) (token : Z) :
  let piece := llama_token_to_piece model token (replicate 4096 Byte.x00) 4096 0 true in
  let bytes := take (Z.to_nat piece.1) piece.2 in
  g_model st = Some model ->
  exists s,
    Java_com_microllm_app_LlamaNative_tokenToString env st token = Returned s /\
    (piece.1 < 0 -> s = []) /\
    (0 <= piece.1 -> jni_healthy env ->
     s = String_new_UTF_8 bytes /\
     (utf8_well_formed (byte_val <$> bytes) = false -> REPLACEMENT_CHAR ∈ s)) /\
    (s = [] \/ s = String_new_UTF_8 bytes).
Proof.
  cbv zeta. intros Hmodel.
  unfold Java_com_microllm_app_LlamaNative_tokenToString. rewrite Hmodel.
  destruct (llama_token_to_piece model token _ 4096 0 true) as [len buf].
  cbn [fst snd].
  destruct (Z.ltb_spec len 0) as [Hneg|Hge].
  - exists []. split; [done|]. split; [done|]. split; [lia|by left].
  - destruct (new_string_from_utf8_bytes_returns env buf len) as (s & -> & Hor & Hok).
    exists s. split; [done|]. split; [lia|]. split.
    + intros _ Henv. rewrite (Hok Hge Henv). split; [done|].
      apply utf8_malformed_replaced.
    + destruct Hor as [?|[_ ?]]; [by left|by right].
Qed.

End token_text_properties.

(** The token whose piece is the first two bytes of a character of
    three bytes: the string is one U+FFFD. *)
Lemma tokenToString_witness :
  llama_jni.Java_com_microllm_app_LlamaNative_tokenToString
    scripted.healthy_env scripted.loaded_fragment 1
  = jni.Returned [jni.REPLACEMENT_CHAR].
Proof.
  destruct (tokenToString_tolerates_any_bytes
              (H := scripted.llama [] scripted.fragment_piece)
              scripted.healthy_env scripted.loaded_fragment "model.gguf"%string 1)
    as (s & Hrun & _ & Hs & _).
  - reflexivity.
  - rewrite Hrun. f_equal.
    destruct Hs as [-> _].
    + vm_compute. discriminate.
    + repeat split.
    + reflexivity.
Defined.
(** * Further properties *)

(** ** llama_jni.cpp: unloading and sessions *)

Section session_properties.
Import llama_jni llama_session.
Context `{llama_sampling_h}.

(** X3.  unloadModel leaves the initial globals, whatever was there; it
    releases what was there, the sampler first, then the context, then
    the model; a second unloadModel releases nothing; and afterwards
    nothing is loaded and decode answers -1. *)
Theorem unloadModel_resets (st : globals) :
  (Java_com_microllm_app_LlamaNative_unloadModel st).1 = initial_globals /\
  (Java_com_microllm_app_LlamaNative_unloadModel st).2
  = match g_sampler st with Some smpl => [llama_sampler_free smpl] | None => [] end ++
    match g_ctx st with Some ctx => [llama_free ctx] | None => [] end ++
    match g_model st with Some model => [llama_model_free model] | None => [] end /\
  Java_com_microllm_app_LlamaNative_unloadModel
    (Java_com_microllm_app_LlamaNative_unloadModel st).1 = (initial_globals, []) /\
  Java_com_microllm_app_LlamaNative_isLoaded
    (Java_com_microllm_app_LlamaNative_unloadModel st).1 = false /\
  forall fuel tokens,
    Java_com_microllm_app_LlamaNative_decode fuel
      (Java_com_microllm_app_LlamaNative_unloadModel st).1 tokens
    = Some (-1, initial_globals, []).
Proof.
  unfold Java_com_microllm_app_LlamaNative_unloadModel.
  rewrite free_sampler_spec. cbn. rewrite free_ctx_spec. cbn.
  destruct st as [[m|] [c|] [s|] p]; cbn; repeat split.
Qed.

(** What every call keeps: model and context are there together, with
    a model there is a sampler, and without one the cache position is
    0. *)
Lemma handles_together_kept (st st' : globals) (c : call) :
  (g_model st = None -> g_ctx st = None /\ g_n_past st = 0) ->
  (is_Some (g_model st) -> is_Some (g_ctx st) /\ is_Some (g_sampler st)) ->
  after_call st c = Some st' ->
  (g_model st' = None -> g_ctx st' = None /\ g_n_past st' = 0) /\
  (is_Some (g_model st') -> is_Some (g_ctx st') /\ is_Some (g_sampler st')).
Proof.
  intros Hnone Hsome.
  destruct c as [path cs th| |fuel tokens|t p k|]; cbn [after_call].
  - intros [= <-].
    unfold Java_com_microllm_app_LlamaNative_loadModel.
    assert (Hctx : g_model st = None -> g_ctx st = None) by (intros Hm; by destruct (Hnone Hm)).
    assert (Hpast : g_model st = None -> g_n_past st = 0) by (intros Hm; by destruct (Hnone Hm)).
    clear Hnone Hsome.
    destruct st as [[old|] [c|] [s|] p]; cbn -[to_uint32] in *;
      try (by specialize (Hctx eq_refl));
      try specialize (Hpast eq_refl); subst;
      (destruct (llama_model_load_from_file _ _) as [model|]; cbn -[to_uint32];
       [destruct (llama_init_from_model _ _) as [ctx|]; cbn -[to_uint32]|]);
      first [ by (split; [done|intros [? [=]]]) | by (split; [done|eauto]) ].
  - intros [= <-].
    unfold Java_com_microllm_app_LlamaNative_unloadModel.
    destruct st as [[m|] [c|] [s|] p]; cbn; (split; [done|intros [? [=]]]).
  - unfold Java_com_microllm_app_LlamaNative_decode, decode_tokens_internal.
    destruct st as [m [c|] s p]; cbn [g_ctx g_model g_n_past g_sampler] in *.
    + destruct (decode_loop _ _ _ _ _ _ _) as [[[[r c'] p'] e]|]; [|done].
      intros [= <-]. cbn. split.
      * intros Hm. by destruct (Hnone Hm).
      * intros Hm. destruct (Hsome Hm). by eauto.
    + intros [= <-]. cbn. by split.
  - intros [= <-]. cbn. split; [done|].
    intros Hm. destruct (Hsome Hm). by eauto.
  - intros [= <-].
    unfold Java_com_microllm_app_LlamaNative_clearContext.
    destruct st as [m [c|] s p]; cbn in *.
    + destruct (llama_memory_clear c); cbn; (split; [intros Hm; by destruct (Hnone Hm)|]);
        intros Hm; destruct (Hsome Hm); by eauto.
    + split; [done|]. intros Hm. by destruct (Hsome Hm) as [[? [=]] _].
Qed.

Lemma handles_together_session (cs : list call) (st st' : globals) :
  (g_model st = None -> g_ctx st = None /\ g_n_past st = 0) ->
  (is_Some (g_model st) -> is_Some (g_ctx st) /\ is_Some (g_sampler st)) ->
  after_calls st cs = Some st' ->
  (g_model st' = None -> g_ctx st' = None /\ g_n_past st' = 0) /\
  (is_Some (g_model st') -> is_Some (g_ctx st') /\ is_Some (g_sampler st')).
Proof.
  revert st. induction cs as [|c cs IH]; intros st Hnone Hsome; cbn [after_calls].
  - by intros [= <-].
  - destruct (after_call st c) as [st1|] eqn:Hc; [|done].
    destruct (handles_together_kept st st1 c Hnone Hsome Hc) as [Hnone1 Hsome1].
    by apply IH.
Qed.

(** X4.  In a session that starts with nothing loaded, whatever the calls
    and their order, model and context are there together or not at
    all, isLoaded says which, a model comes with a sampler, and without
    a model the cache position is 0. *)
Theorem session_handles_together (cs : list call) (st : globals) :
  after_calls initial_globals cs = Some st ->
  (is_Some (g_model st) <-> is_Some (g_ctx st)) /\
  (Java_com_microllm_app_LlamaNative_isLoaded st = true <-> is_Some (g_model st)) /\
  (is_Some (g_model st) -> is_Some (g_sampler st)) /\
  (g_model st = None -> g_n_past st = 0).
Proof.
  intros Hrun.
  destruct (handles_together_session cs initial_globals st) as [Hnone Hsome];
    [done|by intros [? [=]]|done|].
  unfold Java_com_microllm_app_LlamaNative_isLoaded.
  destruct (g_model st) as [m|] eqn:Hm.
  - destruct Hsome as [[c Hc] Hs]; [by eauto|]. rewrite Hc.
    repeat split; by eauto.
  - destruct Hnone as [Hc Hp]; [done|]. rewrite Hc.
    repeat split; try done; by intros [? [=]].
Qed.

(** X5.  In such a session sample reaches the sampler exactly when a model
    is loaded: it then draws once, at the last position, has the chain
    accept the token drawn, and returns it; with nothing loaded it
    returns -1 and calls nothing. *)
Theorem session_sample (cs : list call) (st : globals) (rng : sampler_state) :
  after_calls initial_globals cs = Some st ->
  if Java_com_microllm_app_LlamaNative_isLoaded st
  then exists ctx smpl,
      g_ctx st = Some ctx /\ g_sampler st = Some smpl /\
      Java_com_microllm_app_LlamaNative_sample rng st
      = ((llama_sampler_sample rng smpl ctx (-1)).1,
         llama_sampler_accept (llama_sampler_sample rng smpl ctx (-1)).2 smpl
           (llama_sampler_sample rng smpl ctx (-1)).1,
         [sampler_sample (-1) (llama_sampler_sample rng smpl ctx (-1)).1;
          sampler_accept (llama_sampler_sample rng smpl ctx (-1)).1])
  else Java_com_microllm_app_LlamaNative_sample rng st = (-1, rng, []).
Proof.
  intros Hrun.
  destruct (handles_together_session cs initial_globals st) as [Hnone Hsome];
    [done|by intros [? [=]]|done|].
  unfold Java_com_microllm_app_LlamaNative_isLoaded,
    Java_com_microllm_app_LlamaNative_sample.
  destruct (g_model st) as [m|] eqn:Hm.
  - destruct Hsome as [[c Hc] [s Hs]]; [by eauto|]. rewrite Hc, Hs.
    exists c, s. split; [done|]. split; [done|].
    by destruct (llama_sampler_sample rng s c (-1)).
  - destruct Hnone as [Hc Hp]; [done|]. by rewrite Hc.
Qed.

End session_properties.

(** ** llama_jni.cpp: every run of decode *)

Section decode_runs.
Import llama_jni decode_spec.
Context `{llama_h}.

Variable tokens : list llama_token.
Variable B : Z.
Hypothesis B_pos : 0 < B.
Hypothesis tokens_jsize : Z.of_nat (length tokens) <= INT32_MAX.

Local Abbreviation n := (Z.of_nat (length tokens)).

(** What a run of the loop hands over and what it evaluates, whatever
    the statuses: the chunks handed over are a prefix of the rest of
    the sequence at consecutive cache positions, so are the chunks
    evaluated with status 0, and the result is 0 exactly when every
    chunk was, which is when the whole rest was evaluated. *)
Lemma decode_loop_evaluated fuel ctx P off res ctx' P' evs :
  0 <= off <= n -> in_int32 P -> P + (n - off) <= INT32_MAX ->
  decode_loop fuel tokens n B ctx P off = Some (res, ctx', P', evs) ->
  (res = 0 <-> Forall (fun ev => ev.2 = 0) evs) /\
  (res = 0 <-> tokens_evaluated evs = n - off) /\
  (exists m, 0 <= tokens_evaluated evs <= m /\ m <= n - off /\
     concat ((fun ev => token ev.1) <$> evs)
     = take (Z.to_nat m) (drop (Z.to_nat off) tokens) /\
     concat ((fun ev => pos ev.1) <$> evs) = seqZ P m) /\
  concat ((fun ev => token ev.1) <$> filter (fun ev => ev.2 = 0) evs)
  = take (Z.to_nat (tokens_evaluated evs)) (drop (Z.to_nat off) tokens) /\
  concat ((fun ev => pos ev.1) <$> filter (fun ev => ev.2 = 0) evs)
  = seqZ P (tokens_evaluated evs).
Proof.
  intros Ho HP HPn Hrun. revert HP HPn.
  pattern P, off, res, P', evs.
  eapply decode_loop_run_ind; [exact B_pos|exact tokens_jsize| | | |exact Ho|exact Hrun];
    clear - B_pos tokens_jsize.
  - intros P HP HPn. cbn. rewrite Z.sub_diag.
    repeat split; try done.
    exists 0. cbn. repeat split; (done || lia).
  - intros P off r Ho Hr HP HPn.
    rewrite build_batch_spec_chunk by (done || lia).
    cbn [tokens_evaluated foldr snd fst].
    destruct (Z.eqb_spec r 0) as [?|_]; [done|].
    rewrite filter_cons_False by done. rewrite filter_nil. cbn.
    split; [split; [done|by intros [? _]%Forall_cons]|].
    split; [split; [done|lia]|].
    split; [|done].
    exists (Z.min B (n - off)). rewrite !app_nil_r.
    repeat split; (done || lia).
  - intros P off res P' evs Ho IH HP HPn.
    rewrite add32_id in IH by int32_lia.
    destruct IH as (Hall & Hres & (m & Hm & Hmn & Htok & Hpos) & Hetok & Hepos);
      [int32_lia | lia |].
    rewrite build_batch_spec_chunk by (done || lia).
    rewrite filter_cons_True by done.
    cbn [tokens_evaluated foldr snd fst Z.eqb spec_chunk n_tokens].
    fold (tokens_evaluated evs).
    cbn [fmap list_fmap concat spec_chunk token pos fst].
    split; [rewrite Hall; split; [by constructor|by intros [_ ?]%Forall_cons]|].
    split; [rewrite Hres; lia|].
    split; [exists (Z.min B (n - off) + m); split; [lia|split; [lia|]]|].
    + rewrite Htok, Hpos. split.
      * rewrite (Z2Nat.inj_add (Z.min B (n - off))) by lia.
        rewrite (Z2Nat.inj_add off) by lia. rewrite <- drop_drop.
        by rewrite take_take_drop.
      * rewrite <- seqZ_app by lia. done.
    + rewrite Hetok, Hepos. split.
      * rewrite (Z2Nat.inj_add (Z.min B (n - off))) by lia.
        rewrite (Z2Nat.inj_add off) by lia. rewrite <- drop_drop.
        by rewrite take_take_drop.
      * rewrite <- seqZ_app by lia. done.
Qed.

End decode_runs.

Section decode_run_properties.
Import llama_jni decode_spec.
Context `{llama_h}.

(** X8.  decode of the empty sequence hands nothing to the engine and
    changes nothing, whatever the batch width of the context and the
    cache position; it returns 0 with a context and -1 without. *)
Theorem decode_empty_sequence (fuel : nat) (st : globals) :
  Java_com_microllm_app_LlamaNative_decode fuel st []
  = Some (match g_ctx st with Some _ => 0 | None => -1 end, st, []).
Proof.
  unfold Java_com_microllm_app_LlamaNative_decode, decode_tokens_internal.
  destruct st as [m [c|] s p]; cbn [g_ctx g_n_past]; [|done].
  by destruct fuel.
Qed.

(** X9.  With a context of batch width [B > 0] and [g_n_past + n] within
    [int32_t], the result of decode is 0 exactly when every chunk
    handed to the engine came back with status 0, and exactly when the
    cache position has advanced by the whole sequence; it never goes
    back and never advances by more. *)
Theorem decode_zero_iff_complete
    (fuel : nat) (st : globals) (ctx : llama_context) (tokens : list llama_token) :
  let n := Z.of_nat (length tokens) in
  let B := wrap32 (llama_n_batch ctx) in
  g_ctx st = Some ctx ->
  0 < B ->
  n <= INT32_MAX ->
  in_int32 (g_n_past st) ->
  g_n_past st + n <= INT32_MAX ->
  n <= Z.of_nat fuel ->
  exists res st' evs,
    Java_com_microllm_app_LlamaNative_decode fuel st tokens = Some (res, st', evs) /\
    (res = 0 <-> Forall (fun ev => ev.2 = 0) evs) /\
    (res = 0 <-> g_n_past st' = g_n_past st + n) /\
    g_n_past st <= g_n_past st' <= g_n_past st + n.
Proof.
  cbv zeta. intros Hctx HB Hn HP HPn Hfuel.
  rewrite (decode_run _ _ _ _ Hctx).
  destruct (decode_loop_total tokens _ HB Hn fuel ctx (g_n_past st) 0)
    as [[[[res ctx'] P'] evs] Hrun]; [lia | lia |].
  rewrite Hrun. exists res, (set_g_n_past (set_g_ctx st (Some ctx')) P'), evs.
  destruct (decode_loop_status tokens _ HB Hn fuel ctx (g_n_past st) 0 res ctx' P' evs
              ltac:(lia) HP ltac:(lia) Hrun)
    as (_ & _ & -> & Hbound).
  destruct (decode_loop_evaluated tokens _ HB Hn fuel ctx (g_n_past st) 0 res ctx'
              (g_n_past st + tokens_evaluated evs) evs
              ltac:(lia) HP ltac:(lia) Hrun)
    as (Hall & Hres & _).
  cbn [g_n_past set_g_n_past].
  split; [done|]. split; [done|]. split; [rewrite Hres; lia|lia].
Qed.

(** X10.  Under the same conditions, whatever the engine answers: the chunks
    handed to it are a prefix of the sequence, in order and at the
    consecutive cache positions from [g_n_past] on, the whole sequence
    when the result is 0; the context is still there, and the model and
    the sampler are the ones there were. *)
Theorem decode_submits_prefix_in_order
    (fuel : nat) (st : globals) (ctx : llama_context) (tokens : list llama_token) :
  let n := Z.of_nat (length tokens) in
  let B := wrap32 (llama_n_batch ctx) in
  g_ctx st = Some ctx ->
  0 < B ->
  n <= INT32_MAX ->
  in_int32 (g_n_past st) ->
  g_n_past st + n <= INT32_MAX ->
  n <= Z.of_nat fuel ->
  exists res st' evs m,
    Java_com_microllm_app_LlamaNative_decode fuel st tokens = Some (res, st', evs) /\
    0 <= m <= n /\
    (res = 0 -> m = n) /\
    concat ((fun ev => token ev.1) <$> evs) = take (Z.to_nat m) tokens /\
    concat ((fun ev => pos ev.1) <$> evs) = seqZ (g_n_past st) m /\
    g_n_past st' - g_n_past st <= m /\
    is_Some (g_ctx st') /\
    g_model st' = g_model st /\
    g_sampler st' = g_sampler st.
Proof.
  cbv zeta. intros Hctx HB Hn HP HPn Hfuel.
  rewrite (decode_run _ _ _ _ Hctx).
  destruct (decode_loop_total tokens _ HB Hn fuel ctx (g_n_past st) 0)
    as [[[[res ctx'] P'] evs] Hrun]; [lia | lia |].
  rewrite Hrun.
  destruct (decode_loop_status tokens _ HB Hn fuel ctx (g_n_past st) 0 res ctx' P' evs
              ltac:(lia) HP ltac:(lia) Hrun)
    as (_ & _ & -> & Hbound).
  destruct (decode_loop_evaluated tokens _ HB Hn fuel ctx (g_n_past st) 0 res ctx'
              (g_n_past st + tokens_evaluated evs) evs
              ltac:(lia) HP ltac:(lia) Hrun)
    as (_ & Hres & (m & Hm & Hmn & Htok & Hpos) & _).
  exists res, (set_g_n_past (set_g_ctx st (Some ctx')) (g_n_past st + tokens_evaluated evs)),
    evs, m.
  destruct st as [mo c s p]. cbn in *.
  repeat split; first [done | lia | rewrite Hres; lia | by eauto].
Qed.

(** X11.  A call that stopped early can be taken up where it stopped.  After
    decode of a sequence has advanced the cache position by [k] tokens,
    the chunks it had evaluated are the first [k] tokens at the
    positions from the old cache position on; and a further decode of
    the rest of the sequence that returns 0 leaves every token of the
    sequence evaluated once, in order, at the positions an
    uninterrupted call gives them, and the cache position advanced by
    the whole sequence. *)
Theorem decode_resumes_where_it_stopped
    (fuel fuel2 : nat) (st st1 st2 : globals) (ctx ctx1 : llama_context)
    (tokens : list llama_token) (res res2 : Z) (evs evs2 : list (llama_batch * Z)) :
  let n := Z.of_nat (length tokens) in
  let k := g_n_past st1 - g_n_past st in
  g_ctx st = Some ctx ->
  0 < wrap32 (llama_n_batch ctx) ->
  n <= INT32_MAX ->
  in_int32 (g_n_past st) ->
  g_n_past st + n <= INT32_MAX ->
  Java_com_microllm_app_LlamaNative_decode fuel st tokens = Some (res, st1, evs) ->
  g_ctx st1 = Some ctx1 ->
  0 < wrap32 (llama_n_batch ctx1) ->
  Java_com_microllm_app_LlamaNative_decode fuel2 st1 (drop (Z.to_nat k) tokens)
  = Some (res2, st2, evs2) ->
  res2 = 0 ->
  0 <= k <= n /\
  g_n_past st2 = g_n_past st + n /\
  concat ((fun ev => token ev.1) <$> (filter (fun ev => ev.2 = 0) evs ++ evs2)) = tokens /\
  concat ((fun ev => pos ev.1) <$> (filter (fun ev => ev.2 = 0) evs ++ evs2))
  = seqZ (g_n_past st) n.
Proof.
  cbv zeta. intros Hctx HB Hn HP HPn Hrun Hctx1 HB1 Hrun2 ->.
  rewrite (decode_run _ _ _ _ Hctx) in Hrun.
  destruct (decode_loop _ _ _ _ _ _ _) as [[[[r c] p] e]|] eqn:Hloop; [|done].
  injection Hrun as -> <- ->.
  destruct (decode_loop_status tokens _ HB Hn fuel ctx (g_n_past st) 0 res c p evs
              ltac:(lia) HP ltac:(lia) Hloop)
    as (_ & _ & -> & Hbound).
  destruct (decode_loop_evaluated tokens _ HB Hn fuel ctx (g_n_past st) 0 res c _ evs
              ltac:(lia) HP ltac:(lia) Hloop)
    as (_ & _ & _ & Hetok & Hepos).
  cbn [g_n_past set_g_n_past] in *.
  replace (g_n_past st + tokens_evaluated evs - g_n_past st)
    with (tokens_evaluated evs) in * by lia.
  set (k := tokens_evaluated evs) in *.
  rewrite drop_0 in Hetok.
  assert (Hlen : Z.of_nat (length (drop (Z.to_nat k) tokens)) = Z.of_nat (length tokens) - k).
  { rewrite length_drop. lia. }
  rewrite (decode_run _ _ _ _ Hctx1) in Hrun2.
  destruct (decode_loop fuel2 _ _ _ _ _ _) as [[[[r2 c2] p2] e2]|] eqn:Hloop2; [|done].
  injection Hrun2 as -> <- ->.
  cbn [g_n_past set_g_n_past] in Hloop2.
  assert (Hn2 : Z.of_nat (length (drop (Z.to_nat k) tokens)) <= INT32_MAX) by lia.
  assert (HP2 : in_int32 (g_n_past st + k)) by int32_lia.
  pose proof (decode_loop_evaluated (drop (Z.to_nat k) tokens) _ HB1 Hn2 fuel2 ctx1
                (g_n_past st + k) 0 0 c2 p2 evs2 ltac:(lia) HP2 ltac:(lia) Hloop2)
    as ([Hall _] & _).
  specialize (Hall eq_refl).
  destruct (decode_loop_success (drop (Z.to_nat k) tokens) _ HB1 Hn2 fuel2 ctx1
              (g_n_past st + k) 0 0 c2 p2 evs2 ltac:(lia) HP2 ltac:(lia) Hloop2 Hall)
    as (_ & -> & _ & Htok2 & Hpos2).
  rewrite drop_0 in Htok2. rewrite Z.sub_0_r, Hlen in *.
  cbn [g_n_past set_g_n_past].
  split; [lia|]. split; [lia|].
  rewrite !fmap_app, !concat_app, Hetok, Hepos, Htok2, Hpos2.
  split; [apply take_drop|].
  rewrite <- seqZ_app by lia. f_equal. lia.
Qed.

(** X12.  Feeding a prompt in several calls is the same as feeding it in one.
    When decode of a first part and then of a second part both return
    0, and decode of the two parts as one sequence from the same state
    returns 0 as well, the tokens evaluated, their cache positions and
    the cache position at the end are the same. *)
Theorem decode_in_parts
    (fuel1 fuel2 fuel : nat) (st st1 st2 st' : globals) (ctx ctx1 : llama_context)
    (part1 part2 : list llama_token) (evs1 evs2 evs : list (llama_batch * Z)) :
  let n := Z.of_nat (length (part1 ++ part2)) in
  g_ctx st = Some ctx ->
  0 < wrap32 (llama_n_batch ctx) ->
  n <= INT32_MAX ->
  in_int32 (g_n_past st) ->
  g_n_past st + n <= INT32_MAX ->
  Java_com_microllm_app_LlamaNative_decode fuel1 st part1 = Some (0, st1, evs1) ->
  g_ctx st1 = Some ctx1 ->
  0 < wrap32 (llama_n_batch ctx1) ->
  Java_com_microllm_app_LlamaNative_decode fuel2 st1 part2 = Some (0, st2, evs2) ->
  Java_com_microllm_app_LlamaNative_decode fuel st (part1 ++ part2) = Some (0, st', evs) ->
  g_n_past st2 = g_n_past st' /\
  concat ((fun ev => token ev.1) <$> (evs1 ++ evs2))
  = concat ((fun ev => token ev.1) <$> evs) /\
  concat ((fun ev => pos ev.1) <$> (evs1 ++ evs2))
  = concat ((fun ev => pos ev.1) <$> evs).
Proof.
  cbv zeta. rewrite length_app, Nat2Z.inj_add.
  intros Hctx HB Hn' HP HPn Hrun1 Hctx1 HB1 Hrun2 Hrun.
  assert (Hn1 : Z.of_nat (length part1) <= INT32_MAX) by lia.
  assert (Hn2 : Z.of_nat (length part2) <= INT32_MAX) by lia.
  assert (Hn : Z.of_nat (length (part1 ++ part2)) <= INT32_MAX).
  { rewrite length_app, Nat2Z.inj_add. lia. }
  rewrite (decode_run _ _ _ _ Hctx) in Hrun1.
  rewrite (decode_run _ _ _ _ Hctx) in Hrun.
  destruct (decode_loop fuel1 _ _ _ _ _ _) as [[[[r c] p] e]|] eqn:Hloop1; [|done].
  injection Hrun1 as -> <- ->.
  destruct (decode_loop fuel _ _ _ _ _ _) as [[[[r' c'] p'] e']|] eqn:Hloop; [|done].
  injection Hrun as -> <- ->.
  rewrite (decode_run _ _ _ _ Hctx1) in Hrun2.
  destruct (decode_loop fuel2 _ _ _ _ _ _) as [[[[r2 c2] p2] e2]|] eqn:Hloop2; [|done].
  injection Hrun2 as -> <- ->.
  cbn [g_n_past set_g_n_past] in *.
  pose proof (decode_loop_evaluated part1 _ HB Hn1 fuel1 ctx (g_n_past st) 0 0 c p evs1
                ltac:(lia) HP ltac:(lia) Hloop1) as ([Hall1 _] & _).
  destruct (decode_loop_success part1 _ HB Hn1 fuel1 ctx (g_n_past st) 0 0 c p evs1
              ltac:(lia) HP ltac:(lia) Hloop1 (Hall1 eq_refl))
    as (_ & -> & _ & Htok1 & Hpos1).
  pose proof (decode_loop_evaluated (part1 ++ part2) _ HB Hn fuel ctx (g_n_past st) 0 0
                c' p' evs ltac:(lia) HP
                ltac:(rewrite length_app, Nat2Z.inj_add; lia) Hloop) as ([Hall _] & _).
  destruct (decode_loop_success (part1 ++ part2) _ HB Hn fuel ctx (g_n_past st) 0 0
              c' p' evs ltac:(lia) HP
              ltac:(rewrite length_app, Nat2Z.inj_add; lia) Hloop (Hall eq_refl))
    as (_ & -> & _ & Htok & Hpos).
  rewrite Z.sub_0_r in *.
  assert (HP1 : in_int32 (g_n_past st + Z.of_nat (length part1))) by int32_lia.
  pose proof (decode_loop_evaluated part2 _ HB1 Hn2 fuel2 ctx1 _ 0 0 c2 p2 evs2
                ltac:(lia) HP1 ltac:(lia) Hloop2) as ([Hall2 _] & _).
  destruct (decode_loop_success part2 _ HB1 Hn2 fuel2 ctx1 _ 0 0 c2 p2 evs2
              ltac:(lia) HP1 ltac:(lia) Hloop2 (Hall2 eq_refl))
    as (_ & -> & _ & Htok2 & Hpos2).
  rewrite Z.sub_0_r in *. rewrite drop_0 in *.
  rewrite !fmap_app, !concat_app, Htok1, Hpos1, Htok2, Hpos2, Htok, Hpos.
  rewrite length_app, Nat2Z.inj_add.
  split; [lia|]. split; [done|].
  rewrite <- seqZ_app by lia. done.
Qed.

(** X13.  clearContext puts the cache position back to 0 and keeps the
    model, the sampler and whether a context is there; a decode that
    follows and returns 0 evaluates its tokens at the positions from 0
    on, whatever the cache position was before. *)
Theorem clearContext_restarts_positions
    (st : globals) (fuel : nat) (tokens : list llama_token) (ctx : llama_context) :
  let st0 := Java_com_microllm_app_LlamaNative_clearContext st in
  let n := Z.of_nat (length tokens) in
  g_ctx st0 = Some ctx ->
  0 < wrap32 (llama_n_batch ctx) ->
  n <= INT32_MAX ->
  n <= Z.of_nat fuel ->
  g_n_past st0 = 0 /\
  g_model st0 = g_model st /\
  g_sampler st0 = g_sampler st /\
  Java_com_microllm_app_LlamaNative_isLoaded st0
  = Java_com_microllm_app_LlamaNative_isLoaded st /\
  exists res st' evs,
    Java_com_microllm_app_LlamaNative_decode fuel st0 tokens = Some (res, st', evs) /\
    (res = 0 ->
     g_n_past st' = n /\
     concat ((fun ev => pos ev.1) <$> evs) = seqZ 0 n).
Proof.
  cbv zeta. intros Hctx HB Hn Hfuel.
  assert (Hframe :
    g_n_past (Java_com_microllm_app_LlamaNative_clearContext st) = 0 /\
    g_model (Java_com_microllm_app_LlamaNative_clearContext st) = g_model st /\
    g_sampler (Java_com_microllm_app_LlamaNative_clearContext st) = g_sampler st /\
    Java_com_microllm_app_LlamaNative_isLoaded
      (Java_com_microllm_app_LlamaNative_clearContext st)
    = Java_com_microllm_app_LlamaNative_isLoaded st).
  { unfold Java_com_microllm_app_LlamaNative_clearContext,
      Java_com_microllm_app_LlamaNative_isLoaded.
    destruct st as [m [c|] s p]; cbn; [|done].
    destruct (llama_memory_clear c); cbn; by destruct m. }
  destruct Hframe as (Hp & Hm & Hs & Hl).
  repeat (split; [done|]).
  rewrite (decode_run _ _ _ _ Hctx). rewrite Hp.
  destruct (decode_loop_total tokens _ HB Hn fuel ctx 0 0)
    as [[[[res ctx'] P'] evs] Hrun]; [lia | lia |].
  rewrite Hrun. eexists _, _, _. split; [done|].
  intros ->.
  assert (HP : in_int32 0) by (split; vm_compute; discriminate).
  pose proof (decode_loop_evaluated tokens _ HB Hn fuel ctx 0 0 0 ctx' P' evs
                ltac:(lia) HP ltac:(lia) Hrun) as ([Hall _] & _).
  destruct (decode_loop_success tokens _ HB Hn fuel ctx 0 0 0 ctx' P' evs
              ltac:(lia) HP ltac:(lia) Hrun (Hall eq_refl))
    as (_ & -> & _ & _ & Hpos).
  rewrite Z.sub_0_r in *. cbn [g_n_past set_g_n_past]. split; [lia|done].
Qed.

End decode_run_properties.

(** A session: load, decode, clear, unload, new sampler. *)
Lemma session_handles_together_witness :
  exists st,
    llama_session.after_calls (H := scripted.llama [] scripted.no_piece)
      llama_jni.initial_globals
      [llama_session.call_loadModel "model.gguf" 2048 4;
       llama_session.call_decode 5 [11; 12; 13];
       llama_session.call_clearContext;
       llama_session.call_unloadModel;
       llama_session.call_resetSampler 0.5 0.5 40] = Some st /\
    ((is_Some (llama_jni.g_model st) <-> is_Some (llama_jni.g_ctx st)) /\
     (llama_jni.Java_com_microllm_app_LlamaNative_isLoaded st = true
      <-> is_Some (llama_jni.g_model st)) /\
     (is_Some (llama_jni.g_model st) -> is_Some (llama_jni.g_sampler st)) /\
     (llama_jni.g_model st = None -> llama_jni.g_n_past st = 0)).
Proof.
  eexists. split; [reflexivity|].
  apply (session_handles_together (H := scripted.llama [] scripted.no_piece)
           [llama_session.call_loadModel "model.gguf" 2048 4;
            llama_session.call_decode 5 [11; 12; 13];
            llama_session.call_clearContext;
            llama_session.call_unloadModel;
            llama_session.call_resetSampler 0.5 0.5 40]).
  reflexivity.
Defined.

(** After load and decode, sample draws token 0 from the counting
    sampler and has it accepted. *)
Lemma session_sample_witness :
  exists st,
    llama_session.after_calls (H := scripted.llama [] scripted.no_piece)
      llama_jni.initial_globals
      [llama_session.call_loadModel "model.gguf" 2048 4;
       llama_session.call_decode 5 [11; 12; 13]] = Some st /\
    llama_session.Java_com_microllm_app_LlamaNative_sample
      (H0 := scripted_sampler.counting [] scripted.no_piece) 0 st
    = (0, 1, [llama_session.sampler_sample (-1) 0; llama_session.sampler_accept 0]).
Proof.
  eexists. split; [reflexivity|].
  pose proof (session_sample (H0 := scripted_sampler.counting [] scripted.no_piece)
                [llama_session.call_loadModel "model.gguf" 2048 4;
                 llama_session.call_decode 5 [11; 12; 13]] _ 0 eq_refl) as Hs.
  cbn in Hs. destruct Hs as (ctx & smpl & _ & _ & Hs). exact Hs.
Defined.

(** Five tokens in chunks of two, the second chunk failing with status
    7: the result is not 0 and the cache position has advanced by two
    tokens only. *)
Lemma decode_zero_iff_complete_witness :
  exists res st' evs,
    llama_jni.Java_com_microllm_app_LlamaNative_decode 5 (scripted.loaded 2 [0; 7] 10)
      [11; 12; 13; 14; 15] = Some (res, st', evs) /\
    (res = 0 <-> Forall (fun ev => ev.2 = 0) evs) /\
    (res = 0 <-> llama_jni.g_n_past st' = 10 + 5) /\
    10 <= llama_jni.g_n_past st' <= 10 + 5.
Proof.
  apply (decode_zero_iff_complete 5 (scripted.loaded 2 [0; 7] 10)
           (scripted.mk_context 2048 2 [0; 7]) [11; 12; 13; 14; 15]).
  - reflexivity.
  - reflexivity.
  - vm_compute. discriminate.
  - split; vm_compute; discriminate.
  - vm_compute. discriminate.
  - vm_compute. discriminate.
Defined.

(** The same call: the two chunks handed over are a prefix of the
    sequence at the positions from 10 on. *)
Lemma decode_submits_prefix_in_order_witness :
  exists res st' evs m,
    llama_jni.Java_com_microllm_app_LlamaNative_decode 5 (scripted.loaded 2 [0; 7] 10)
      [11; 12; 13; 14; 15] = Some (res, st', evs) /\
    0 <= m <= 5 /\
    (res = 0 -> m = 5) /\
    concat ((fun ev => llama_jni.token ev.1) <$> evs)
    = take (Z.to_nat m) [11; 12; 13; 14; 15] /\
    concat ((fun ev => llama_jni.pos ev.1) <$> evs) = seqZ 10 m /\
    llama_jni.g_n_past st' - 10 <= m /\
    is_Some (llama_jni.g_ctx st') /\
    llama_jni.g_model st' = Some "model.gguf"%string /\
    llama_jni.g_sampler st' = Some llama_jni.default_sampler_chain.
Proof.
  apply (decode_submits_prefix_in_order 5 (scripted.loaded 2 [0; 7] 10)
           (scripted.mk_context 2048 2 [0; 7]) [11; 12; 13; 14; 15]).
  - reflexivity.
  - reflexivity.
  - vm_compute. discriminate.
  - split; vm_compute; discriminate.
  - vm_compute. discriminate.
  - vm_compute. discriminate.
Defined.

(** The same call stops after two tokens; decode of the other three
    then leaves all five evaluated at the positions 10 to 14. *)
Lemma decode_resumes_where_it_stopped_witness :
  exists st1 evs st2 evs2,
    llama_jni.Java_com_microllm_app_LlamaNative_decode 5 (scripted.loaded 2 [0; 7] 10)
      [11; 12; 13; 14; 15] = Some (7, st1, evs) /\
    llama_jni.Java_com_microllm_app_LlamaNative_decode 3 st1 [13; 14; 15]
    = Some (0, st2, evs2) /\
    llama_jni.g_n_past st2 = 15 /\
    concat ((fun ev => llama_jni.token ev.1) <$> (filter (fun ev => ev.2 = 0) evs ++ evs2))
    = [11; 12; 13; 14; 15] /\
    concat ((fun ev => llama_jni.pos ev.1) <$> (filter (fun ev => ev.2 = 0) evs ++ evs2))
    = [10; 11; 12; 13; 14].
Proof.
  eexists _, _, _, _. split; [reflexivity|]. split; [reflexivity|].
  eapply (decode_resumes_where_it_stopped 5 3 (scripted.loaded 2 [0; 7] 10) _ _
            (scripted.mk_context 2048 2 [0; 7]) (scripted.mk_context 2048 2 [])
            [11; 12; 13; 14; 15] 7 0).
  - reflexivity.
  - reflexivity.
  - vm_compute. discriminate.
  - split; vm_compute; discriminate.
  - vm_compute. discriminate.
  - reflexivity.
  - reflexivity.
  - reflexivity.
  - reflexivity.
  - reflexivity.
Defined.

(** Five tokens as two and three, and as one sequence. *)
Lemma decode_in_parts_witness :
  exists st1 evs1 st2 evs2 st' evs,
    llama_jni.Java_com_microllm_app_LlamaNative_decode 5 (scripted.loaded 2 [] 10)
      [11; 12] = Some (0, st1, evs1) /\
    llama_jni.Java_com_microllm_app_LlamaNative_decode 5 st1 [13; 14; 15]
    = Some (0, st2, evs2) /\
    llama_jni.Java_com_microllm_app_LlamaNative_decode 5 (scripted.loaded 2 [] 10)
      [11; 12; 13; 14; 15] = Some (0, st', evs) /\
    llama_jni.g_n_past st2 = llama_jni.g_n_past st' /\
    concat ((fun ev => llama_jni.token ev.1) <$> (evs1 ++ evs2))
    = concat ((fun ev => llama_jni.token ev.1) <$> evs) /\
    concat ((fun ev => llama_jni.pos ev.1) <$> (evs1 ++ evs2))
    = concat ((fun ev => llama_jni.pos ev.1) <$> evs).
Proof.
  eexists _, _, _, _, _, _.
  split; [reflexivity|]. split; [reflexivity|]. split; [reflexivity|].
  eapply (decode_in_parts 5 5 5 (scripted.loaded 2 [] 10) _ _ _
            (scripted.mk_context 2048 2 []) (scripted.mk_context 2048 2 [])
            [11; 12] [13; 14; 15]).
  - reflexivity.
  - reflexivity.
  - vm_compute. discriminate.
  - split; vm_compute; discriminate.
  - vm_compute. discriminate.
  - reflexivity.
  - reflexivity.
  - reflexivity.
  - reflexivity.
  - reflexivity.
Defined.

(** At cache position 10, clearContext and then decode of three tokens:
    they are evaluated at the positions 0, 1, 2. *)
Lemma clearContext_restarts_positions_witness :
  llama_jni.g_n_past
    (llama_jni.Java_com_microllm_app_LlamaNative_clearContext (scripted.loaded 2 [] 10)) = 0 /\
  exists st' evs,
    llama_jni.Java_com_microllm_app_LlamaNative_decode 3
      (llama_jni.Java_com_microllm_app_LlamaNative_clearContext (scripted.loaded 2 [] 10))
      [11; 12; 13] = Some (0, st', evs) /\
    llama_jni.g_n_past st' = 3 /\
    concat ((fun ev => llama_jni.pos ev.1) <$> evs) = [0; 1; 2].
Proof.
  destruct (clearContext_restarts_positions (scripted.loaded 2 [] 10) 3 [11; 12; 13]
              (scripted.mk_context 2048 2 []))
    as (Hp & _ & _ & _ & res & st' & evs & Hrun & Hok).
  - reflexivity.
  - reflexivity.
  - vm_compute. discriminate.
  - vm_compute. discriminate.
  - split; [exact Hp|].
    assert (Hres : res = 0).
    { vm_compute in Hrun. by injection Hrun as <- _ _. }
    subst res. destruct (Hok eq_refl) as [Hn Hpos].
    exists st', evs. split; [exact Hrun|]. split; [exact Hn|exact Hpos].
Defined.

(** ** llama_jni.cpp: strings from bytes *)

Section token_text_fallbacks.
Import jni llama_jni.
Context `{llama_h}.

(** X15.  new_string_from_utf8_bytes falls back to [NewStringUTF] of the
    empty string, which is the empty string: for a null pointer, for a
    length that is not positive, and whenever one of its JNI calls
    fails or leaves an exception pending. *)
Theorem new_string_from_utf8_bytes_falls_back
    (env : JNIEnv) (bytes : option (list byte)) (len : Z) :
  bytes = None \/ len <= 0 \/ ~ jni_healthy env ->
  new_string_from_utf8_bytes env bytes len = NewStringUTF [] /\
  NewStringUTF [] = Returned [].
Proof.
  intros Hcase. split; [|done].
  unfold new_string_from_utf8_bytes, jni_healthy in *.
  destruct bytes as [data|]; [|done].
  destruct (Z.leb_spec len 0) as [Hle|Hgt]; [done|].
  destruct Hcase as [?|[?|Henv]]; [done|lia|].
  destruct env as [[] [] [] [] [] [] [] []]; cbn in *; try done.
  by destruct Henv.
Qed.

(** X16.  A piece of ASCII bytes comes through unchanged: with a model
    loaded and the JNI calls succeeding, tokenToString returns the
    string whose characters are the bytes of the piece.  Without a
    model it returns the empty string. *)
Theorem tokenToString_ascii_piece
    (env : JNIEnv) (st : globals) (token : Z) :
  (g_model st = None ->
   Java_com_microllm_app_LlamaNative_tokenToString env st token = Returned []) /\
  (forall model : llama_model,
      let piece := llama_token_to_piece model token (replicate 4096 Byte.x00) 4096 0 true in
      let bytes := take (Z.to_nat piece.1) piece.2 in
      g_model st = Some model ->
      jni_healthy env ->
      0 <= piece.1 ->
      Forall (fun b => byte_val b < 128) bytes ->
      Java_com_microllm_app_LlamaNative_tokenToString env st token
      = Returned (byte_val <$> bytes)).
Proof.
  unfold Java_com_microllm_app_LlamaNative_tokenToString.
  split.
  - by intros ->.
  - cbv zeta. intros model -> Henv.
    destruct (llama_token_to_piece model token _ 4096 0 true) as [len buf].
    cbn [fst snd]. intros Hlen Hascii.
    destruct (Z.ltb_spec len 0) as [?|_]; [lia|].
    destruct (new_string_from_utf8_bytes_returns env buf len) as (s & -> & _ & Hok).
    rewrite (Hok Hlen Henv). unfold String_new_UTF_8.
    rewrite utf8_decode_ascii; [done|].
    by apply Forall_fmap.
Qed.

End token_text_fallbacks.

(** Two bytes, and an exception pending after the constructor: the
    empty string. *)
Lemma new_string_from_utf8_bytes_falls_back_witness :
  llama_jni.new_string_from_utf8_bytes scripted_sampler.exception_env
    (Some [Byte.x48; Byte.x69]) 2 = jni.NewStringUTF [] /\
  jni.NewStringUTF [] = jni.Returned [].
Proof.
  apply (new_string_from_utf8_bytes_falls_back scripted_sampler.exception_env
           (Some [Byte.x48; Byte.x69]) 2).
  right. right. unfold llama_jni.jni_healthy. cbn.
  intros (_ & _ & _ & _ & _ & _ & _ & Hpending). discriminate Hpending.
Defined.

(** The token whose piece is [Hi]: the string [Hi]. *)
Lemma tokenToString_ascii_piece_witness :
  llama_jni.Java_com_microllm_app_LlamaNative_tokenToString
    scripted.healthy_env scripted_sampler.loaded_hi 1
  = jni.Returned [72; 105].
Proof.
  destruct (tokenToString_ascii_piece
              (H := scripted.llama [] scripted_sampler.hi_piece)
              scripted.healthy_env scripted_sampler.loaded_hi 1) as [_ Hloaded].
  apply (Hloaded "model.gguf"%string).
  - reflexivity.
  - repeat split.
  - vm_compute. discriminate.
  - repeat constructor.
Defined.

(** ** llama_jni.cpp: a session with nothing loaded *)

Section session_defaults.
Import jni llama_jni llama_session.
Context `{llama_sampling_h}.

(** X6.  In a session that starts with nothing loaded, whenever isLoaded
    answers false every entry point answers with its default and
    leaves the globals as they are: decode and sample return -1 without
    a call of the engine, tokenToString returns the empty string,
    getEosToken returns 2, getContextSize returns 0, and clearContext
    changes nothing. *)
Theorem session_unloaded_defaults
    (cs : list call) (st : globals) (env : JNIEnv) (rng : sampler_state)
    (fuel : nat) (tokens : list llama_token) (token : Z) :
  after_calls initial_globals cs = Some st ->
  Java_com_microllm_app_LlamaNative_isLoaded st = false ->
  Java_com_microllm_app_LlamaNative_decode fuel st tokens = Some (-1, st, []) /\
  Java_com_microllm_app_LlamaNative_sample rng st = (-1, rng, []) /\
  Java_com_microllm_app_LlamaNative_tokenToString env st token = Returned [] /\
  Java_com_microllm_app_LlamaNative_getEosToken st = 2 /\
  Java_com_microllm_app_LlamaNative_getContextSize st = 0 /\
  Java_com_microllm_app_LlamaNative_clearContext st = st.
Proof.
  intros Hrun.
  destruct (handles_together_session cs initial_globals st) as [Hnone Hsome];
    [done|by intros [? [=]]|done|].
  unfold Java_com_microllm_app_LlamaNative_isLoaded.
  destruct st as [[m|] c s p]; cbn [g_model g_ctx g_n_past g_sampler] in *.
  - destruct Hsome as [[c' ->] _]; [by eauto|]. done.
  - destruct Hnone as [-> ->]; [done|]. done.
Qed.

End session_defaults.

(** After load and unload every entry point answers with its default. *)
Lemma session_unloaded_defaults_witness :
  exists st,
    llama_session.after_calls (H := scripted.llama [] scripted.no_piece)
      llama_jni.initial_globals
      [llama_session.call_loadModel "model.gguf" 2048 4;
       llama_session.call_decode 5 [11; 12; 13];
       llama_session.call_resetSampler 0.5 0.5 40;
       llama_session.call_unloadModel] = Some st /\
    llama_jni.Java_com_microllm_app_LlamaNative_decode 5 st [11] = Some (-1, st, []) /\
    llama_session.Java_com_microllm_app_LlamaNative_sample
      (H0 := scripted_sampler.counting [] scripted.no_piece) 0 st = (-1, 0, []) /\
    llama_jni.Java_com_microllm_app_LlamaNative_tokenToString scripted.healthy_env st 1
    = jni.Returned [] /\
    llama_session.Java_com_microllm_app_LlamaNative_getEosToken st = 2 /\
    llama_jni.Java_com_microllm_app_LlamaNative_getContextSize st = 0 /\
    llama_jni.Java_com_microllm_app_LlamaNative_clearContext st = st.
Proof.
  eexists. split; [reflexivity|].
  apply (session_unloaded_defaults (H0 := scripted_sampler.counting [] scripted.no_piece)
           [llama_session.call_loadModel "model.gguf" 2048 4;
            llama_session.call_decode 5 [11; 12; 13];
            llama_session.call_resetSampler 0.5 0.5 40;
            llama_session.call_unloadModel]).
  - reflexivity.
  - reflexivity.
Defined.

(** ** whisper_jni.cpp: what a transcription returns *)

Section transcription_results.
Import jni whisper_jni transcribe_spec whisper_session.
Context `{whisper_h}.

(** The results of a run, whatever the callback does. *)
Lemma run_steps_results (steps : list (list segment_text * Z)) :
  forall (ctx : whisper_context) (cb : bool) (ud : option stream_callback_ctx)
         (ctx' : whisper_context) (ud' : option stream_callback_ctx) (calls : list jstring),
    run_steps steps ctx cb ud = Returned (ctx', ud', calls) ->
    ctx' = mk_whisper_context (model ctx) (result_all ctx ++ concat (fst <$> steps)).
Proof.
  induction steps as [|[segs n_new] steps IH]; intros ctx cb ud ctx' ud' calls Hrun.
  - cbn in Hrun. injection Hrun as <- _ _. rewrite app_nil_r. by destruct ctx.
  - cbn [run_steps] in Hrun.
    destruct (if cb then _ else _) as [[ud1 calls1]|]; [|done].
    cbn [bind] in Hrun.
    destruct (run_steps steps _ cb ud1) as [[[ctx2 ud2] calls2]|] eqn:Hrec; [|done].
    cbn [bind] in Hrun. injection Hrun as <- _ _.
    apply IH in Hrec as ->. cbn. by rewrite (assoc_L (++)).
Qed.

(** The string made of the segments of a context. *)
Lemma aggregate_segments_text (m : whisper_model) (segs : list segment_text) :
  Z.of_nat (length segs) <= INT32_MAX ->
  aggregate_segments (mk_whisper_context m segs)
  = bind (NewStringUTF (segments_text segs)) (fun s => Returned (Some s)).
Proof.
  intros Hmax. unfold aggregate_segments, whisper_full_n_segments. cbn [result_all].
  rewrite wrap32_id by int32_lia.
  pose proof (append_segments_spec (mk_whisper_context m segs) [] segs [] eq_refl) as Happ.
  cbn [length app] in Happ. change (Z.of_nat 0) with 0 in Happ.
  by rewrite Happ.
Qed.

(** X17.  transcribe with a model loaded, samples and a sample rate of 16000
    calls the engine once, with the threads of loadModel, the language
    of the tag, the translate flag and no printing, on one float for
    each sample.  When the engine reports a status other than 0 it
    returns failure; otherwise it returns the Java string of the texts
    of the segments of this run, in order, a segment without text
    adding nothing; the segments of the run before are gone.  The sink
    is never called, and the model stays loaded. *)
Theorem transcribe_returns_text_of_run
    (st : globals) (wctx : whisper_context) (pcm16 : list Z)
    (languageTag : option string) (translateToEnglish : bool) :
  let params := full_params st translateToEnglish languageTag in
  let audio := pcm16_to_f32 pcm16 (Z.of_nat (length pcm16)) in
  let run := whisper_full_steps (model wctx) params audio in
  g_wctx st = Some wctx ->
  pcm16 <> [] ->
  Z.of_nat (length (concat (fst <$> run.1))) <= INT32_MAX ->
  Java_com_microllm_app_WhisperNative_transcribePcm16 true st pcm16 16000
    languageTag translateToEnglish
  = mk_effect
      (if run.2 =? 0
       then bind (NewStringUTF (cumulative_text run.1)) (fun s => Returned (Some s))
       else Returned None)
      (mk_globals (Some (mk_whisper_context (model wctx) (concat (fst <$> run.1))))
         (g_threads st))
      [(params, audio)] [] /\
  length audio = length pcm16 /\
  params = {| n_threads := g_threads st; translate := translateToEnglish;
              print_progress := false; print_realtime := false;
              print_timestamps := false; language := language_of_tag languageTag |}.
Proof.
  cbv zeta. intros Hctx Hne Hmax.
  split; [|split; [|done]].
  - unfold Java_com_microllm_app_WhisperNative_transcribePcm16. rewrite Hctx. cbn [negb].
    destruct (Z.leb_spec (Z.of_nat (length pcm16)) 0) as [Hle|_];
      [destruct pcm16; [done|cbn [length] in Hle; lia]|].
    cbn [Z.eqb Pos.eqb negb]. unfold whisper_full.
    destruct (whisper_full_steps _ _ _) as [steps res]. cbn [fst snd] in *.
    rewrite run_steps_silent by reflexivity. cbn [bind model result_all app].
    destruct (res =? 0); cbn [negb]; [|done].
    by rewrite aggregate_segments_text.
  - unfold pcm16_to_f32. rewrite length_fmap, length_seqZ. lia.
Qed.


(** The thread count and the model after a transcription. *)
Lemma transcription_globals
    (HAS_WHISPER : bool) (st : globals) (pcm16 : list Z) (sampleRate : Z)
    (languageTag : option string) (translateToEnglish : bool)
    (callbackObj : option jobject) :
  let eff :=
    Java_com_microllm_app_WhisperNative_transcribePcm16Streaming HAS_WHISPER st pcm16
      sampleRate languageTag translateToEnglish callbackObj in
  g_threads (globals_after eff) = g_threads st /\
  model <$> g_wctx (globals_after eff) = model <$> g_wctx st.
Proof.
  cbv zeta.
  unfold Java_com_microllm_app_WhisperNative_transcribePcm16Streaming.
  destruct HAS_WHISPER; cbn [negb]; [|done].
  destruct (g_wctx st) as [wctx|] eqn:Hctx; [|cbn; by rewrite Hctx].
  destruct (Z.leb_spec (Z.of_nat (length pcm16)) 0) as [_|Hgt]; [cbn; by rewrite Hctx|].
  destruct (negb (sampleRate =? 16000)); [cbn; by rewrite Hctx|].
  unfold whisper_full.
  destruct (whisper_full_steps _ _ _) as [steps res].
  destruct callbackObj as [obj|].
  - destruct (run_steps steps _ true _) as [[[w u] calls]|] eqn:Hrun; cbn [bind].
    + apply run_steps_results in Hrun as ->. by destruct (negb (res =? 0)).
    + cbn. by rewrite Hctx.
  - rewrite (run_steps_silent steps _ false None) by reflexivity. cbn [bind].
    by destruct (negb (res =? 0)).
Qed.

(** X19.  What a transcription leaves as it was, one-shot or streaming and
    whatever its arguments: the thread count, whether a model is
    loaded, and the model itself.  It calls the engine at most once,
    and only in a build with the engine, with a model loaded, samples
    and a sample rate of 16000; and without a sink object nothing is
    handed to a sink. *)
Theorem transcription_keeps_model_and_threads
    (HAS_WHISPER : bool) (st : globals) (pcm16 : list Z) (sampleRate : Z)
    (languageTag : option string) (translateToEnglish : bool)
    (callbackObj : option jobject) :
  let eff :=
    Java_com_microllm_app_WhisperNative_transcribePcm16Streaming HAS_WHISPER st pcm16
      sampleRate languageTag translateToEnglish callbackObj in
  g_threads (globals_after eff) = g_threads st /\
  Java_com_microllm_app_WhisperNative_isLoaded (globals_after eff)
  = Java_com_microllm_app_WhisperNative_isLoaded st /\
  model <$> g_wctx (globals_after eff) = model <$> g_wctx st /\
  (length (engine_calls eff) <= 1)%nat /\
  (engine_calls eff <> [] ->
   HAS_WHISPER = true /\ is_Some (g_wctx st) /\ pcm16 <> [] /\ sampleRate = 16000) /\
  (callbackObj = None -> sink_calls eff = []).
Proof.
  cbv zeta.
  unfold Java_com_microllm_app_WhisperNative_transcribePcm16Streaming,
    Java_com_microllm_app_WhisperNative_isLoaded.
  destruct HAS_WHISPER; cbn [negb];
    [|cbn; rewrite ?Hctx; repeat split; first [done | lia]].
  destruct (g_wctx st) as [wctx|] eqn:Hctx;
    [|cbn; rewrite ?Hctx; repeat split; first [done | lia]].
  destruct (Z.leb_spec (Z.of_nat (length pcm16)) 0) as [_|Hgt];
    [cbn; rewrite ?Hctx; repeat split; first [done | lia]|].
  destruct (Z.eqb_spec sampleRate 16000) as [->|_]; cbn [negb];
    [|cbn; rewrite ?Hctx; repeat split; first [done | lia]].
  assert (Hne : pcm16 <> []) by (intros ->; cbn in Hgt; lia).
  unfold whisper_full.
  destruct (whisper_full_steps _ _ _) as [steps res].
  destruct callbackObj as [obj|].
  - destruct (run_steps steps _ true _) as [[[w u] calls]|] eqn:Hrun; cbn [bind].
    + apply run_steps_results in Hrun as ->.
      destruct (negb (res =? 0)); cbn; repeat split; first [done | lia | by eauto].
    + cbn. rewrite ?Hctx. cbn. repeat split; first [done | lia | by eauto].
  - rewrite (run_steps_silent steps _ false None) by reflexivity. cbn [bind].
    destruct (negb (res =? 0)); cbn; repeat split; first [done | lia | by eauto].
Qed.

End transcription_results.

(** ** whisper_jni.cpp: loading and sessions *)

Section whisper_sessions.
Import jni whisper_jni transcribe_spec whisper_session.
Context `{whisper_h}.

(** X20.  loadModel and the transcription that follows.  When loadModel
    returns true, the model is the one of the path, and a transcription
    of samples at 16000 runs that model with the thread count given to
    loadModel.  When it returns false nothing is loaded any more, also
    when a model was loaded before, and a transcription returns failure
    without a call of the engine.  In both cases its result is what
    isLoaded answers afterwards, and the thread count is recorded. *)
Theorem loadModel_then_transcribe
    (st st1 : globals) (modelPath : string) (threads : Z) (ok : bool)
    (pcm16 : list Z) (languageTag : option string) (translateToEnglish : bool) :
  let eff :=
    Java_com_microllm_app_WhisperNative_transcribePcm16 true st1 pcm16 16000
      languageTag translateToEnglish in
  Java_com_microllm_app_WhisperNative_loadModel true st modelPath threads = (ok, st1) ->
  pcm16 <> [] ->
  Java_com_microllm_app_WhisperNative_isLoaded st1 = ok /\
  g_threads st1 = threads /\
  (ok = false ->
   whisper_init_from_file modelPath = None /\
   eff = mk_effect (Returned None) st1 [] []) /\
  (ok = true ->
   exists m,
     whisper_init_from_file modelPath = Some m /\
     g_wctx st1 = Some (mk_whisper_context m []) /\
     let params :=
       {| n_threads := threads; translate := translateToEnglish;
          print_progress := false; print_realtime := false;
          print_timestamps := false; language := language_of_tag languageTag |} in
     let audio := pcm16_to_f32 pcm16 (Z.of_nat (length pcm16)) in
     let run := whisper_full_steps m params audio in
     engine_calls eff = [(params, audio)] /\
     (run.2 <> 0 -> ret eff = Returned None) /\
     (run.2 = 0 ->
      Z.of_nat (length (concat (fst <$> run.1))) <= INT32_MAX ->
      ret eff = bind (NewStringUTF (cumulative_text run.1)) (fun s => Returned (Some s)))).
Proof.
  cbv zeta. unfold Java_com_microllm_app_WhisperNative_loadModel. cbn [negb g_threads g_wctx].
  intros Hload Hne.
  assert (Hlen : (Z.of_nat (length pcm16) <=? 0) = false).
  { destruct pcm16; [done|]. apply Z.leb_gt. cbn [length]. lia. }
  destruct (whisper_init_from_file modelPath) as [m|]; injection Hload as <- <-.
  - split; [done|]. split; [done|]. split; [done|]. intros _.
    exists m. split; [done|]. split; [done|].
    unfold Java_com_microllm_app_WhisperNative_transcribePcm16.
    cbn [negb g_wctx g_threads]. rewrite Hlen. cbn [Z.eqb Pos.eqb negb].
    unfold whisper_full, full_params. cbn [model g_threads].
    destruct (whisper_full_steps m _ _) as [steps res]. cbn [fst snd].
    rewrite run_steps_silent by reflexivity. cbn [bind model result_all app].
    destruct (Z.eqb_spec res 0) as [->|Hres]; cbn [negb].
    + split; [done|]. split; [done|]. intros _ Hmax. cbn [ret].
      by rewrite aggregate_segments_text.
    + split; [done|]. split; [done|]. done.
  - split; [done|]. split; [done|]. split; [|done]. intros _. done.
Qed.

(** X21.  In a build without whisper.h, which is when isAvailable answers
    false, no sequence of calls loads a model or changes the globals,
    loadModel answers false and the transcriptions return failure
    without a call of the engine. *)
Theorem unavailable_build_does_nothing
    (HAS_WHISPER : bool) (cs : list call)
    (modelPath : string) (threads : Z) (pcm16 : list Z) (sampleRate : Z)
    (languageTag : option string) (translateToEnglish : bool)
    (callbackObj : option jobject) :
  let st := after_calls HAS_WHISPER initial_globals cs in
  Java_com_microllm_app_WhisperNative_isAvailable HAS_WHISPER = false ->
  st = initial_globals /\
  Java_com_microllm_app_WhisperNative_isLoaded st = false /\
  Java_com_microllm_app_WhisperNative_loadModel HAS_WHISPER st modelPath threads
  = (false, st) /\
  Java_com_microllm_app_WhisperNative_transcribePcm16 HAS_WHISPER st pcm16 sampleRate
    languageTag translateToEnglish
  = mk_effect (Returned None) st [] [] /\
  Java_com_microllm_app_WhisperNative_transcribePcm16Streaming HAS_WHISPER st pcm16
    sampleRate languageTag translateToEnglish callbackObj
  = mk_effect (Returned None) st [] [].
Proof.
  cbv zeta. unfold Java_com_microllm_app_WhisperNative_isAvailable.
  destruct HAS_WHISPER; [done|]. intros _.
  assert (Hst : after_calls false initial_globals cs = initial_globals).
  { unfold after_calls.
    induction cs as [|c cs IH]; [done|].
    cbn [fold_left]. by destruct c. }
  rewrite Hst. done.
Qed.

Lemma default_last_cons {A} (a x : A) (l : list A) :
  default a (last (x :: l)) = default x (last l).
Proof.
  revert a x. induction l as [|y l IH]; intros a x; [done|].
  change (last (x :: y :: l)) with (last (y :: l)).
  by rewrite !(IH _ y).
Qed.

(** The thread count and the model after a sequence of calls from any
    globals. *)
Lemma after_calls_last_load (cs : list call) (st0 : globals) :
  g_threads (after_calls true st0 cs)
  = default (g_threads st0)
      (last (omap (fun c => match c with
                            | call_loadModel _ threads => Some threads
                            | _ => None
                            end) cs)) /\
  model <$> g_wctx (after_calls true st0 cs)
  = default (model <$> g_wctx st0)
      (last (omap (fun c => match c with
                            | call_loadModel modelPath _ =>
                                Some (whisper_init_from_file modelPath)
                            | call_unloadModel => Some None
                            | _ => None
                            end) cs)).
Proof.
  unfold after_calls. revert st0.
  induction cs as [|c cs IH]; intros st0; [done|].
  cbn [fold_left omap list_omap]. destruct (IH (after_call true st0 c)) as [-> ->].
  destruct c as [path threads| |pcm sr lang tr|pcm sr lang tr cb]; cbn [after_call].
  - rewrite !default_last_cons.
    unfold Java_com_microllm_app_WhisperNative_loadModel. cbn [negb].
    by destruct (whisper_init_from_file path).
  - by rewrite default_last_cons.
  - change (Java_com_microllm_app_WhisperNative_transcribePcm16 true st0 pcm sr lang tr)
      with (Java_com_microllm_app_WhisperNative_transcribePcm16Streaming true st0 pcm sr
              lang tr None).
    by destruct (transcription_globals true st0 pcm sr lang tr None) as [-> ->].
  - by destruct (transcription_globals true st0 pcm sr lang tr cb) as [-> ->].
Qed.

(** X22.  In a build with whisper.h, whatever the calls of a session that
    starts with nothing loaded: the model loaded is what the last
    loadModel or unloadModel of the session left, the model of its path
    for a loadModel that found one and none otherwise; isLoaded answers
    accordingly; and the thread count is the one given to the last
    loadModel, successful or not, or 4 when there was none.
    Transcriptions in between change none of this. *)
Theorem session_model_is_last_load (cs : list call) :
  let st := after_calls true initial_globals cs in
  let loads :=
    omap (fun c => match c with
                   | call_loadModel modelPath _ => Some (whisper_init_from_file modelPath)
                   | call_unloadModel => Some None
                   | _ => None
                   end) cs in
  let threads :=
    omap (fun c => match c with
                   | call_loadModel _ threads => Some threads
                   | _ => None
                   end) cs in
  g_threads st = default 4 (last threads) /\
  model <$> g_wctx st = default None (last loads) /\
  Java_com_microllm_app_WhisperNative_isLoaded st
  = bool_decide (is_Some (default None (last loads))).
Proof.
  cbv zeta.
  destruct (after_calls_last_load cs initial_globals) as [Ht Hm].
  split; [done|]. split; [done|].
  cbn [g_wctx initial_globals fmap option_fmap option_map] in Hm. rewrite <- Hm.
  unfold Java_com_microllm_app_WhisperNative_isLoaded.
  by destruct (g_wctx _).
Qed.

End whisper_sessions.

(** ** whisper_jni.cpp: the language of a tag *)

Section language_tags.
Import Ascii whisper_jni.

Lemma index_hyphen_cons (c : Ascii.ascii) (s : string) :
  String.index 0 "-"%string (String c s)
  = if Ascii.ascii_dec "-"%char c then Some 0%nat
    else match String.index 0 "-"%string s with Some d => Some (S d) | None => None end.
Proof.
  change (String.index 0 "-"%string (String c s))
    with (if String.prefix "-"%string (String c s) then Some 0%nat
          else match String.index 0 "-"%string s with Some d => Some (S d) | None => None end).
  change (String.prefix "-"%string (String c s))
    with (if Ascii.ascii_dec "-"%char c then String.prefix EmptyString s else false).
  destruct (Ascii.ascii_dec "-"%char c); [|done].
  by destruct s.
Qed.

Lemma prefix_cons (c : Ascii.ascii) (s1 s2 : string) :
  String.prefix (String c s1) (String c s2) = String.prefix s1 s2.
Proof.
  change (String.prefix (String c s1) (String c s2))
    with (if Ascii.ascii_dec c c then String.prefix s1 s2 else false).
  by destruct (Ascii.ascii_dec c c).
Qed.

Lemma substring_all (s : string) : String.substring 0 (String.length s) s = s.
Proof. induction s as [|c s IH]; [done|]. cbn. by rewrite IH. Qed.

(** The part of a string before its first hyphen. *)
Lemma substring_before_hyphen (s : string) :
  forall d : nat,
    String.index 0 "-"%string s = Some d ->
    String.index 0 "-"%string (String.substring 0 d s) = None /\
    String.prefix (String.substring 0 d s) s = true /\
    s = String.append (String.substring 0 d s)
          (String "-"%char (String.substring (S d) (String.length s - S d) s)).
Proof.
  induction s as [|c s IH]; intros d; [done|].
  rewrite index_hyphen_cons.
  destruct (Ascii.ascii_dec "-"%char c) as [<-|Hc].
  - intros [= <-]. cbn [String.substring String.append String.length].
    split; [done|]. split; [done|]. f_equal.
    rewrite Nat.sub_succ, Nat.sub_0_r. by rewrite substring_all.
  - destruct (String.index 0 "-"%string s) as [d'|]; [|done].
    intros [= <-]. destruct (IH d' eq_refl) as (Hidx & Hpre & Hsplit).
    cbn [String.substring String.append String.length].
    rewrite index_hyphen_cons, Hidx, prefix_cons.
    destruct (Ascii.ascii_dec "-"%char c) as [?|_]; [done|].
    split; [done|]. split; [done|]. f_equal. exact Hsplit.
Qed.

(** X23.  The language handed to the engine is the part of the tag before its
    first hyphen: it holds no hyphen and is a prefix of the tag; a tag
    [a-b] with no hyphen in [a] gives [a], a tag without a hyphen is
    handed over as it is, and without a tag the language is [en]. *)
Theorem language_of_tag_is_base_language :
  (forall lang, String.index 0 "-"%string (language_of_tag lang) = None) /\
  (forall tag, String.prefix (language_of_tag (Some tag)) tag = true) /\
  (forall a b,
      String.index 0 "-"%string a = None ->
      language_of_tag (Some (String.append a (String "-"%char b))) = a) /\
  (forall tag, String.index 0 "-"%string tag = None -> language_of_tag (Some tag) = tag) /\
  language_of_tag None = "en"%string.
Proof.
  assert (Hpre : forall s, String.prefix s s = true).
  { induction s as [|c s IH]; [done|]. by rewrite prefix_cons. }
  assert (Hkeep : forall tag, String.index 0 "-"%string tag = None ->
                              language_of_tag (Some tag) = tag).
  { intros tag Hidx. unfold language_of_tag. by rewrite Hidx. }
  split; [|split; [|split; [|split; [done|done]]]].
  - intros [tag|]; [|done].
    unfold language_of_tag.
    destruct (String.index 0 "-"%string tag) as [d|] eqn:Hidx; [|done].
    by destruct (substring_before_hyphen tag d Hidx) as (? & _).
  - intros tag. unfold language_of_tag.
    destruct (String.index 0 "-"%string tag) as [d|] eqn:Hidx; [|done].
    by destruct (substring_before_hyphen tag d Hidx) as (_ & ? & _).
  - intros a b Ha. unfold language_of_tag.
    assert (Hab : String.index 0 "-"%string (String.append a (String "-"%char b)) = Some (String.length a) /\
                  String.substring 0 (String.length a) (String.append a (String "-"%char b)) = a).
    { induction a as [|c a IH].
      - cbn [String.append String.length]. rewrite index_hyphen_cons.
        by destruct (Ascii.ascii_dec "-"%char "-"%char).
      - rewrite index_hyphen_cons in Ha.
        destruct (Ascii.ascii_dec "-"%char c) as [?|Hc]; [done|].
        destruct (String.index 0 "-"%string a); [done|].
        destruct (IH eq_refl) as [Hidx Hsub].
        cbn [String.append String.length String.substring].
        rewrite index_hyphen_cons, Hidx, Hsub.
        by destruct (Ascii.ascii_dec "-"%char c). }
    destruct Hab as [-> ->]. done.
Qed.

End language_tags.

(** ** whisper_jni.cpp: samples as floats *)

Section samples.
Import whisper_jni pcm16_spec.

Lemma holds_from_spec (f : Z -> bool) (k : nat) :
  forall v z, holds_from k v f = true -> v <= z < v + Z.of_nat k -> f z = true.
Proof.
  induction k as [|k IH]; intros v z Hall Hz; [lia|].
  cbn [holds_from] in Hall. apply andb_prop in Hall as [Hv Hall].
  destruct (decide (z = v)) as [->|Hne]; [done|].
  apply (IH (v + 1)); [done|lia].
Qed.

(** Every sample of 16 bits, one by one. *)
Lemma all_samples_scaled :
  holds_from (Z.to_nat 65536) (-32768)
    (fun v => sample_scaled v (PrimFloat.mul (float_of_int v) 0x1p-15%float)) = true.
Proof. vm_compute. reflexivity. Qed.

(** X24.  pcm16_to_f32 gives one float for each of the [n] samples, and the
    float of a sample of 16 bits lies in [-1, 1), is the sample again
    when multiplied by 32768 (nothing is rounded away), and is
    negative, zero or positive as the sample is. *)
Theorem pcm16_to_f32_scales_exactly (pcm : list Z) (n : Z) (i : nat) (v : Z) :
  Z.of_nat i < n ->
  pcm !! i = Some v ->
  is_int16 v ->
  length (pcm16_to_f32 pcm n) = Z.to_nat n /\
  exists x,
    pcm16_to_f32 pcm n !! i = Some x /\
    x = PrimFloat.mul (float_of_int v) 0x1p-15%float /\
    sample_scaled v x = true.
Proof.
  intros Hi Hv Hrange. unfold pcm16_to_f32.
  split; [by rewrite length_fmap, length_seqZ|].
  eexists. split; [|split; [reflexivity|]].
  - rewrite list_lookup_fmap, lookup_seqZ_lt by lia. cbn.
    by rewrite Z.add_0_l, (array_get_lookup _ _ _ Hv).
  - apply (holds_from_spec _ _ _ v all_samples_scaled).
    unfold is_int16 in Hrange. lia.
Qed.

End samples.

(** The samples -32768, 0 and 16384 become -1, 0 and 0.5. *)
Lemma pcm16_to_f32_scales_exactly_witness :
  whisper_jni.pcm16_to_f32 [-32768; 0; 16384] 3 = [(-1)%float; 0%float; 0.5%float] /\
  pcm16_spec.sample_scaled 16384
    (PrimFloat.mul (whisper_jni.float_of_int 16384) 0x1p-15%float) = true.
Proof.
  split; [reflexivity|].
  destruct (pcm16_to_f32_scales_exactly [-32768; 0; 16384] 3 2 16384)
    as (_ & x & _ & -> & Hx).
  - reflexivity.
  - reflexivity.
  - split; vm_compute; discriminate.
  - exact Hx.
Defined.

(** A run in two steps, without a sink: [Hello] is returned. *)
Lemma transcribe_returns_text_of_run_witness :
  whisper_jni.ret
    (whisper_jni.Java_com_microllm_app_WhisperNative_transcribePcm16 true
       (scripted.listening scripted.hello_steps 0) [0; 100] 16000 (Some "en-US"%string) false)
  = jni.Returned (Some [72; 101; 108; 108; 111]).
Proof.
  destruct (transcribe_returns_text_of_run
              (H := scripted.whisper scripted.hello_steps 0)
              (scripted.listening scripted.hello_steps 0)
              (whisper_jni.mk_whisper_context
                 (H := scripted.whisper scripted.hello_steps 0) "ggml-base.bin"%string [])
              [0; 100] (Some "en-US"%string) false) as (Heff & _ & _).
  - reflexivity.
  - discriminate.
  - vm_compute. discriminate.
  - rewrite Heff. reflexivity.
Defined.


(** loadModel with 2 threads, then a transcription: the engine runs
    with 2 threads and the language [es]. *)
Lemma loadModel_then_transcribe_witness :
  exists st1,
    whisper_jni.Java_com_microllm_app_WhisperNative_loadModel
      (H := scripted.whisper scripted.hello_steps 0) true
      whisper_jni.initial_globals "ggml-base.bin" 2 = (true, st1) /\
    whisper_jni.engine_calls
      (whisper_jni.Java_com_microllm_app_WhisperNative_transcribePcm16 true st1
         [0; 16384] 16000 (Some "es-ES"%string) true)
    = [({| whisper_jni.n_threads := 2; whisper_jni.translate := true;
           whisper_jni.print_progress := false; whisper_jni.print_realtime := false;
           whisper_jni.print_timestamps := false; whisper_jni.language := "es" |},
        [0%float; 0.5%float])].
Proof.
  eexists. split; [reflexivity|].
  destruct (loadModel_then_transcribe
              (H := scripted.whisper scripted.hello_steps 0)
              whisper_jni.initial_globals _ "ggml-base.bin" 2 true
              [0; 16384] (Some "es-ES"%string) true eq_refl)
    as (_ & _ & _ & Hok).
  - discriminate.
  - destruct (Hok eq_refl) as (m & _ & _ & Hcalls & _). exact Hcalls.
Defined.

(** The build without whisper.h: after loadModel nothing is loaded. *)
Lemma unavailable_build_does_nothing_witness :
  whisper_session.after_calls (H := scripted.whisper scripted.hello_steps 0) false
    whisper_jni.initial_globals
    [whisper_session.call_loadModel "ggml-base.bin" 2;
     whisper_session.call_transcribePcm16 [0; 100] 16000 None false]
  = whisper_jni.initial_globals.
Proof.
  destruct (unavailable_build_does_nothing
              (H := scripted.whisper scripted.hello_steps 0) false
              [whisper_session.call_loadModel "ggml-base.bin" 2;
               whisper_session.call_transcribePcm16 [0; 100] 16000 None false]
              "ggml-base.bin" 2 [0; 100] 16000 None false None) as (Hst & _).
  - reflexivity.
  - exact Hst.
Defined.

(** The tag [es-ES] gives the language [es]. *)
Lemma language_of_tag_is_base_language_witness :
  whisper_jni.language_of_tag (Some "es-ES"%string) = "es"%string.
Proof.
  destruct language_of_tag_is_base_language as (_ & _ & Hbase & _).
  apply (Hbase "es"%string "ES"%string). reflexivity.
Defined.

(** ** llama_jni.cpp: the sampler of a session *)

Section session_sampler.
Import llama_jni llama_session.
Context `{llama_h}.

(** A chain that filters first and picks last. *)
Local Abbreviation picks_last chain :=
  (exists filters sel,
      chain = filters ++ [sel] /\
      is_selection sel = true /\
      Forall (fun stage => is_selection stage = false) filters /\
      (length filters <= 3)%nat).

Lemma resetSampler_picks_last (st : globals) (temperature topP : float) (topK : Z)
    (chain : list llama_sampler_stage) :
  g_sampler (Java_com_microllm_app_LlamaNative_resetSampler st temperature topP topK).1
  = Some chain ->
  picks_last chain.
Proof.
  unfold Java_com_microllm_app_LlamaNative_resetSampler,
    llama_sampler_chain_add, llama_sampler_chain_init.
  cbn [fst g_sampler set_g_sampler]. intros [= <-].
  exists ((if 0 <? topK then [llama_sampler_init_top_k topK] else []) ++
          (if PrimFloat.ltb topP f_1_0 then [llama_sampler_init_top_p topP 1] else []) ++
          (if PrimFloat.ltb f_0 temperature then [llama_sampler_init_temp temperature]
           else [])),
    (if PrimFloat.ltb f_0 temperature then llama_sampler_init_dist 42
     else llama_sampler_init_greedy).
  destruct (0 <? topK), (PrimFloat.ltb topP f_1_0), (PrimFloat.ltb f_0 temperature);
    cbn; (split; [done|]); (split; [done|]); (split; [repeat constructor|lia]).
Qed.

(** What every call keeps: a sampler that is there picks last. *)
Lemma picks_last_kept (st st' : globals) (c : call) :
  (forall chain, g_sampler st = Some chain -> picks_last chain) ->
  after_call st c = Some st' ->
  forall chain, g_sampler st' = Some chain -> picks_last chain.
Proof.
  intros Hinv.
  assert (Hdefault : picks_last default_sampler_chain).
  { exists [llama_sampler_init_top_k 40; llama_sampler_init_top_p f_0_9 1;
            llama_sampler_init_temp f_0_7], (llama_sampler_init_dist 42).
    split; [done|]. split; [done|]. split; [repeat constructor|cbn; lia]. }
  destruct c as [path cs th| |fuel tokens|t p k|]; cbn [after_call].
  - intros [= <-] chain.
    unfold Java_com_microllm_app_LlamaNative_loadModel.
    destruct st as [[old|] c s pst]; cbn [g_model];
      rewrite ?free_sampler_spec; cbn [g_sampler set_g_sampler];
      rewrite ?free_ctx_spec; cbn -[to_uint32 default_sampler_chain];
      (destruct (llama_model_load_from_file _ _) as [model|];
       cbn -[to_uint32 default_sampler_chain];
       [destruct (llama_init_from_model _ _) as [ctx|];
        cbn -[to_uint32 default_sampler_chain]|]);
      intros Hs; first [done | by injection Hs as <- | by apply Hinv].
  - intros [= <-] chain.
    unfold Java_com_microllm_app_LlamaNative_unloadModel.
    rewrite free_sampler_spec. cbn. rewrite free_ctx_spec. cbn.
    by destruct (g_model st).
  - unfold Java_com_microllm_app_LlamaNative_decode, decode_tokens_internal.
    destruct (g_ctx st) as [c|]; [|by intros [= <-]].
    destruct (decode_loop _ _ _ _ _ _ _) as [[[[r c'] p'] e]|]; [|done].
    intros [= <-]. exact Hinv.
  - intros [= <-] chain. apply resetSampler_picks_last.
  - intros [= <-] chain Hs. apply Hinv. rewrite <- Hs.
    unfold Java_com_microllm_app_LlamaNative_clearContext.
    destruct (g_ctx st) as [c|]; [|done].
    by destruct (llama_memory_clear c).
Qed.

(** X7.  In a session that starts with nothing loaded, whatever the calls
    and their arguments, a sampler that is there has at most three
    stages that filter or rescale, and after them one stage that picks
    the token, by draw or greedily: sample never runs a chain that
    picks nothing or picks before it filters. *)
Theorem session_sampler_picks_last
    (cs : list call) (st : globals) (chain : list llama_sampler_stage) :
  after_calls initial_globals cs = Some st ->
  g_sampler st = Some chain ->
  exists filters sel,
    chain = filters ++ [sel] /\
    is_selection sel = true /\
    Forall (fun stage => is_selection stage = false) filters /\
    (length filters <= 3)%nat.
Proof.
  intros Hrun. revert chain.
  assert (Hinit : forall chain, g_sampler initial_globals = Some chain -> picks_last chain)
    by done.
  revert Hrun Hinit. generalize initial_globals.
  induction cs as [|c cs IH]; intros st0 Hrun Hinv; cbn [after_calls] in Hrun.
  - by injection Hrun as <-.
  - destruct (after_call st0 c) as [st1|] eqn:Hc; [|done].
    apply (IH st1 Hrun). exact (picks_last_kept st0 st1 c Hinv Hc).
Qed.

End session_sampler.

(** After load, a new sampler without filters and with temperature 0,
    and a decode: the chain is the greedy stage alone. *)
Lemma session_sampler_picks_last_witness :
  exists st,
    llama_session.after_calls (H := scripted.llama [] scripted.no_piece)
      llama_jni.initial_globals
      [llama_session.call_loadModel "model.gguf" 2048 4;
       llama_session.call_resetSampler 0 1 0;
       llama_session.call_decode 5 [11; 12; 13]] = Some st /\
    llama_jni.g_sampler st = Some [llama_jni.llama_sampler_init_greedy] /\
    exists filters sel,
      [llama_jni.llama_sampler_init_greedy] = filters ++ [sel] /\
      llama_session.is_selection sel = true /\
      Forall (fun stage => llama_session.is_selection stage = false) filters /\
      (length filters <= 3)%nat.
Proof.
  eexists. split; [reflexivity|]. split; [reflexivity|].
  eapply (session_sampler_picks_last (H := scripted.llama [] scripted.no_piece)
            [llama_session.call_loadModel "model.gguf" 2048 4;
             llama_session.call_resetSampler 0 1 0;
             llama_session.call_decode 5 [11; 12; 13]]).
  - reflexivity.
  - reflexivity.
Defined.

(** ** llama_jni.cpp: the batch width that decode relies on *)

Section decode_width.
Import llama_jni.
Context `{llama_h}.

(** X14.  decode relies on a positive batch width.  With a context of batch
    width 0 and an engine that, from this context on, answers 0 to
    every batch, decode of a sequence that is not empty hands over
    empty chunks without end: no number of rounds is enough for it to
    return. *)
Theorem decode_zero_width_never_returns
    (answers_0 : llama_context -> Prop)
    (fuel : nat) (st : globals) (ctx : llama_context) (tokens : list llama_token) :
  g_ctx st = Some ctx ->
  wrap32 (llama_n_batch ctx) = 0 ->
  answers_0 ctx ->
  (forall c batch,
      answers_0 c -> (llama_decode c batch).2 = 0 /\ answers_0 (llama_decode c batch).1) ->
  0 < Z.of_nat (length tokens) <= INT32_MAX ->
  Java_com_microllm_app_LlamaNative_decode fuel st tokens = None.
Proof.
  intros Hctx HB Hgood Hzero Hn.
  rewrite (decode_run _ _ _ _ Hctx), HB.
  assert (Hloop : forall c P,
             answers_0 c ->
             decode_loop fuel tokens (Z.of_nat (length tokens)) 0 c P 0 = None);
    [|by rewrite Hloop].
  clear Hctx HB Hgood.
  induction fuel as [|fuel IH]; intros c P Hc; cbn [decode_loop].
  - by destruct (Z.ltb_spec 0 (Z.of_nat (length tokens))) as [_|?]; [|lia].
  - destruct (Z.ltb_spec 0 (Z.of_nat (length tokens))) as [_|?]; [|lia].
    rewrite sub32_id by int32_lia.
    replace (Z.min 0 (Z.of_nat (length tokens) - 0)) with 0 by lia.
    destruct (Hzero c (build_batch tokens (Z.of_nat (length tokens)) P 0 0) Hc)
      as [Hres Hc'].
    destruct (llama_decode c _) as [c' res]. cbn [fst snd] in Hres, Hc'. subst res.
    cbn [Z.eqb negb].
    change (add32 0 0) with 0. by rewrite IH.
Qed.

End decode_width.

(** A context of batch width 0 whose engine answers 0: decode of one
    token has not returned after 100 rounds. *)
Lemma decode_zero_width_never_returns_witness :
  llama_jni.Java_com_microllm_app_LlamaNative_decode 100 (scripted.loaded 0 [] 10) [11]
  = None.
Proof.
  apply (decode_zero_width_never_returns (H := scripted.llama [] scripted.no_piece)
           (fun c : scripted.context => scripted.c_script c = [])
           100 (scripted.loaded 0 [] 10) (scripted.mk_context 2048 0 []) [11]).
  - reflexivity.
  - reflexivity.
  - reflexivity.
  - intros [a b s] batch Hs. cbn in Hs. subst s. split; reflexivity.
  - split; vm_compute; [reflexivity|discriminate].
Defined.

(** ** whisper_jni.cpp: the callback and the count it is given *)

Section callback_count.
Import jni whisper_jni transcribe_spec.
Context `{whisper_h}.


End callback_count.

